(** * The query routes of the blockchain API and the chain-state store

    A shallow embedding of [src/api/routes/tx.ts] and
    [src/api/routes/burnchain.ts].  A route handler is an asynchronous
    function over a [DataStore] handle: it is embedded as a program of a small
    free monad whose operations are the calls made on the handle, so that the
    same program can be run against any implementation of the store.

    The pagination helpers and the chain-state store itself live in other
    modules of the repository; they are written down from the specification
    and marked as such. *)

From Stdlib Require Import ZArith List String Ascii Bool Lia.
From Stdlib Require Import DecimalString DecimalZ DecimalPos.
Import ListNotations.

Set Warnings "-register-all".
Local Open Scope string_scope.
Local Open Scope Z_scope.
Local Open Scope list_scope.

Infix "+++" := String.append (at level 60, right associativity).

(** ** JavaScript values *)

Module Js.

(** Strings are sequences of code units; the embedding keeps the code units
    below 256.  [WhiteSpace] and [LineTerminator] of ECMAScript, restricted
    to that range: TAB, LF, VT, FF, CR, SP and NBSP. *)
Definition isWhiteSpace (c : ascii) : bool :=
  let n := Z.of_N (N_of_ascii c) in
  ((9 <=? n) && (n <=? 13)) || (n =? 32) || (n =? 160).

Fixpoint trimStart (s : string) : string :=
  match s with
  | EmptyString => EmptyString
  | String c s' => if isWhiteSpace c then trimStart s' else s
  end.

Fixpoint trimEnd (s : string) : string :=
  match s with
  | EmptyString => EmptyString
  | String c s' =>
      match trimEnd s' with
      | EmptyString => if isWhiteSpace c then EmptyString else String c EmptyString
      | t => String c t
      end
  end.

(** [String.prototype.trim] *)
Definition trim (s : string) : string := trimEnd (trimStart s).

(** Truthiness of a string: only the empty string is falsy. *)
Definition truthy (s : string) : bool := negb (s =? "")%string.

(** [toString] of an integral [number] or of a [bigint]: decimal digits,
    with a leading minus sign for negative values. *)
Definition toString (n : Z) : string := NilZero.string_of_int (Z.to_int n).

(** The double quote character, for the messages that contain it. *)
Definition dquote : string := String (ascii_of_nat 34) EmptyString.

End Js.

(** JSON documents, as handed to [res.json]. An object literal keeps its
    properties in the order in which they are written. *)
Inductive json : Type :=
| JNull
| JBool (b : bool)
| JNumber (n : Z)
| JString (s : string)
| JArray (items : list json)
| JObject (props : list (string * json)).

Definition keys (j : json) : list string :=
  match j with
  | JObject props => map fst props
  | _ => []
  end.

Fixpoint lookup (k : string) (props : list (string * json)) : option json :=
  match props with
  | [] => None
  | (k', v) :: rest => if (k =? k')%string then Some v else lookup k rest
  end.

Definition prop (k : string) (j : json) : option json :=
  match j with
  | JObject props => lookup k props
  | _ => None
  end.

(** ** Errors and results *)

(** A thrown [Error]. The routes only ever throw plain [Error] objects; the
    pagination helpers report client input errors. *)
Inductive ErrorKind := ClientInput | Internal.

Record JsError := { kind : ErrorKind; message : string }.

Definition Error (msg : string) : JsError := {| kind := Internal; message := msg |}.

(** [`${error}`] for an [Error] object: its name, a colon and its message. *)
Definition errorToString (e : JsError) : string := "Error: " +++ message e.

Inductive result (A : Type) : Type :=
| Ok (a : A)
| Err (e : JsError).
Arguments Ok {A} a.
Arguments Err {A} e.

(** ** The request *)

(** A value of the parsed query string: a string, a repeated parameter, or a
    nested object. *)
Inductive qvalue :=
| QString (s : string)
| QArray (l : list string)
| QObject (o : json).

(** [req.query], with each parameter at the type at which the handlers read
    it: the paging parameters, [type] and [protocol] are read as they come;
    the address filters are read [as string]. *)
Record Query := {
  q_limit : option qvalue;
  q_offset : option qvalue;
  q_type : option qvalue;
  q_protocol : option qvalue;
  q_event_limit : option qvalue;
  q_event_offset : option qvalue;
  q_sender_address : option string;
  q_recipient_address : option string;
  q_address : option string
}.

(** [req.query[p] as string] for the address parameters. *)
Definition addr_param (q : Query) (p : string) : option string :=
  if (p =? "sender_address")%string then q_sender_address q
  else if (p =? "recipient_address")%string then q_recipient_address q
  else if (p =? "address")%string then q_address q
  else None.

(** [req.params]: Express only dispatches to a handler when its path pattern
    matched, so the named parameters of the pattern are bound. *)
Record Params := {
  p_tx_id : string;
  p_address : string
}.

Record Request := {
  query : Query;
  params : Params
}.

(** What a handler sends: [res.status(s).json(body)] ([res.json] alone sends
    status 200) or [res.redirect(location)]. *)
Inductive Response :=
| Json (status : Z) (body : json)
| Redirect (location : string).

(** ** Pagination *)

(** The argument of the paging parsers: [req.query.limit ?? 96] is either the
    query value or the numeric default. *)
Inductive any :=
| ANumber (n : Z)
| AQuery (v : qvalue).

(** [v ?? d] *)
Definition orDefault (v : option qvalue) (d : Z) : any :=
  match v with
  | Some q => AQuery q
  | None => ANumber d
  end.

Module Pagination.

(** Modelled from the spec: the client input error of a paging parameter that
    is not a non-negative integer. *)
Definition pagingError : JsError :=
  {| kind := ClientInput;
     message := "`limit` and `offset` must be non-negative integers" |}.

(** Modelled from the spec: [parsePagingQueryInput] of [api/pagination],
    a module apart from the routes. "[limit]/[offset] are
    non-negative integers": a number is accepted when it is one, a string
    when it is a non-empty run of decimal digits, anything else is a client
    input error. *)
Definition parsePagingQueryInput (val : any) : result Z :=
  match val with
  | ANumber n => if 0 <=? n then Ok n else Err pagingError
  | AQuery (QString s) =>
      match NilZero.uint_of_string s with
      | Some d => Ok (Z.of_uint d)
      | None => Err pagingError
      end
  | AQuery _ => Err pagingError
  end.

(** Modelled from the spec: [parseLimitQuery] of [api/pagination]. "Each
    endpoint declares its own maximum [limit] and rejects values above it
    with a client error"; the message is the one the endpoint passes. *)
Definition parseLimitQuery (maxItems : Z) (errorMsg : string) (val : any) : result Z :=
  match parsePagingQueryInput val with
  | Err e => Err e
  | Ok limit =>
      if maxItems <? limit
      then Err {| kind := ClientInput; message := errorMsg |}
      else Ok limit
  end.

End Pagination.
Import Pagination.

(** ** Rows handed out by the data store *)

Record DbBurnchainReward := {
  canonical : bool;
  burn_block_hash : string;
  burn_block_height : Z;
  burn_amount : Z;
  reward_recipient : string;
  reward_amount : Z;
  reward_index : Z
}.

(** The answer of [getBurnchainRewardsTotal]. *)
Record DbRewardsTotal := {
  total_reward_recipient : string;
  total_reward_amount : Z
}.

(** The answer of [getTxFromDataStore]: [{found: true, result}] or
    [{found: false}]. *)
Inductive TxQuery :=
| Found (result : json)
| NotFound.

(** The answer of the paged list queries: [{results, total}]. *)
Record Paged (A : Type) := {
  results : list A;
  total : Z
}.
Arguments results {A} _.
Arguments total {A} _.

(** ** The environment of the routes

    The imports of the two route modules that are defined elsewhere. The
    routes are verified for every choice of them. *)
Class Env := {
  DbTx : Type;
  DbMempoolTx : Type;
  DbBlock : Type;
  DbEvent : Type;
  DropReason : Type;
  TransactionType : Type;
  tx_id : DbTx -> string;
  (* helpers *)
  has0xPrefix : string -> bool;
  isValidC32Address : string -> bool;
  isValidBitcoinAddress : string -> bool;
  tryConvertC32ToBtc : string -> option string;
  isProdEnv : bool;
  (* api/controllers/db-controller *)
  parseTxTypeStrings : list string -> result (list TransactionType);
  parseDbMempoolTx : DbMempoolTx -> json;
  (* api/validate *)
  validate : string -> json -> result unit;
  (* platform *)
  JSON_stringify : json -> string
}.

(** ** Operations on the data store handle *)

Section Routes.

Context {env : Env}.

(** The calls a program can make on its surroundings, indexed by the type of
    their answer. The first group is what the routes call on [db] (with
    [getTxFromDataStore], the controller function that takes [db]); the
    last group is the response stream and the log of the [/stream] route. *)
Inductive Op : Type -> Type :=
(* reads *)
| GetTxList (offset limit : Z) (txTypeFilter : list TransactionType) : Op (Paged DbTx)
| GetMempoolTxList (offset limit : Z) (senderAddress recipientAddress address : option string)
    : Op (Paged DbMempoolTx)
| GetDroppedTxs (offset limit : Z) : Op (Paged DbMempoolTx)
| GetTxFromDataStore (txId : string) (eventLimit eventOffset : option Z) : Op TxQuery
| GetBurnchainRewards (burnchainRecipient : option string) (offset limit : Z)
    : Op (list DbBurnchainReward)
| GetBurnchainRewardsTotal (burnchainRecipient : string) : Op DbRewardsTotal
(* the event emitter of the handle *)
| AddListener (event : string) : Op unit
| RemoveListener (event : string) : Op unit
(* Modelled from the spec: the mutating operations of the Chain State Store
   (section 4.2), which the ingestion path calls. *)
| AppendBlock (block : DbBlock) (txs : list DbTx) (events : list DbEvent) : Op unit
| AppendMempoolTx (tx : DbMempoolTx) : Op unit
| PruneMempoolTx (txId : string) : Op unit
| RestoreMempoolTx (txId : string) : Op unit
| MarkDropped (txId : string) (reason : DropReason) : Op unit
(* the response stream *)
| ResWriteHead (status : Z) (headers : list (string * string)) : Op unit
| ResWrite (chunk : string) : Op unit
| ResFlush : Op unit
| AwaitClose : Op unit
| LogError (msg : string) (e : JsError) : Op unit.

(** The read operations of the query service. *)
Definition isRead {X} (op : Op X) : bool :=
  match op with
  | GetTxList _ _ _ | GetMempoolTxList _ _ _ _ _ | GetDroppedTxs _ _
  | GetTxFromDataStore _ _ _ | GetBurnchainRewards _ _ _
  | GetBurnchainRewardsTotal _ => true
  | _ => false
  end.

(** The operations that write chain state. *)
Definition isMutation {X} (op : Op X) : bool :=
  match op with
  | AppendBlock _ _ _ | AppendMempoolTx _ | PruneMempoolTx _
  | RestoreMempoolTx _ | MarkDropped _ _ => true
  | _ => false
  end.

(** ** Programs *)

(** An asynchronous function: it returns, throws, or awaits an operation and
    goes on with its answer. An awaited operation may itself be rejected, in
    which case the [await] throws. *)
Inductive prog (R : Type) : Type :=
| Ret (r : R)
| Throw (e : JsError)
| Call {X : Type} (op : Op X) (k : result X -> prog R).
Arguments Ret {R} r.
Arguments Throw {R} e.
Arguments Call {R X} op k.

Fixpoint bind {A B : Type} (p : prog A) (f : A -> prog B) : prog B :=
  match p with
  | Ret a => f a
  | Throw e => Throw e
  | Call op k => Call op (fun x => bind (k x) f)
  end.

(** [try { p } catch (e) { h e }] *)
Fixpoint catch {A : Type} (p : prog A) (h : JsError -> prog A) : prog A :=
  match p with
  | Ret a => Ret a
  | Throw e => h e
  | Call op k => Call op (fun x => catch (k x) h)
  end.

Definition lift {A : Type} (r : result A) : prog A :=
  match r with
  | Ok a => Ret a
  | Err e => Throw e
  end.

(** [await op] *)
Definition call {X : Type} (op : Op X) : prog X := Call op lift.

End Routes.

Arguments Ret {env R} r.
Arguments Throw {env R} e.
Arguments Call {env R X} op k.

Declare Scope prog_scope.
Delimit Scope prog_scope with prog.
Notation "x <- p ;; q" := (bind p (fun x => q))
  (at level 61, p at next level, right associativity) : prog_scope.
Notation "p ;; q" := (bind p (fun _ => q))
  (at level 61, right associativity) : prog_scope.
Local Open Scope prog_scope.

Section Running.

Context {env : Env}.

(** [Bluebird.mapSeries]: the items one after the other, in order. *)
Fixpoint mapSeries {A B : Type} (l : list A) (f : A -> prog B) : prog (list B) :=
  match l with
  | [] => Ret []
  | a :: rest =>
      b <- f a ;;
      bs <- mapSeries rest f ;;
      Ret (b :: bs)
  end.

(** An implementation of the operations over a state [S]: the answer (or
    the rejection) of each operation and the state it leaves. *)
Definition handler (S : Type) : Type := forall X : Type, Op X -> S -> result X * S.

Inductive outcome (R : Type) : Type :=
| Returned (r : R)
| Thrown (e : JsError).
Arguments Returned {R} r.
Arguments Thrown {R} e.

(** An operation together with the type of its answer. *)
Definition invoked : Type := { X : Type & Op X }.

Record run (R S : Type) : Type := {
  output : outcome R;
  final : S;
  trace : list invoked
}.
Arguments output {R S} _.
Arguments final {R S} _.
Arguments trace {R S} _.

(** Running a program against an implementation, from a state: what it
    yields, the state it leaves and the operations it made, in order. *)
Fixpoint exec {R S : Type} (h : handler S) (p : prog R) (s : S) : run R S :=
  match p with
  | Ret r => {| output := Returned r; final := s; trace := [] |}
  | Throw e => {| output := Thrown e; final := s; trace := [] |}
  | Call op k =>
      let (x, s') := h _ op s in
      let r := exec h (k x) s' in
      {| output := output r; final := final r; trace := existT _ _ op :: trace r |}
  end.

(** A program that makes only operations in [P], whatever the answers. *)
Inductive uses (P : forall X, Op X -> Prop) {R : Type} : prog R -> Prop :=
| uses_Ret r : uses P (Ret r)
| uses_Throw e : uses P (Throw e)
| uses_Call X (op : Op X) k : P X op -> (forall x, uses P (k x)) -> uses P (Call op k).

End Running.

Arguments Returned {R} r.
Arguments Thrown {R} e.
Arguments output {env R S} _.
Arguments final {env R S} _.
Arguments trace {env R S} _.

(** ** [api/routes/tx.ts] *)

Section TxRouter.

Context {env : Env}.

Definition MAX_TXS_PER_REQUEST : Z := 200.
Definition parseTxQueryLimit : any -> result Z :=
  parseLimitQuery MAX_TXS_PER_REQUEST
    ("`limit` must be equal to or less than " +++ Js.toString MAX_TXS_PER_REQUEST).

Definition MAX_MEMPOOL_TXS_PER_REQUEST : Z := 200.
Definition parseMempoolTxQueryLimit : any -> result Z :=
  parseLimitQuery MAX_MEMPOOL_TXS_PER_REQUEST
    ("`limit` must be equal to or less than " +++ Js.toString MAX_MEMPOOL_TXS_PER_REQUEST).

Definition MAX_EVENTS_PER_REQUEST : Z := 200.
Definition parseTxQueryEventsLimit : any -> result Z :=
  parseLimitQuery MAX_EVENTS_PER_REQUEST
    ("`event_limit` must be equal to or less than " +++ Js.toString MAX_EVENTS_PER_REQUEST).

Definition getTransactionsSchema : string :=
  "@blockstack/stacks-blockchain-api-types/api/transaction/get-transactions.schema.json".

(** The list responses [{ limit, offset, total, results }]. *)
Definition listResponse (limit offset total : Z) (results : list json) : json :=
  JObject [("limit", JNumber limit); ("offset", JNumber offset);
           ("total", JNumber total); ("results", JArray results)].

Definition errorBody (msg : string) : json := JObject [("error", JString msg)].

(** The value of [txTypeFilter] after the [if] chain on [req.query.type]: an
    array or a string is parsed, any other value that is set throws, and no
    value is no filter. *)
Definition txTypeFilterOf (typeQuery : option qvalue) : result (list TransactionType) :=
  match typeQuery with
  | Some (QArray typeQuery) => parseTxTypeStrings typeQuery
  | Some (QString typeQuery) => parseTxTypeStrings [typeQuery]
  | Some (QObject typeQuery) =>
      Err (Error ("Unexpected tx type query value: " +++ JSON_stringify typeQuery))
  | None => Ok []
  end.

(** The callback of [mapSeries] in the list route: the full transaction of a
    listed row. *)
Definition fullTx (tx : DbTx) : prog json :=
  txQuery <- call (GetTxFromDataStore (tx_id tx) None None) ;;
  match txQuery with
  | NotFound => Throw (Error "unexpected tx not found -- fix tx enumeration query")
  | Found result => Ret result
  end.

(** [GET /] *)
Definition getTxListRoute (req : Request) : prog Response :=
  limit <- lift (parseTxQueryLimit (orDefault (q_limit (query req)) 96)) ;;
  offset <- lift (parsePagingQueryInput (orDefault (q_offset (query req)) 0)) ;;
  txTypeFilter <- lift (txTypeFilterOf (q_type (query req))) ;;
  page <- call (GetTxList offset limit txTypeFilter) ;;
  results <- mapSeries (results page) fullTx ;;
  let response := listResponse limit offset (total page) results in
  (if negb isProdEnv then lift (validate getTransactionsSchema response) else Ret tt) ;;
  Ret (Json 200 response).

(** The body of the [map] over the three address parameters: [undefined]
    when the parameter is absent or empty, the address when it is valid, and
    a thrown error otherwise. *)
Definition addrParam (req : Request) (p : string) : result (option string) :=
  match addr_param (query req) p with
  | None => Ok None
  | Some addr =>
      if negb (Js.truthy addr) then Ok None
      else if negb (isValidC32Address addr) then
        Err (Error ("Invalid query parameter for " +++ Js.dquote +++ p +++ Js.dquote
                    +++ ": " +++ Js.dquote +++ addr +++ Js.dquote
                    +++ " is not a valid STX address"))
      else Ok (Some addr)
  end.

(** [Array.prototype.map] with a callback that may throw: the first throw
    ends it. *)
Fixpoint mapResult {A B : Type} (f : A -> result B) (l : list A) : result (list B) :=
  match l with
  | [] => Ok []
  | a :: rest =>
      match f a with
      | Err e => Err e
      | Ok b =>
          match mapResult f rest with
          | Err e => Err e
          | Ok bs => Ok (b :: bs)
          end
      end
  end.

Definition isSome {A : Type} (o : option A) : bool :=
  match o with Some _ => true | None => false end.

(** [GET /mempool] *)
Definition getMempoolTxListRoute (req : Request) : prog Response :=
  limit <- lift (parseTxQueryLimit (orDefault (q_limit (query req)) 96)) ;;
  offset <- lift (parsePagingQueryInput (orDefault (q_offset (query req)) 0)) ;;
  match mapResult (addrParam req) ["sender_address"; "recipient_address"; "address"]%string with
  | Err error => Ret (Json 400 (errorBody (errorToString error)))
  | Ok addrParams =>
      let senderAddress := nth 0 addrParams None in
      let recipientAddress := nth 1 addrParams None in
      let address := nth 2 addrParams None in
      if isSome address && (isSome recipientAddress || isSome senderAddress) then
        Ret (Json 400
          (errorBody ("The " +++ Js.dquote +++ "address" +++ Js.dquote
                      +++ " filter cannot be specified with other address filters")))
      else
        page <- call (GetMempoolTxList offset limit senderAddress recipientAddress address) ;;
        let results := map parseDbMempoolTx (results page) in
        Ret (Json 200 (listResponse limit offset (total page) results))
  end.

(** [GET /mempool/dropped] *)
Definition getDroppedTxsRoute (req : Request) : prog Response :=
  limit <- lift (parseTxQueryLimit (orDefault (q_limit (query req)) 96)) ;;
  offset <- lift (parsePagingQueryInput (orDefault (q_offset (query req)) 0)) ;;
  page <- call (GetDroppedTxs offset limit) ;;
  let results := map parseDbMempoolTx (results page) in
  Ret (Json 200 (listResponse limit offset (total page) results)).

Definition isProtocol (v : option qvalue) (name : string) : bool :=
  match v with
  | Some (QString s) => (s =? name)%string
  | _ => false
  end.

(** [`${protocol}`] in the message of the [/stream] route. *)
Definition protocolToString (v : option qvalue) : string :=
  match v with
  | None => "undefined"
  | Some (QString s) => s
  | Some (QArray l) => String.concat "," l
  | Some (QObject _) => "[object Object]"
  end.

(** The listener of the [/stream] route, run for each [txUpdate] event. *)
Definition dbTxUpdate (useEventSource : bool) (txId : string) : prog unit :=
  catch
    (txQuery <- call (GetTxFromDataStore txId None None) ;;
     match txQuery with
     | NotFound => Throw (Error "error in tx stream, tx not found")
     | Found result =>
         if useEventSource then
           call (ResWrite ("event: tx" +++ String (ascii_of_nat 10) "data: "
                           +++ JSON_stringify result
                           +++ String (ascii_of_nat 10) (String (ascii_of_nat 10) ""))) ;;
           call ResFlush
         else Ret tt
     end)
    (fun error => call (LogError "error streaming tx updates" error)).

(** [GET /stream]: the handler registers the listener, waits for the response
    to close and removes the listener. *)
Definition streamRoute (req : Request) : prog unit :=
  let protocol := q_protocol (query req) in
  let useEventSource := isProtocol protocol "eventsource" in
  let useWebSocket := isProtocol protocol "websocket" in
  if negb useEventSource && negb useWebSocket then
    Throw (Error ("Unsupported stream protocol " +++ Js.dquote
                  +++ protocolToString protocol +++ Js.dquote))
  else
    (if useEventSource then
       call (ResWriteHead 200
               [("Content-Type", "text/event-stream"); ("Cache-Control", "no-cache");
                ("Connection", "keep-alive")]%string)
     else if useWebSocket then Throw (Error "WebSocket stream not yet implemented")
     else Ret tt) ;;
    call (AddListener "txUpdate") ;;
    call AwaitClose ;;
    call (RemoveListener "txUpdate").

(** [GET /:tx_id] *)
Definition getTxRoute (req : Request) : prog Response :=
  let tx_id := p_tx_id (params req) in
  if negb (has0xPrefix tx_id) then
    Ret (Redirect ("/extended/v1/tx/0x" +++ tx_id))
  else
    eventLimit <- lift (parseTxQueryEventsLimit (orDefault (q_event_limit (query req)) 96)) ;;
    eventOffset <- lift (parsePagingQueryInput (orDefault (q_event_offset (query req)) 0)) ;;
    txQuery <- call (GetTxFromDataStore tx_id (Some eventLimit) (Some eventOffset)) ;;
    match txQuery with
    | NotFound =>
        Ret (Json 404 (errorBody ("could not find transaction by ID " +++ tx_id)))
    | Found result => Ret (Json 200 result)
    end.

End TxRouter.

(** ** [api/routes/burnchain.ts] *)

Section BurnchainRouter.

Context {env : Env}.

Definition MAX_BLOCKS_PER_REQUEST : Z := 30.

Definition parseBlockQueryLimit : any -> result Z :=
  parseLimitQuery MAX_BLOCKS_PER_REQUEST
    ("`limit` must be equal to or less than " +++ Js.toString MAX_BLOCKS_PER_REQUEST).

(** The [BurnchainReward] built from a row. *)
Definition burnchainReward (r : DbBurnchainReward) : json :=
  JObject [("canonical", JBool (canonical r));
           ("burn_block_hash", JString (burn_block_hash r));
           ("burn_block_height", JNumber (burn_block_height r));
           ("burn_amount", JString (Js.toString (burn_amount r)));
           ("reward_recipient", JString (reward_recipient r));
           ("reward_amount", JString (Js.toString (reward_amount r)));
           ("reward_index", JNumber (reward_index r))].

(** The response [{ limit, offset, results }] of the reward lists. *)
Definition rewardListResponse (limit offset : Z) (results : list json) : json :=
  JObject [("limit", JNumber limit); ("offset", JNumber offset);
           ("results", JArray results)].

(** [GET /rewards] *)
Definition getRewardsRoute (req : Request) : prog Response :=
  limit <- lift (parseBlockQueryLimit (orDefault (q_limit (query req)) 20)) ;;
  offset <- lift (parsePagingQueryInput (orDefault (q_offset (query req)) 0)) ;;
  queryResults <- call (GetBurnchainRewards None offset limit) ;;
  let results := map burnchainReward queryResults in
  Ret (Json 200 (rewardListResponse limit offset results)).

(** The address resolution that both address routes start with: the value
    of [burnchainAddress] when the [if (!burnchainAddress)] test is reached. *)
Definition burnchainAddressOf (queryAddr : string) : option string :=
  if isValidBitcoinAddress queryAddr then Some queryAddr
  else
    match tryConvertC32ToBtc queryAddr with
    | Some convertedAddr => if Js.truthy convertedAddr then Some convertedAddr else None
    | None => None
    end.

Definition invalidAddressBody (queryAddr : string) : json :=
  errorBody ("Address " +++ queryAddr +++ " is not a valid Bitcoin or STX address.").

(** [GET /rewards/:address] *)
Definition getRewardsForAddressRoute (req : Request) : prog Response :=
  limit <- lift (parseBlockQueryLimit (orDefault (q_limit (query req)) 20)) ;;
  offset <- lift (parsePagingQueryInput (orDefault (q_offset (query req)) 0)) ;;
  let address := p_address (params req) in
  let queryAddr := Js.trim address in
  match burnchainAddressOf queryAddr with
  | Some burnchainAddress =>
      if negb (Js.truthy burnchainAddress) then Ret (Json 400 (invalidAddressBody queryAddr))
      else
        queryResults <- call (GetBurnchainRewards (Some burnchainAddress) offset limit) ;;
        let results := map burnchainReward queryResults in
        Ret (Json 200 (rewardListResponse limit offset results))
  | None => Ret (Json 400 (invalidAddressBody queryAddr))
  end.

(** [GET /rewards/:address/total] *)
Definition getRewardsTotalRoute (req : Request) : prog Response :=
  let address := p_address (params req) in
  let queryAddr := Js.trim address in
  match burnchainAddressOf queryAddr with
  | Some burnchainAddress =>
      if negb (Js.truthy burnchainAddress) then Ret (Json 400 (invalidAddressBody queryAddr))
      else
        queryResults <- call (GetBurnchainRewardsTotal burnchainAddress) ;;
        Ret (Json 200
          (JObject [("reward_recipient", JString (total_reward_recipient queryResults));
                    ("reward_amount",
                     JString (Js.toString (total_reward_amount queryResults)))]))
  | None => Ret (Json 400 (invalidAddressBody queryAddr))
  end.

End BurnchainRouter.

(** ** The routers *)

Section Routers.

Context {env : Env}.

(** A handler registered with [router.getAsync]: one that answers with a
    response, or the streaming handler, which keeps the response open. *)
Inductive Handler :=
| Responding (route : Request -> prog Response)
| Streaming (route : Request -> prog unit).

(** [createTxRouter]: the paths and their handlers, in the order in which
    they are registered. *)
Definition createTxRouter : list (string * Handler) :=
  [("/", Responding getTxListRoute);
   ("/mempool", Responding getMempoolTxListRoute);
   ("/mempool/dropped", Responding getDroppedTxsRoute);
   ("/stream", Streaming streamRoute);
   ("/:tx_id", Responding getTxRoute)].

(** [createBurnchainRouter] *)
Definition createBurnchainRouter : list (string * Handler) :=
  [("/rewards", Responding getRewardsRoute);
   ("/rewards/:address", Responding getRewardsForAddressRoute);
   ("/rewards/:address/total", Responding getRewardsTotalRoute)].

End Routers.

(** ** The chain-state store

    Modelled from the spec: the whole of this module. The store behind the
    [DataStore] handle is defined in the datastore modules of the repository;
    its rows, its reorganization resolver, its mempool manager, its aggregates
    and its read operations are written here from sections 3, 4 and 6 of the
    specification. *)

Module ChainStore.

Inductive TxStatus := Success | Abort | Failed.

Inductive TxType := TokenTransfer | SmartContract | ContractCall | PoisonMicroblock | Coinbase.

Inductive DropReason :=
| ReplaceByFee | ReplaceAcrossFork | TooExpensive
| StaleGarbageCollected | Problematic | NotAccepted.

(** Modelled from the spec: the [Block] rows of section 3. The index-hash
    identifies a block across forks; [b_canonical] is the mutable flag. *)
Record Block := {
  b_hash : string;
  b_parent_hash : string;
  b_index_hash : string;
  b_parent_index_hash : string;
  b_height : Z;
  b_burn_height : Z;
  b_burn_hash : string;
  b_miner_reward : Z;
  b_canonical : bool
}.

(** Modelled from the spec: the [Transaction] rows of section 3. *)
Record Tx := {
  t_tx_id : string;
  t_index_hash : string;
  t_status : TxStatus;
  t_sender : string;
  t_fee : Z;
  t_nonce : Z;
  t_type : TxType;
  t_payload : string;
  t_canonical : bool;
  t_microblock_canonical : bool
}.

Inductive EventKind :=
| StxTransfer (sender recipient : string) (amount : Z)
| StxLock (lockedAddress : string) (lockedAmount unlockHeight : Z)
| FtTransfer (asset sender recipient : string) (amount : Z)
| NftTransfer (asset sender recipient : string)
| ContractLog (contract : string)
| SmartContractDeploy (contract : string).

(** Modelled from the spec: the [Event] rows of section 3, ordered by
    [e_event_index] within their transaction. *)
Record Event := {
  e_tx_id : string;
  e_index_hash : string;
  e_event_index : Z;
  e_kind : EventKind;
  e_canonical : bool
}.

(** Modelled from the spec: the [MempoolTransaction] rows of section 3,
    without the restore and prune timestamps, which no modelled operation
    reads. Pending is [m_pruned = false] with no drop reason, mined is
    [m_pruned = true] with no drop reason, dropped carries its reason. *)
Record MempoolTx := {
  m_tx_id : string;
  m_receipt_time : Z;
  m_sender : string;
  m_recipient : option string;
  m_pruned : bool;
  m_drop_reason : option DropReason
}.

Record Store := {
  blocks : list Block;
  txs : list Tx;
  events : list Event;
  mempool : list MempoolTx;
  rewards : list DbBurnchainReward;
  lookback : nat
}.

Definition consistencyError : JsError :=
  Error "no common ancestor within the configured lookback depth".

Definition setBlockCanonical (c : bool) (b : Block) : Block :=
  {| b_hash := b_hash b; b_parent_hash := b_parent_hash b;
     b_index_hash := b_index_hash b; b_parent_index_hash := b_parent_index_hash b;
     b_height := b_height b; b_burn_height := b_burn_height b;
     b_burn_hash := b_burn_hash b; b_miner_reward := b_miner_reward b;
     b_canonical := c |}.

Definition setTxCanonical (c : bool) (t : Tx) : Tx :=
  {| t_tx_id := t_tx_id t; t_index_hash := t_index_hash t; t_status := t_status t;
     t_sender := t_sender t; t_fee := t_fee t; t_nonce := t_nonce t;
     t_type := t_type t; t_payload := t_payload t;
     t_canonical := c; t_microblock_canonical := t_microblock_canonical t |}.

Definition setEventCanonical (c : bool) (e : Event) : Event :=
  {| e_tx_id := e_tx_id e; e_index_hash := e_index_hash e;
     e_event_index := e_event_index e; e_kind := e_kind e; e_canonical := c |}.

Definition setMempool (pruned : bool) (reason : option DropReason) (m : MempoolTx) : MempoolTx :=
  {| m_tx_id := m_tx_id m; m_receipt_time := m_receipt_time m; m_sender := m_sender m;
     m_recipient := m_recipient m; m_pruned := pruned; m_drop_reason := reason |}.

Definition findBlock (indexHash : string) (bs : list Block) : option Block :=
  find (fun b => (b_index_hash b =? indexHash)%string) bs.

Definition memStr (x : string) (l : list string) : bool :=
  existsb (fun y => (y =? x)%string) l.

(** Modelled from the spec: the current canonical tip, the canonical block of
    greatest height. *)
Definition chainTip (bs : list Block) : option Block :=
  fold_left
    (fun best b =>
       if b_canonical b then
         match best with
         | None => Some b
         | Some t => if b_height t <? b_height b then Some b else best
         end
       else best)
    bs None.

(** Modelled from the spec: the ancestor walk of section 4.3, step 3. From
    a block of the new branch, follow the parent index-hashes until a
    canonical block is met: that is the common ancestor. The result is the
    ancestor and the index-hashes of the branch above it. The walk gives up
    after [fuel] steps or at an unknown parent. *)
Fixpoint commonAncestor (fuel : nat) (bs : list Block) (b : Block) (branch : list string)
  : option (Block * list string) :=
  match fuel with
  | O => None
  | S fuel' =>
      match findBlock (b_parent_index_hash b) bs with
      | None => None
      | Some parent =>
          if b_canonical parent then Some (parent, branch)
          else commonAncestor fuel' bs parent (b_index_hash parent :: branch)
      end
  end.

(** Modelled from the spec: the flag flip of section 4.3, step 3. The branch
    becomes canonical, the canonical blocks above the ancestor cease to be. *)
Definition flipBlock (ancestor : Block) (branch : list string) (b : Block) : Block :=
  if memStr (b_index_hash b) branch then setBlockCanonical true b
  else if b_canonical b && (b_height ancestor <? b_height b) then setBlockCanonical false b
  else b.

(** Modelled from the spec: a transaction and an event carry the flag of their
    containing block (section 3). *)
Definition followTx (bs : list Block) (t : Tx) : Tx :=
  match findBlock (t_index_hash t) bs with
  | Some b => setTxCanonical (b_canonical b) t
  | None => t
  end.

Definition followEvent (bs : list Block) (e : Event) : Event :=
  match findBlock (e_index_hash e) bs with
  | Some b => setEventCanonical (b_canonical b) e
  | None => e
  end.

Definition minedCanonically (ts : list Tx) (txId : string) : bool :=
  existsb (fun t => (t_tx_id t =? txId)%string && t_canonical t) ts.

(** Modelled from the spec: [restoreIfUnmined] of section 4.3, step 5. A
    mined record goes back to pending unless the transaction is mined in the
    new canonical chain; a dropped record stays dropped. *)
Definition restoreIfUnmined (ts : list Tx) (txId : string) (m : MempoolTx) : MempoolTx :=
  if (m_tx_id m =? txId)%string && m_pruned m && negb (isSome (m_drop_reason m))
     && negb (minedCanonically ts txId)
  then setMempool false None m else m.

(** Modelled from the spec: [pruneIfPending] of section 4.3, step 5. *)
Definition pruneIfPending (txId : string) (m : MempoolTx) : MempoolTx :=
  if (m_tx_id m =? txId)%string && negb (m_pruned m) && negb (isSome (m_drop_reason m))
  then setMempool true None m else m.

Definition txIdsWhere (p : Tx -> bool) (ts : list Tx) : list string :=
  map t_tx_id (filter p ts).

(** Modelled from the spec: the mempool after a flip from [before] to
    [after], restores first and prunes second (section 4.3, step 5). *)
Definition remine (before after : list Tx) (mp : list MempoolTx) : list MempoolTx :=
  let wasCanonical := txIdsWhere t_canonical before in
  let unmined := txIdsWhere (fun t => negb (t_canonical t) && memStr (t_tx_id t) wasCanonical) after in
  let mined := txIdsWhere t_canonical after in
  let restored := fold_left (fun acc txId => map (restoreIfUnmined after txId) acc) unmined mp in
  fold_left (fun acc txId => map (pruneIfPending txId) acc) mined restored.

(** Modelled from the spec: the unit of work of an append. The rows of the
    new block are inserted, the flags are set by [flip] and the mempool is
    brought in line. *)
Definition commitBlock (s : Store) (flip : Block -> Block)
           (block : Block) (newTxs : list Tx) (newEvents : list Event) : Store :=
  let bs := map flip (blocks s ++ [block]) in
  let ts := map (followTx bs) (txs s ++ newTxs) in
  {| blocks := bs;
     txs := ts;
     events := map (followEvent bs) (events s ++ newEvents);
     mempool := remine (txs s) ts (mempool s);
     rewards := rewards s;
     lookback := lookback s |}.

(** The index-hash of the block is that of a stored block. *)
Definition isStored (s : Store) (block : Block) : bool :=
  existsb (fun b => (b_index_hash b =? b_index_hash block)%string) (blocks s).

(** Modelled from the spec: [appendBlock] of section 4.2 with the resolver of
    section 4.3. A block whose index-hash is already stored is a no-op.
    Otherwise the block and its rows are inserted; it is canonical when it
    extends the tip (or is the first block), when it forks at a height not
    below the tip's the flags are flipped across the fork, and it is stored
    as non-canonical when its branch is shorter. A fork whose common
    ancestor is not found within the lookback depth is a fatal consistency
    error and leaves the store as it was. *)
Definition appendBlock (s : Store) (block : Block) (newTxs : list Tx) (newEvents : list Event)
  : result Store :=
  if isStored s block
  then Ok s
  else
    let own := b_index_hash block in
    let only c := fun b => if (b_index_hash b =? own)%string then setBlockCanonical c b else b in
    match chainTip (blocks s) with
    | None => Ok (commitBlock s (only true) block newTxs newEvents)
    | Some tip =>
        if (b_parent_index_hash block =? b_index_hash tip)%string
        then Ok (commitBlock s (only true) block newTxs newEvents)
        else if b_height block <? b_height tip
        then Ok (commitBlock s (only false) block newTxs newEvents)
        else
          match commonAncestor (lookback s) (blocks s) block [own] with
          | None => Err consistencyError
          | Some (ancestor, branch) =>
              Ok (commitBlock s (flipBlock ancestor branch) block newTxs newEvents)
          end
    end.

(** Modelled from the spec: the mempool mutations of sections 4.2 and 4.4. A
    fresh mempool event creates a new pending record in place of any earlier
    record of the same transaction. *)
Definition appendMempoolTx (s : Store) (tx : MempoolTx) : Store :=
  {| blocks := blocks s; txs := txs s; events := events s;
     mempool := filter (fun m => negb (m_tx_id m =? m_tx_id tx)%string) (mempool s)
                ++ [setMempool false None tx];
     rewards := rewards s; lookback := lookback s |}.

Definition updateMempool (s : Store) (f : MempoolTx -> MempoolTx) : Store :=
  {| blocks := blocks s; txs := txs s; events := events s;
     mempool := map f (mempool s);
     rewards := rewards s; lookback := lookback s |}.

Definition pruneMempoolTx (s : Store) (txId : string) : Store :=
  updateMempool s (pruneIfPending txId).

Definition restoreMempoolTx (s : Store) (txId : string) : Store :=
  updateMempool s (restoreIfUnmined (txs s) txId).

Definition markDropped (s : Store) (txId : string) (reason : DropReason) : Store :=
  updateMempool s (fun m =>
    if (m_tx_id m =? txId)%string && negb (m_pruned m) && negb (isSome (m_drop_reason m))
    then setMempool true (Some reason) m else m).

(** *** Aggregates *)

Definition sumZ (l : list Z) : Z := fold_right Z.add 0 l.

Definition successful (s : Store) (txId : string) : bool :=
  existsb (fun t => (t_tx_id t =? txId)%string && t_canonical t
                    && match t_status t with Success => true | _ => false end) (txs s).

Definition canonicalEvents (s : Store) : list Event :=
  filter (fun e => e_canonical e && successful s (e_tx_id e)) (events s).

Definition credit (addr : string) (e : Event) : Z :=
  match e_kind e with
  | StxTransfer _ recipient amount => if (recipient =? addr)%string then amount else 0
  | _ => 0
  end.

Definition debit (addr : string) (e : Event) : Z :=
  match e_kind e with
  | StxTransfer sender _ amount => if (sender =? addr)%string then amount else 0
  | _ => 0
  end.

Definition feesOf (s : Store) (addr : string) : Z :=
  sumZ (map t_fee
    (filter (fun t => t_canonical t && (t_sender t =? addr)%string
                      && match t_status t with Success => true | _ => false end) (txs s))).

Definition burnHeight (s : Store) : Z :=
  match chainTip (blocks s) with
  | Some tip => b_burn_height tip
  | None => 0
  end.

(** The amount of the most recent canonical lock of the address whose unlock
    height has not passed. *)
Definition locked (s : Store) (addr : string) : Z :=
  fold_left
    (fun acc e =>
       match e_kind e with
       | StxLock a amount unlockHeight =>
           if (a =? addr)%string && (burnHeight s <? unlockHeight) then amount else acc
       | _ => acc
       end)
    (canonicalEvents s) 0.

(** Modelled from the spec: the balance of section 4.5, recomputed from the
    canonical rows: credits, less debits and fees, less the locked amount. *)
Definition balance (s : Store) (addr : string) : Z :=
  sumZ (map (credit addr) (canonicalEvents s))
  - (sumZ (map (debit addr) (canonicalEvents s)) + feesOf s addr)
  - locked s addr.

(** The canonical flags of the store, row by row. *)
Definition canonicalFlags (s : Store) : list (string * bool) * list (string * bool) :=
  (map (fun b => (b_index_hash b, b_canonical b)) (blocks s),
   map (fun t => (t_tx_id t, t_canonical t)) (txs s)).

(** *** Read operations *)

(** Modelled from the spec: the page window over the matching rows, and the
    count of all of them (section 4.6). *)
Definition page {A : Type} (rows : list A) (offset limit : Z) : Paged A :=
  {| results := firstn (Z.to_nat limit) (skipn (Z.to_nat offset) rows);
     total := Z.of_nat (List.length rows) |}.

Definition memType (ty : TxType) (l : list TxType) : bool :=
  existsb (fun ty' =>
    match ty, ty' with
    | TokenTransfer, TokenTransfer | SmartContract, SmartContract
    | ContractCall, ContractCall | PoisonMicroblock, PoisonMicroblock
    | Coinbase, Coinbase => true
    | _, _ => false
    end) l.

Definition matchesType (typeFilter : list TxType) (t : Tx) : bool :=
  match typeFilter with
  | [] => true
  | _ => memType (t_type t) typeFilter
  end.

(** Modelled from the spec: [getTxList] of section 6. *)
Definition getTxList (s : Store) (offset limit : Z) (typeFilter : list TxType) : Paged Tx :=
  page (filter (fun t => t_canonical t && matchesType typeFilter t) (txs s)) offset limit.

Definition pending (m : MempoolTx) : bool :=
  negb (m_pruned m) && negb (isSome (m_drop_reason m)).

Definition optMatches (filterBy : option string) (value : option string) : bool :=
  match filterBy, value with
  | None, _ => true
  | Some a, Some v => (a =? v)%string
  | Some _, None => false
  end.

Definition matchesAddresses (senderAddress recipientAddress address : option string)
           (m : MempoolTx) : bool :=
  optMatches senderAddress (Some (m_sender m))
  && optMatches recipientAddress (m_recipient m)
  && (optMatches address (Some (m_sender m)) || optMatches address (m_recipient m)).

(** Modelled from the spec: [getMempoolTxList] of section 6, an error when
    [address] comes with [senderAddress] or [recipientAddress]. *)
Definition getMempoolTxList (s : Store) (offset limit : Z)
           (senderAddress recipientAddress address : option string)
  : result (Paged MempoolTx) :=
  if isSome address && (isSome senderAddress || isSome recipientAddress)
  then Err {| kind := ClientInput;
              message := "address cannot be combined with senderAddress or recipientAddress" |}
  else Ok (page (filter (fun m => pending m
                                  && matchesAddresses senderAddress recipientAddress address m)
                        (mempool s)) offset limit).

(** Modelled from the spec: [getDroppedTxs] of section 6. *)
Definition getDroppedTxs (s : Store) (offset limit : Z) : Paged MempoolTx :=
  page (filter (fun m => isSome (m_drop_reason m)) (mempool s)) offset limit.

Definition eventJson (e : Event) : json :=
  JObject [("event_index", JNumber (e_event_index e));
           ("event_type",
            JString match e_kind e with
                    | StxTransfer _ _ _ => "stx_asset"
                    | StxLock _ _ _ => "stx_lock"
                    | FtTransfer _ _ _ _ => "fungible_token_asset"
                    | NftTransfer _ _ _ => "non_fungible_token_asset"
                    | ContractLog _ => "smart_contract_log"
                    | SmartContractDeploy _ => "smart_contract_deploy"
                    end)].

Definition txJson (t : Tx) (evs : list Event) : json :=
  JObject [("tx_id", JString (t_tx_id t));
           ("tx_status",
            JString match t_status t with
                    | Success => "success" | Abort => "abort" | Failed => "failed"
                    end);
           ("sender_address", JString (t_sender t));
           ("fee_rate", JString (Js.toString (t_fee t)));
           ("nonce", JNumber (t_nonce t));
           ("canonical", JBool (t_canonical t));
           ("events", JArray (map eventJson evs))].

Definition mempoolTxJson (m : MempoolTx) : json :=
  JObject [("tx_id", JString (m_tx_id m));
           ("tx_status",
            JString match m_drop_reason m with
                    | None => "pending"
                    | Some _ => "dropped"
                    end);
           ("sender_address", JString (m_sender m));
           ("receipt_time", JNumber (m_receipt_time m))].

(** The events of a transaction, in the order of their index. *)
Fixpoint insertEvent (e : Event) (l : list Event) : list Event :=
  match l with
  | [] => [e]
  | e' :: rest =>
      if e_event_index e <=? e_event_index e' then e :: l else e' :: insertEvent e rest
  end.

Definition eventsOf (s : Store) (t : Tx) : list Event :=
  fold_right insertEvent []
    (filter (fun e => (e_tx_id e =? t_tx_id t)%string
                      && (e_index_hash e =? t_index_hash t)%string) (events s)).

(** The event sublist: [eventLimit] events from [eventOffset] on; all of
    them from the start when the window is left out. *)
Definition eventWindow (evs : list Event) (eventLimit eventOffset : option Z) : list Event :=
  let rest := skipn (Z.to_nat (match eventOffset with Some o => o | None => 0 end)) evs in
  match eventLimit with
  | Some l => firstn (Z.to_nat l) rest
  | None => rest
  end.

(** Modelled from the spec: [getTxFromDataStore] of section 6, found or not
    found, and the transaction with its paginated events. A transaction that
    is not mined canonically is looked for in the mempool. *)
Definition getTxFromDataStore (s : Store) (txId : string) (eventLimit eventOffset : option Z)
  : TxQuery :=
  match find (fun t => (t_tx_id t =? txId)%string && t_canonical t) (txs s) with
  | Some t => Found (txJson t (eventWindow (eventsOf s t) eventLimit eventOffset))
  | None =>
      match find (fun m => (m_tx_id m =? txId)%string) (mempool s) with
      | Some m => Found (mempoolTxJson m)
      | None => NotFound
      end
  end.

Definition rewardMatches (burnchainRecipient : option string) (r : DbBurnchainReward) : bool :=
  canonical r && optMatches burnchainRecipient (Some (reward_recipient r)).

(** Modelled from the spec: [getBurnchainRewards] of section 6; its answer is
    the list of rows alone. *)
Definition getBurnchainRewards (s : Store) (burnchainRecipient : option string)
           (offset limit : Z) : list DbBurnchainReward :=
  results (page (filter (rewardMatches burnchainRecipient) (rewards s)) offset limit).

(** Modelled from the spec: [getBurnchainRewardsTotal] of section 6. *)
Definition getBurnchainRewardsTotal (s : Store) (burnchainRecipient : string) : DbRewardsTotal :=
  {| total_reward_recipient := burnchainRecipient;
     total_reward_amount :=
       sumZ (map reward_amount
                 (filter (rewardMatches (Some burnchainRecipient)) (rewards s))) |}.

End ChainStore.

(** ** A concrete instance

    The chain-state store behind the handle, with stand-ins for the address
    codecs: enough to run the routes on sample requests. *)

Module Sample.

Import ChainStore.

Definition has0xPrefix (id : string) : bool :=
  match id with
  | String a (String b _) =>
      (Ascii.eqb a "0") && (Ascii.eqb b "x" || Ascii.eqb b "X")
  | _ => false
  end.

Definition isValidC32Address (a : string) : bool :=
  String.prefix "S" a && (5 <? Z.of_nat (String.length a)).

Definition isValidBitcoinAddress (a : string) : bool :=
  (String.prefix "1" a || String.prefix "3" a) && (25 <? Z.of_nat (String.length a)).

Definition tryConvertC32ToBtc (a : string) : option string :=
  if isValidC32Address a then Some ("1BTC" +++ a +++ a) else None.

Definition parseTxType (name : string) : result TxType :=
  if (name =? "token_transfer")%string then Ok TokenTransfer
  else if (name =? "smart_contract")%string then Ok SmartContract
  else if (name =? "contract_call")%string then Ok ContractCall
  else if (name =? "poison_microblock")%string then Ok PoisonMicroblock
  else if (name =? "coinbase")%string then Ok Coinbase
  else Err (Error ("Unexpected tx type string: " +++ name)).

Fixpoint stringify (j : json) : string :=
  match j with
  | JNull => "null"
  | JBool true => "true"
  | JBool false => "false"
  | JNumber n => Js.toString n
  | JString s => Js.dquote +++ s +++ Js.dquote
  | JArray items => "[" +++ String.concat "," (map stringify items) +++ "]"
  | JObject props =>
      "{" +++ String.concat ","
                (map (fun p => Js.dquote +++ fst p +++ Js.dquote +++ ":" +++ stringify (snd p))
                     props) +++ "}"
  end.

Definition validate (schemaPath : string) (data : json) : result unit := Ok tt.

Definition env : Env :=
  Build_Env Tx MempoolTx Block Event DropReason TxType t_tx_id
            has0xPrefix isValidC32Address isValidBitcoinAddress tryConvertC32ToBtc
            false
            (mapResult parseTxType) mempoolTxJson
            validate
            stringify.

(** The store as an implementation of the operations. The event emitter
    and the response stream are not part of the stored chain state. *)
Definition handle : @handler env Store :=
  fun X op s =>
    match op in Op X return result X * Store with
    | GetTxList offset limit txTypeFilter =>
        (Ok (getTxList s offset limit txTypeFilter), s)
    | GetMempoolTxList offset limit senderAddress recipientAddress address =>
        (getMempoolTxList s offset limit senderAddress recipientAddress address, s)
    | GetDroppedTxs offset limit => (Ok (getDroppedTxs s offset limit), s)
    | GetTxFromDataStore txId eventLimit eventOffset =>
        (Ok (getTxFromDataStore s txId eventLimit eventOffset), s)
    | GetBurnchainRewards burnchainRecipient offset limit =>
        (Ok (getBurnchainRewards s burnchainRecipient offset limit), s)
    | GetBurnchainRewardsTotal burnchainRecipient =>
        (Ok (getBurnchainRewardsTotal s burnchainRecipient), s)
    | AddListener _ | RemoveListener _ => (Ok tt, s)
    | AppendBlock block newTxs newEvents =>
        match appendBlock s block newTxs newEvents with
        | Ok s' => (Ok tt, s')
        | Err e => (Err e, s)
        end
    | AppendMempoolTx tx => (Ok tt, appendMempoolTx s tx)
    | PruneMempoolTx txId => (Ok tt, pruneMempoolTx s txId)
    | RestoreMempoolTx txId => (Ok tt, restoreMempoolTx s txId)
    | MarkDropped txId reason => (Ok tt, markDropped s txId reason)
    | ResWriteHead _ _ | ResWrite _ | ResFlush | AwaitClose | LogError _ _ => (Ok tt, s)
    end.

(** *** Sample rows and requests *)

Definition genesis : Block :=
  {| b_hash := "0xb1"; b_parent_hash := "0x00"; b_index_hash := "0xi1";
     b_parent_index_hash := "0xi0"; b_height := 1; b_burn_height := 100;
     b_burn_hash := "0xbb1"; b_miner_reward := 0; b_canonical := true |}.

Definition block2 : Block :=
  {| b_hash := "0xb2"; b_parent_hash := "0xb1"; b_index_hash := "0xi2";
     b_parent_index_hash := "0xi1"; b_height := 2; b_burn_height := 101;
     b_burn_hash := "0xbb2"; b_miner_reward := 0; b_canonical := true |}.

Definition alice : string := "SP2ALICE0000000000000000000000000000000".
Definition bob : string := "SP3BOB000000000000000000000000000000000".
Definition btcAddr : string := "1FhZPk5bMQzGzvMuuAVAt5EJSQ8wVVgTnC".

Definition tx1 : Tx :=
  {| t_tx_id := "0xt1"; t_index_hash := "0xi2"; t_status := Success; t_sender := alice;
     t_fee := 180; t_nonce := 0; t_type := TokenTransfer; t_payload := "";
     t_canonical := true; t_microblock_canonical := true |}.

Definition ev (i : Z) (k : EventKind) : Event :=
  {| e_tx_id := "0xt1"; e_index_hash := "0xi2"; e_event_index := i; e_kind := k;
     e_canonical := true |}.

Definition pendingTx : MempoolTx :=
  {| m_tx_id := "0xm1"; m_receipt_time := 1600000000; m_sender := bob;
     m_recipient := Some alice; m_pruned := false; m_drop_reason := None |}.

Definition droppedTx : MempoolTx :=
  {| m_tx_id := "0xm2"; m_receipt_time := 1600000001; m_sender := alice;
     m_recipient := None; m_pruned := true; m_drop_reason := Some TooExpensive |}.

Definition reward (h i amount : Z) : DbBurnchainReward :=
  {| canonical := true; burn_block_hash := "0xbb2"; burn_block_height := h;
     burn_amount := 0; reward_recipient := btcAddr; reward_amount := amount;
     reward_index := i |}.

Definition store : Store :=
  {| blocks := [genesis; block2];
     txs := [tx1];
     events := [ev 1 (StxTransfer alice bob 25); ev 0 (StxTransfer alice bob 50);
                ev 2 (ContractLog "c")];
     mempool := [pendingTx; droppedTx];
     rewards := [reward 101 0 2000; reward 101 1 3000];
     lookback := 16 |}.

Definition noQuery : Query :=
  {| q_limit := None; q_offset := None; q_type := None; q_protocol := None;
     q_event_limit := None; q_event_offset := None;
     q_sender_address := None; q_recipient_address := None; q_address := None |}.

Definition request (q : Query) (txId address : string) : Request :=
  {| query := q; params := {| p_tx_id := txId; p_address := address |} |}.

(** [?limit=..&offset=..] *)
Definition paged (limit offset : option string) : Query :=
  {| q_limit := option_map QString limit; q_offset := option_map QString offset;
     q_type := None; q_protocol := None;
     q_event_limit := None; q_event_offset := None;
     q_sender_address := None; q_recipient_address := None; q_address := None |}.

(** [?sender_address=..&recipient_address=..&address=..] *)
Definition filtered (sender recipient address : option string) : Query :=
  {| q_limit := None; q_offset := None; q_type := None; q_protocol := None;
     q_event_limit := None; q_event_offset := None;
     q_sender_address := sender; q_recipient_address := recipient; q_address := address |}.

(** [?event_limit=..&event_offset=..] *)
Definition eventPaged (limit offset : option string) : Query :=
  {| q_limit := None; q_offset := None; q_type := None; q_protocol := None;
     q_event_limit := option_map QString limit; q_event_offset := option_map QString offset;
     q_sender_address := None; q_recipient_address := None; q_address := None |}.

(** [GET /mempool?sender_address=bob&address=alice] *)
Definition conflicting : Request := request (filtered (Some bob) None (Some alice)) "" "".

(** [GET /mempool?sender_address=bob&recipient_address=alice] *)
Definition senderAndRecipient : Request := request (filtered (Some bob) (Some alice) None) "" "".

(** [GET /mempool?recipient_address=nobody] *)
Definition badRecipient : Request := request (filtered (Some bob) (Some "nobody") None) "" "".

(** [GET /t1] and [GET /0xt1?event_limit=2&event_offset=1] *)
Definition unprefixed : Request := request noQuery "t1" "".
Definition unknownTx : Request := request noQuery "0xffff" "".

(** [GET /rewards/:address] and [GET /rewards/:address/total], with blanks
    around the address as a percent-encoded path can carry them. *)
Definition forBitcoin : Request := request noQuery "" (" " +++ btcAddr +++ "  ").
Definition forStx : Request := request noQuery "" ("  " +++ alice).
Definition forNeither : Request := request noQuery "" " nonsense ".

(** [GET /rewards?limit=31], [GET /mempool/dropped?limit=201] and a request
    without parameters. *)
Definition tooManyRewards : Request := request (paged (Some "31") None) "" "".
Definition tooManyTxs : Request := request (paged (Some "201") (Some "0")) "" "".
Definition plain : Request := request noQuery "" "".

(** A block that extends the tip of the sample store, with one transaction
    that was pending. *)
Definition block3 : Block :=
  {| b_hash := "0xb3"; b_parent_hash := "0xb2"; b_index_hash := "0xi3";
     b_parent_index_hash := "0xi2"; b_height := 3; b_burn_height := 102;
     b_burn_hash := "0xbb3"; b_miner_reward := 0; b_canonical := false |}.

Definition tx3 : Tx :=
  {| t_tx_id := "0xm1"; t_index_hash := "0xi3"; t_status := Success; t_sender := bob;
     t_fee := 200; t_nonce := 0; t_type := TokenTransfer; t_payload := "";
     t_canonical := false; t_microblock_canonical := true |}.

Definition event3 : Event :=
  {| e_tx_id := "0xm1"; e_index_hash := "0xi3"; e_event_index := 0;
     e_kind := StxTransfer bob alice 40; e_canonical := false |}.

(** A competing block at the height of [block3], on the same parent. *)
Definition fork3 : Block :=
  {| b_hash := "0xc3"; b_parent_hash := "0xb2"; b_index_hash := "0xj3";
     b_parent_index_hash := "0xi2"; b_height := 3; b_burn_height := 102;
     b_burn_hash := "0xbb3"; b_miner_reward := 0; b_canonical := false |}.

(** The store after [block3], and after [fork3] on top of that. *)
Definition extended : result Store := appendBlock store block3 [tx3] [event3].

Definition reorganized : result Store :=
  match extended with
  | Ok s => appendBlock s fork3 [] []
  | Err e => Err e
  end.

(** The flags, the pending transactions and two balances of a store. *)
Definition summary (r : result Store) :=
  match r with
  | Ok s =>
      Some (canonicalFlags s, map m_tx_id (filter pending (mempool s)),
            balance s alice, balance s bob)
  | Err _ => None
  end.

End Sample.

(** ** What a handler can answer *)

Section Answering.

Context {env : Env}.

(** Every value that the program can return, whatever the answers it is
    given, is in [P]. *)
Inductive leaves {R : Type} (P : R -> Prop) : prog R -> Prop :=
| leaves_Ret r : P r -> leaves P (Ret r)
| leaves_Throw e : leaves P (Throw e)
| leaves_Call X (op : Op X) k : (forall x, leaves P (k x)) -> leaves P (Call op k).

(** A handler that returns a value of [early] when it returns without having
    awaited anything, and a value of [late] when it returns after an
    operation. *)
Inductive decides {R : Type} (early late : R -> Prop) : prog R -> Prop :=
| decides_Ret r : early r -> decides early late (Ret r)
| decides_Throw e : decides early late (Throw e)
| decides_Call X (op : Op X) k :
    (forall x, leaves late (k x)) -> decides early late (Call op k).

(** The responses by which a handler refuses a request, and those by which
    it answers one. *)
Definition refusal (r : Response) : Prop :=
  (exists msg, r = Json 400 (errorBody msg)) \/ (exists location, r = Redirect location).

Definition answer (r : Response) : Prop :=
  (exists body, r = Json 200 body) \/ (exists msg, r = Json 404 (errorBody msg)).

(** The request with another [address] path parameter. *)
Definition withAddress (req : Request) (address : string) : Request :=
  {| query := query req;
     params := {| p_tx_id := p_tx_id (params req); p_address := address |} |}.

(** An address filter with the empty value taken out. *)
Definition dropEmpty (o : option string) : option string :=
  match o with
  | Some a => if Js.truthy a then Some a else None
  | None => None
  end.

(** The request without its empty address filters. *)
Definition withoutEmptyFilters (req : Request) : Request :=
  let q := query req in
  {| query :=
       {| q_limit := q_limit q; q_offset := q_offset q; q_type := q_type q;
          q_protocol := q_protocol q; q_event_limit := q_event_limit q;
          q_event_offset := q_event_offset q;
          q_sender_address := dropEmpty (q_sender_address q);
          q_recipient_address := dropEmpty (q_recipient_address q);
          q_address := dropEmpty (q_address q) |};
     params := params req |}.

(** The error of the list route for a listed row that is not found. *)
Definition notFoundError : JsError :=
  Error "unexpected tx not found -- fix tx enumeration query".

(** The lookup that the list route makes for a row. *)
Definition lookupOf (tx : DbTx) : invoked :=
  existT _ _ (GetTxFromDataStore (tx_id tx) None None).

(** The four operations of a subscription that runs to its end. *)
Definition streamSession : list invoked :=
  [existT _ _ (ResWriteHead 200
                 [("Content-Type", "text/event-stream"); ("Cache-Control", "no-cache");
                  ("Connection", "keep-alive")]);
   existT _ _ (AddListener "txUpdate");
   existT _ _ AwaitClose;
   existT _ _ (RemoveListener "txUpdate")].

(** The chunks that a run wrote to the response. *)
Definition chunkOf (i : invoked) : list string :=
  match projT2 i with
  | ResWrite chunk => [chunk]
  | _ => []
  end.

Definition written (t : list invoked) : list string := flat_map chunkOf t.

(** The server-sent event of a transaction. *)
Definition txEvent (result : json) : string :=
  "event: tx" +++ String (ascii_of_nat 10) "data: " +++ JSON_stringify result
  +++ String (ascii_of_nat 10) (String (ascii_of_nat 10) "").

(** The lines that a run logged. *)
Definition lineOf (i : invoked) : list (string * JsError) :=
  match projT2 i with
  | LogError msg e => [(msg, e)]
  | _ => []
  end.

Definition logged (t : list invoked) : list (string * JsError) := flat_map lineOf t.

End Answering.

(** ** More of JavaScript's strings *)

Module JsString.

(** [s.endsWith(suffix)] *)
Fixpoint endsWith (s suffix : string) : bool :=
  (s =? suffix)%string
  || match s with
     | EmptyString => false
     | String _ s' => endsWith s' suffix
     end.

(** [s.slice(0, s.length - 1)] *)
Definition dropLast (s : string) : string :=
  String.substring 0 (String.length s - 1) s.

(** [s.search(/needle/) != -1] for a pattern of literal characters: the
    pattern occurs somewhere in [s]. *)
Fixpoint includes (needle s : string) : bool :=
  String.prefix needle s
  || match s with
     | EmptyString => false
     | String _ s' => includes needle s'
     end.

End JsString.

(** ** Rosetta request validation

    [rosettaValidateRequest], [validHexId] and [makeRosettaError], with the
    schema validator, the schema table and the error table of
    [rosetta-constants] as parameters. *)

Module Rosetta.

(** The members of [RosettaErrorsTypes] that the module names. *)
Inductive RosettaErrorsTypes :=
| invalidAccount
| invalidBlockchain
| invalidNetwork
| invalidBlockHash
| invalidTransactionHash
| emptyNetworkIdentifier
| emptyBlockchain
| emptyNetwork
| invalidBlockIdentifier
| invalidTransactionIdentifier
| invalidOperation
| invalidParams
| unknownError.

Definition eqType (a b : RosettaErrorsTypes) : bool :=
  match a, b with
  | invalidAccount, invalidAccount | invalidBlockchain, invalidBlockchain
  | invalidNetwork, invalidNetwork | invalidBlockHash, invalidBlockHash
  | invalidTransactionHash, invalidTransactionHash
  | emptyNetworkIdentifier, emptyNetworkIdentifier | emptyBlockchain, emptyBlockchain
  | emptyNetwork, emptyNetwork | invalidBlockIdentifier, invalidBlockIdentifier
  | invalidTransactionIdentifier, invalidTransactionIdentifier
  | invalidOperation, invalidOperation | invalidParams, invalidParams
  | unknownError, unknownError => true
  | _, _ => false
  end.

(** [ValidSchema] *)
Record ValidSchema := {
  vs_valid : bool;
  vs_error : option string;
  vs_errorType : option RosettaErrorsTypes
}.

Definition accepted : ValidSchema :=
  {| vs_valid := true; vs_error := None; vs_errorType := None |}.

Definition rejectedAs (t : RosettaErrorsTypes) : ValidSchema :=
  {| vs_valid := false; vs_error := None; vs_errorType := Some t |}.

(** [RosettaError], with its optional [details]. *)
Record RosettaError := {
  err_code : Z;
  err_message : string;
  err_retriable : bool;
  err_details : option json
}.

(** The identifiers that [validHexId] takes: a block identifier, a partial
    block identifier or a transaction identifier. A hash that is missing and a
    hash that is [undefined] are the same to it. *)
Record Identifier := {
  id_index : option Z;
  id_hash : option string
}.

Record NetworkIdentifier := {
  ni_blockchain : string;
  ni_network : string
}.

Record AccountIdentifier := {
  ai_address : string
}.

(** [RosettaRequestType]: the properties that the validation reads, each
    present or not, and the rest of the body. *)
Record RosettaRequest := {
  network_identifier : option NetworkIdentifier;
  block_identifier : option Identifier;
  transaction_identifier : option Identifier;
  account_identifier : option AccountIdentifier;
  rest : json
}.

Record SchemaFiles := {
  sf_request : string;
  sf_response : string
}.

(** A line of the log. *)
Inductive LogLine :=
| LogErrorLine (msg : string)
| LogWarnLine (msg : string).

(** The imports of the module that are defined elsewhere. *)
Class RosettaEnv := {
  Schema : Type;
  ChainID : Type;
  Buffer : Type;
  (* rosetta-constants *)
  RosettaSchemas : string -> option SchemaFiles;
  RosettaConstants_blockchain : string;
  getRosettaNetworkName : ChainID -> result string;
  (* helpers *)
  hexToBuffer : string -> result Buffer;
  (* validate, ajv and the platform *)
  dereferenceSchema : string -> result Schema;
  ajvValidate : Schema -> RosettaRequest -> result (bool * option (list json));
  require_resolve : string -> result string;
  stringifyIndented : json -> string
}.

(** The error table [RosettaErrors]: one shared object per type. *)
Definition Table : Type := RosettaErrorsTypes -> RosettaError.

Section Validation.

Context {env : Env} {renv : RosettaEnv}.

Definition newline : string := String (ascii_of_nat 10) EmptyString.

(** [errors[0].message]: a [TypeError] when there is no first error. *)
Definition firstMessage (errors : list json) : result (option string) :=
  match errors with
  | [] => Err (Error "Cannot read property 'message' of undefined")
  | e :: _ =>
      match prop "message" e with
      | Some (JString m) => Ok (Some m)
      | _ => Ok None
      end
  end.

(** [validate]: the log lines it writes and what it resolves to. *)
Definition validate (schemaFilePath : string) (data : RosettaRequest)
  : list LogLine * result ValidSchema :=
  match dereferenceSchema schemaFilePath with
  | Err e => ([], Err e)
  | Ok schemaDef =>
      match ajvValidate schemaDef data with
      | Err e => ([], Err e)
      | Ok (valid, ajvErrors) =>
          if negb valid then
            let line :=
              LogErrorLine ("Schema validation:" +++ newline +++ newline +++ " "
                            +++ stringifyIndented
                                  match ajvErrors with
                                  | Some l => JArray l
                                  | None => JNull
                                  end) in
            let errors :=
              match ajvErrors with
              | Some l => l
              | None => [JObject [("message", JString "error")]]
              end in
            match firstMessage errors with
            | Err e => ([line], Err e)
            | Ok m =>
                ([line], Ok {| vs_valid := false; vs_error := m; vs_errorType := None |})
            end
          else ([], Ok accepted)
      end
  end.

(** [validHexId] *)
Definition validHexId (identifier : option Identifier) : bool :=
  match identifier with
  | None => true
  | Some identifier =>
      match id_hash identifier with
      | None => true
      | Some hash =>
          if negb (has0xPrefix hash) then
            match hexToBuffer ("0x" +++ hash) with
            | Ok _ => true
            | Err _ => false
            end
          else true
      end
  end.

(** The two checks of a [network_identifier]: a rejection, or none. *)
Definition networkChecks (ni : NetworkIdentifier) (chainId : ChainID)
  : result (option ValidSchema) :=
  if negb (RosettaConstants_blockchain =? ni_blockchain ni)%string
  then Ok (Some (rejectedAs invalidBlockchain))
  else
    match getRosettaNetworkName chainId with
    | Err e => Err e
    | Ok name =>
        if negb (name =? ni_network ni)%string
        then Ok (Some (rejectedAs invalidNetwork))
        else Ok None
    end.

(** The checks of [rosettaValidateRequest] that follow the schema. *)
Definition otherChecks (body : RosettaRequest) (chainId : ChainID) : result ValidSchema :=
  match
    match network_identifier body with
    | Some ni => networkChecks ni chainId
    | None => Ok None
    end
  with
  | Err e => Err e
  | Ok (Some rejection) => Ok rejection
  | Ok None =>
      if isSome (block_identifier body) && negb (validHexId (block_identifier body))
      then Ok (rejectedAs invalidBlockHash)
      else if isSome (transaction_identifier body)
              && negb (validHexId (transaction_identifier body))
      then Ok (rejectedAs invalidTransactionHash)
      else
        match account_identifier body with
        | Some ai =>
            if negb (isValidC32Address (ai_address ai))
            then Ok (rejectedAs invalidAccount)
            else Ok accepted
        | None => Ok accepted
        end
  end.

(** [rosettaValidateRequest] *)
Definition rosettaValidateRequest (url : string) (body : RosettaRequest) (chainId : ChainID)
  : list LogLine * result ValidSchema :=
  let url := if JsString.endsWith url "/" then JsString.dropLast url else url in
  match RosettaSchemas url with
  | None =>
      ([LogWarnLine ("Schema validation:" +++ newline +++ newline
                     +++ " unknown endpoint: " +++ url)],
       Ok accepted)
  | Some schemas =>
      match require_resolve (sf_request schemas) with
      | Err e => ([], Err e)
      | Ok path =>
          match validate path body with
          | (log, Err e) => (log, Err e)
          | (log, Ok valid) =>
              if negb (vs_valid valid) then (log, Ok valid)
              else (log, otherChecks body chainId)
          end
      end
  end.

(** The object of the table with [details] assigned: the assignment is to
    the shared object, so the table has it from then on. *)
Definition setDetails (t : RosettaErrorsTypes) (details : json) (RosettaErrors : Table)
  : Table :=
  fun t' =>
    if eqType t' t
    then {| err_code := err_code (RosettaErrors t');
            err_message := err_message (RosettaErrors t');
            err_retriable := err_retriable (RosettaErrors t');
            err_details := Some details |}
    else RosettaErrors t'.

(** The patterns that [makeRosettaError] looks for in the message of the
    schema validation, in the order of its [if] chain, each with the error it
    selects. *)
Definition patterns : list (string * RosettaErrorsTypes) :=
  [("network_identifier", emptyNetworkIdentifier);
   ("blockchain", emptyBlockchain);
   ("network", emptyNetwork);
   ("block_identifier", invalidBlockIdentifier);
   ("transaction_identifier", invalidTransactionIdentifier);
   ("operations", invalidOperation);
   ("should have required property", invalidParams)].

(** [makeRosettaError]: the error it returns, and the table after it. [resp]
    is a reference to an object of the table throughout. *)
Definition makeRosettaError (notValid : ValidSchema) (RosettaErrors : Table)
  : RosettaError * Table :=
  let resp :=
    match vs_errorType notValid with
    | Some t => t
    | None => unknownError
    end in
  let error :=
    match vs_error notValid with
    | Some e => if Js.truthy e then e else ""
    | None => ""
    end in
  let assign t :=
    let table := setDetails t (JObject [("message", JString error)]) RosettaErrors in
    (table t, table) in
  if JsString.includes "network_identifier" error then assign emptyNetworkIdentifier
  else if JsString.includes "blockchain" error then assign emptyBlockchain
  else if JsString.includes "network" error then assign emptyNetwork
  else if JsString.includes "block_identifier" error then assign invalidBlockIdentifier
  else if JsString.includes "transaction_identifier" error
  then assign invalidTransactionIdentifier
  else if JsString.includes "operations" error then assign invalidOperation
  else if JsString.includes "should have required property" error then assign invalidParams
  else (RosettaErrors resp, RosettaErrors).

(** The first pattern of a list that occurs in a message. *)
Fixpoint firstPattern (ps : list (string * RosettaErrorsTypes)) (error : string)
  : option RosettaErrorsTypes :=
  match ps with
  | [] => None
  | (p, t) :: rest => if JsString.includes p error then Some t else firstPattern rest error
  end.

(** The message that [makeRosettaError] searches: [notValid.error || ''] *)
Definition messageOf (notValid : ValidSchema) : string :=
  match vs_error notValid with
  | Some e => if Js.truthy e then e else ""
  | None => ""
  end.

(** The table after the errors of a series of validation results have been
    made, one after the other. *)
Definition after (history : list ValidSchema) (RosettaErrors : Table) : Table :=
  fold_left (fun table notValid => snd (makeRosettaError notValid table)) history
            RosettaErrors.

(** The url that is looked up in the schema table. *)
Definition endpointOf (url : string) : string :=
  if JsString.endsWith url "/" then JsString.dropLast url else url.

(** The request passes the checks that follow the schema. *)
Definition passes (body : RosettaRequest) (chainId : ChainID) : Prop :=
  (forall ni, network_identifier body = Some ni ->
     RosettaConstants_blockchain = ni_blockchain ni
     /\ getRosettaNetworkName chainId = Ok (ni_network ni))
  /\ validHexId (block_identifier body) = true
  /\ validHexId (transaction_identifier body) = true
  /\ (forall ai, account_identifier body = Some ai ->
        isValidC32Address (ai_address ai) = true).

(** The schema of the endpoint accepts the body. *)
Definition schemaAccepts (url : string) (body : RosettaRequest) : Prop :=
  exists schemas path schemaDef ajvErrors,
    RosettaSchemas (endpointOf url) = Some schemas
    /\ require_resolve (sf_request schemas) = Ok path
    /\ dereferenceSchema path = Ok schemaDef
    /\ ajvValidate schemaDef body = Ok (true, ajvErrors).

End Validation.

End Rosetta.

(** A concrete instance for the validation: a schema table with two
    endpoints, a schema check that asks for a [network_identifier], and an
    error table. *)
Module RosettaSample.

Import Rosetta.

Definition isHexDigit (c : ascii) : bool :=
  let n := Z.of_N (N_of_ascii c) in
  ((48 <=? n) && (n <=? 57)) || ((97 <=? n) && (n <=? 102)) || ((65 <=? n) && (n <=? 70)).

Fixpoint allHex (s : string) : bool :=
  match s with
  | EmptyString => true
  | String c s' => isHexDigit c && allHex s'
  end.

Definition hexToBuffer (hex : string) : result string :=
  match hex with
  | String _ (String _ digits) =>
      if allHex digits && Nat.even (String.length digits) then Ok digits
      else Err (Error ("Hex string is invalid: " +++ hex))
  | _ => Err (Error ("Hex string is invalid: " +++ hex))
  end.

Definition schemas (url : string) : option SchemaFiles :=
  if (url =? "/network/status")%string
  then Some {| sf_request := "rosetta-network-request.schema.json";
               sf_response := "rosetta-network-status-response.schema.json" |}
  else if (url =? "/block")%string
  then Some {| sf_request := "rosetta-block-request.schema.json";
               sf_response := "rosetta-block-response.schema.json" |}
  else None.

Definition ajv (schemaDef : string) (data : RosettaRequest)
  : result (bool * option (list json)) :=
  match network_identifier data with
  | Some _ => Ok (true, None)
  | None =>
      Ok (false,
          Some [JObject [("keyword", JString "required");
                         ("message",
                          JString "should have required property 'network_identifier'")]])
  end.

Definition renv : RosettaEnv :=
  Build_RosettaEnv string bool string
    schemas "stacks"
    (fun mainnet : bool => Ok (if mainnet then "mainnet" else "testnet"))
    hexToBuffer
    (fun path => Ok path) ajv (fun path => Ok path) Sample.stringify.

Definition table : Table :=
  fun t =>
    {| err_code :=
         match t with
         | invalidAccount => 601 | invalidBlockchain => 611 | invalidNetwork => 612
         | invalidBlockHash => 606 | invalidTransactionHash => 608
         | emptyNetworkIdentifier => 613 | emptyBlockchain => 614 | emptyNetwork => 615
         | invalidBlockIdentifier => 618 | invalidTransactionIdentifier => 619
         | invalidOperation => 622 | invalidParams => 623 | unknownError => 699
         end;
       err_message := "";
       err_retriable := false;
       err_details := None |}.

Definition stacks (network : string) : NetworkIdentifier :=
  {| ni_blockchain := "stacks"; ni_network := network |}.

Definition blockRequest (ni : option NetworkIdentifier) (hash : option string)
  : RosettaRequest :=
  {| network_identifier := ni;
     block_identifier := Some {| id_index := None; id_hash := hash |};
     transaction_identifier := None;
     account_identifier := None;
     rest := JObject [] |}.

Definition schemaFailure : ValidSchema :=
  {| vs_valid := false;
     vs_error := Some "should have required property 'network_identifier'";
     vs_errorType := None |}.

End RosettaSample.

(** Further instances: a store that lists transactions but finds none, and
    an environment outside production whose schema validation fails. *)
Module MoreSamples.

Import ChainStore.

Definition forgetful : @handler Sample.env Store :=
  fun X op s =>
    match op in Op X' return result X' * Store with
    | GetTxFromDataStore _ _ _ => (Ok NotFound, s)
    | op' => Sample.handle _ op' s
    end.

Definition schemaError : JsError := Error "Schema validation failed".

Definition strictEnv : Env :=
  Build_Env Tx MempoolTx Block Event DropReason TxType t_tx_id
            Sample.has0xPrefix Sample.isValidC32Address Sample.isValidBitcoinAddress
            Sample.tryConvertC32ToBtc
            false
            (mapResult Sample.parseTxType) mempoolTxJson
            (fun _ _ => Err schemaError)
            Sample.stringify.

(** A store of one listed transaction, without state. *)
Definition fixed : @handler strictEnv unit :=
  fun X op s =>
    match op in Op X' return result X' * unit with
    | GetTxList _ _ _ => (Ok {| results := [Sample.tx1]; total := 1 |}, s)
    | GetMempoolTxList _ _ _ _ _ => (Ok {| results := []; total := 0 |}, s)
    | GetDroppedTxs _ _ => (Ok {| results := []; total := 0 |}, s)
    | GetTxFromDataStore txId _ _ => (Ok (Found (JString txId)), s)
    | GetBurnchainRewards _ _ _ => (Ok [], s)
    | GetBurnchainRewardsTotal recipient =>
        (Ok {| total_reward_recipient := recipient; total_reward_amount := 0 |}, s)
    | _ => (Ok tt, s)
    end.

(** [GET /stream?protocol=..] *)
Definition subscribe (protocol : option string) : Request :=
  Sample.request
    {| q_limit := None; q_offset := None; q_type := None;
       q_protocol := option_map QString protocol;
       q_event_limit := None; q_event_offset := None;
       q_sender_address := None; q_recipient_address := None; q_address := None |}
    "" "".

(** [GET /t1?event_limit=201] and [GET /mempool?sender_address=] *)
Definition unprefixedTooManyEvents : Request :=
  Sample.request (Sample.eventPaged (Some "201") None) "t1" "".

Definition emptySender : Request :=
  Sample.request (Sample.filtered (Some "") None None) "" "".

End MoreSamples.

(** ** Vocabulary of the statements *)

Section Vocabulary.

Context {env : Env}.

(** A parameter counts as supplied when it is present and not empty: the
    mempool handler takes an empty value for an absent one ([!addr]). *)
Definition supplied (o : option string) : bool :=
  match o with
  | Some a => Js.truthy a
  | None => false
  end.

(** The filter that a parameter stands for: none when it is not supplied. *)
Definition filterOf (o : option string) : option string :=
  if supplied o then o else None.

(** A supplied parameter that is not a valid STX address. *)
Definition invalidAddress (o : option string) : bool :=
  match o with
  | Some a => Js.truthy a && negb (isValidC32Address a)
  | None => false
  end.

(** The message that names the parameter [p] and its value. *)
Definition invalidParameterMessage (p addr : string) : string :=
  "Invalid query parameter for " +++ Js.dquote +++ p +++ Js.dquote
  +++ ": " +++ Js.dquote +++ addr +++ Js.dquote +++ " is not a valid STX address".

Definition exclusiveFilterMessage : string :=
  "The " +++ Js.dquote +++ "address" +++ Js.dquote
  +++ " filter cannot be specified with other address filters".

(** A client input error: a response with status 400, or a thrown client
    input error. *)
Definition clientError (o : outcome Response) : Prop :=
  match o with
  | Returned (Json status _) => status = 400
  | Returned (Redirect _) => False
  | Thrown e => kind e = ClientInput
  end.

(** The paging parameters [limit] and [offset] of a transaction list parse. *)
Definition txPaging (req : Request) (limit offset : Z) : Prop :=
  parseTxQueryLimit (orDefault (q_limit (query req)) 96) = Ok limit
  /\ parsePagingQueryInput (orDefault (q_offset (query req)) 0) = Ok offset.

(** The paging parameters of a reward list parse. *)
Definition blockPaging (req : Request) (limit offset : Z) : Prop :=
  parseBlockQueryLimit (orDefault (q_limit (query req)) 20) = Ok limit
  /\ parsePagingQueryInput (orDefault (q_offset (query req)) 0) = Ok offset.


(** The store answers [x] to [op] in state [s] and stays as it is. *)
Definition answers {S X : Type} (h : handler S) (s : S) (op : Op X) (x : X) : Prop :=
  h X op s = (Ok x, s).

(** The endpoints that take a limit: the five lists and the event list of a
    single transaction. *)
Inductive Endpoint :=
| TxList | MempoolTxList | DroppedTxs | TxEvents | Rewards | RewardsForAddress.

Definition endpointRoute (ep : Endpoint) : Request -> prog Response :=
  match ep with
  | TxList => getTxListRoute
  | MempoolTxList => getMempoolTxListRoute
  | DroppedTxs => getDroppedTxsRoute
  | TxEvents => getTxRoute
  | Rewards => getRewardsRoute
  | RewardsForAddress => getRewardsForAddressRoute
  end.

(** The query parameter that carries the limit of an endpoint. *)
Definition limitParam (ep : Endpoint) (q : Query) : option qvalue :=
  match ep with
  | TxEvents => q_event_limit q
  | _ => q_limit q
  end.

(** The maxima as the specification declares them: 200 for the transaction,
    mempool, dropped-transaction and per-transaction event lists, 30 for the
    burnchain reward lists. *)
Definition declaredMaximum (ep : Endpoint) : Z :=
  match ep with
  | Rewards | RewardsForAddress => 30
  | _ => 200
  end.

(** The limits of the handlers when the parameter is left out. *)
Definition defaultLimit (ep : Endpoint) : Z :=
  match ep with
  | Rewards | RewardsForAddress => 20
  | _ => 96
  end.

Definition limitMessage (ep : Endpoint) : string :=
  match ep with
  | TxEvents => "`event_limit` must be equal to or less than 200"
  | Rewards | RewardsForAddress => "`limit` must be equal to or less than 30"
  | _ => "`limit` must be equal to or less than 200"
  end.

(** The request is acceptable to the endpoint in everything but its limit:
    the checks that the handler makes between the limit and its query
    pass. These are the offset everywhere, and besides it the [type] filter
    of the transaction list, the address parameters of the mempool list, the
    [0x] prefix of the id of a transaction, and the address of the rewards
    of an address. *)
Definition otherwiseAcceptable (ep : Endpoint) (req : Request) : Prop :=
  let q := query req in
  let parses (v : any) := exists n, parsePagingQueryInput v = Ok n in
  match ep with
  | TxList =>
      parses (orDefault (q_offset q) 0)
      /\ exists txTypeFilter, txTypeFilterOf (q_type q) = Ok txTypeFilter
  | MempoolTxList =>
      parses (orDefault (q_offset q) 0)
      /\ invalidAddress (q_sender_address q) = false
      /\ invalidAddress (q_recipient_address q) = false
      /\ invalidAddress (q_address q) = false
      /\ supplied (q_address q)
         && (supplied (q_recipient_address q) || supplied (q_sender_address q)) = false
  | DroppedTxs => parses (orDefault (q_offset q) 0)
  | TxEvents =>
      has0xPrefix (p_tx_id (params req)) = true
      /\ parses (orDefault (q_event_offset q) 0)
  | Rewards => parses (orDefault (q_offset q) 0)
  | RewardsForAddress =>
      parses (orDefault (q_offset q) 0)
      /\ exists burnchainAddress,
           burnchainAddressOf (Js.trim (p_address (params req))) = Some burnchainAddress
           /\ burnchainAddress <> ""
  end.

(** The limit that an operation on the store carries. *)
Definition limitOf {X : Type} (op : Op X) : option Z :=
  match op with
  | GetTxList _ limit _ => Some limit
  | GetMempoolTxList _ limit _ _ _ => Some limit
  | GetDroppedTxs _ limit => Some limit
  | GetTxFromDataStore _ eventLimit _ => eventLimit
  | GetBurnchainRewards _ _ limit => Some limit
  | _ => None
  end.

(** The query routes of the two routers: the endpoints above and the reward
    total. *)
Inductive QueryRoute :=
| Listing (ep : Endpoint)
| RewardsTotal.

Definition queryRoute (qr : QueryRoute) : Request -> prog Response :=
  match qr with
  | Listing ep => endpointRoute ep
  | RewardsTotal => getRewardsTotalRoute
  end.

(** The operations that read, and those that do not write. *)
Definition reading : forall X, Op X -> Prop := fun X op => isRead op = true.

Definition notWriting : forall X, Op X -> Prop := fun X op => isMutation op = false.

End Vocabulary.

(** * Properties *)

(** ** JavaScript values and the paging parsers on samples *)

Example trim_blanks :
  Js.trim (String (ascii_of_nat 9) "  1Fh ZPk " +++ String (ascii_of_nat 10) "")
  = "1Fh ZPk".
Proof. reflexivity. Qed.

Example trim_only_blanks : Js.trim "   " = "".
Proof. reflexivity. Qed.

Example toString_samples :
  (Js.toString 0, Js.toString 200, Js.toString (-15), Js.toString 12345678901234567890)
  = ("0", "200", "-15", "12345678901234567890").
Proof. reflexivity. Qed.

Example parsePagingQueryInput_samples :
  parsePagingQueryInput (AQuery (QString "10")) = Ok 10
  /\ parsePagingQueryInput (AQuery (QString "007")) = Ok 7
  /\ parsePagingQueryInput (AQuery (QString "")) = Err pagingError
  /\ parsePagingQueryInput (AQuery (QString "-1")) = Err pagingError
  /\ parsePagingQueryInput (AQuery (QString "1e3")) = Err pagingError
  /\ parsePagingQueryInput (AQuery (QArray ["1"; "2"])) = Err pagingError
  /\ parsePagingQueryInput (ANumber 96) = Ok 96.
Proof. repeat split; reflexivity. Qed.

Example parseLimitQuery_samples :
  parseLimitQuery 200 "too many" (AQuery (QString "200")) = Ok 200
  /\ parseLimitQuery 200 "too many" (AQuery (QString "201"))
     = Err {| kind := ClientInput; message := "too many" |}.
Proof. split; reflexivity. Qed.

(** ** Running programs *)

Section ExecLemmas.

Context {env : Env}.

(** The outcome of [p] decides how [bind p f] goes on. *)
Lemma exec_bind {A B S : Type} (h : handler S) (p : prog A) (f : A -> prog B) (s : S) :
  exec h (bind p f) s =
  match output (exec h p s) with
  | Returned a =>
      let r := exec h (f a) (final (exec h p s)) in
      {| output := output r; final := final r; trace := trace (exec h p s) ++ trace r |}
  | Thrown e =>
      {| output := Thrown e; final := final (exec h p s); trace := trace (exec h p s) |}
  end.
Proof.
  revert s. induction p as [a | e | X op k IH]; intros s; simpl.
  - destruct (exec h (f a) s); reflexivity.
  - reflexivity.
  - destruct (h X op s) as [x s']. simpl. rewrite IH.
    destruct (output (exec h (k x) s')); reflexivity.
Qed.

Lemma exec_call {X S : Type} (h : handler S) (op : Op X) (s : S) :
  exec h (call op) s =
  {| output := match fst (h X op s) with Ok x => Returned x | Err e => Thrown e end;
     final := snd (h X op s);
     trace := [existT _ X op] |}.
Proof.
  unfold call. simpl. destruct (h X op s) as [[x | e] s']; reflexivity.
Qed.

Lemma uses_bind P {A B : Type} (p : prog A) (f : A -> prog B) :
  uses P p -> (forall a, uses P (f a)) -> uses P (bind p f).
Proof.
  intros Hp Hf. induction Hp; simpl; auto using uses_Throw, uses_Call.
Qed.

Lemma uses_catch P {A : Type} (p : prog A) (g : JsError -> prog A) :
  uses P p -> (forall e, uses P (g e)) -> uses P (catch p g).
Proof.
  intros Hp Hg. induction Hp; simpl; auto using uses_Ret, uses_Call.
Qed.

Lemma uses_lift P {A : Type} (r : result A) : uses P (lift r).
Proof. destruct r; constructor. Qed.

Lemma uses_call P {X : Type} (op : Op X) : P X op -> uses P (call op).
Proof. intros H. apply uses_Call; [exact H | intros x; apply uses_lift]. Qed.

Lemma uses_mapSeries P {A B : Type} (l : list A) (f : A -> prog B) :
  (forall a, uses P (f a)) -> uses P (mapSeries l f).
Proof.
  intros Hf. induction l as [| a l IH]; simpl.
  - constructor.
  - apply uses_bind; [apply Hf | intros b].
    apply uses_bind; [exact IH | intros bs; constructor].
Qed.

(** Every operation of a run of such a program is in [P]. *)
Lemma uses_trace P {R S : Type} (h : handler S) (p : prog R) (s : S) :
  uses P p -> Forall (fun i => P (projT1 i) (projT2 i)) (trace (exec h p s)).
Proof.
  intros Hp. revert s. induction Hp as [r | e | X op k Hop Hk IH]; intros s; simpl.
  - constructor.
  - constructor.
  - destruct (h X op s) as [x s']. simpl. constructor; [exact Hop | apply IH].
Qed.

(** Frame: when the operations of [P] keep a view [chain] of the state, so
    does a run of a program that uses only them. *)
Lemma uses_frame P {R S C : Type} (chain : S -> C) (h : handler S) (p : prog R) :
  (forall X (op : Op X) s, P X op -> chain (snd (h X op s)) = chain s) ->
  uses P p -> forall s, chain (final (exec h p s)) = chain s.
Proof.
  intros Hh Hp. induction Hp as [r | e | X op k Hop Hk IH]; intros s; simpl.
  - reflexivity.
  - reflexivity.
  - specialize (Hh X op s Hop). destruct (h X op s) as [x s']. simpl in *.
    rewrite IH. exact Hh.
Qed.

Lemma trace_call_then {X R S : Type} (h : handler S) (op : Op X) (k : X -> R) (s : S) :
  trace (exec h (x <- call op ;; Ret (k x)) s) = [existT _ X op].
Proof.
  rewrite exec_bind, exec_call. simpl.
  destruct (h X op s) as [[x | e] s']; reflexivity.
Qed.

Lemma output_call_then {X R S : Type} (h : handler S) (op : Op X) (k : X -> R) (s : S) (x : X) :
  fst (h X op s) = Ok x ->
  output (exec h (y <- call op ;; Ret (k y)) s) = Returned (k x).
Proof.
  intros E. rewrite exec_bind, exec_call. simpl.
  destruct (h X op s) as [[x' | e] s']; simpl in *; inversion E; reflexivity.
Qed.

End ExecLemmas.

(** ** Pagination *)

Lemma parsePagingQueryInput_Err (val : any) (e : JsError) :
  parsePagingQueryInput val = Err e -> kind e = ClientInput.
Proof.
  unfold parsePagingQueryInput. intros H.
  destruct val as [n | [s | l | o]].
  - destruct (0 <=? n); inversion H; reflexivity.
  - destruct (NilZero.uint_of_string s); inversion H; reflexivity.
  - inversion H; reflexivity.
  - inversion H; reflexivity.
Qed.

Lemma parseLimitQuery_Err (maxItems : Z) (msg : string) (val : any) (e : JsError) :
  parseLimitQuery maxItems msg val = Err e -> kind e = ClientInput.
Proof.
  unfold parseLimitQuery. intros H.
  destruct (parsePagingQueryInput val) as [n | e'] eqn:Hp.
  - destruct (maxItems <? n); inversion H; reflexivity.
  - inversion H; subst. eapply parsePagingQueryInput_Err; eassumption.
Qed.

Lemma parseLimitQuery_above (maxItems : Z) (msg : string) (val : any) (n : Z) :
  parsePagingQueryInput val = Ok n -> maxItems < n ->
  parseLimitQuery maxItems msg val = Err {| kind := ClientInput; message := msg |}.
Proof.
  unfold parseLimitQuery. intros -> Hn.
  destruct (Z.ltb_spec maxItems n); [reflexivity | lia].
Qed.

(** ** The transaction routes *)

Section TxRouterProperties.

Context {env : Env}.

Lemma addrParam_cases (req : Request) (p : string) :
  (invalidAddress (addr_param (query req) p) = true
   /\ exists a, addr_param (query req) p = Some a
                /\ addrParam req p = Err (Error (invalidParameterMessage p a)))
  \/ (invalidAddress (addr_param (query req) p) = false
      /\ addrParam req p = Ok (filterOf (addr_param (query req) p))).
Proof.
  unfold addrParam, invalidAddress, filterOf, supplied.
  destruct (addr_param (query req) p) as [a |]; [| right; auto].
  destruct (Js.truthy a); simpl; [| right; auto].
  destruct (isValidC32Address a); simpl; [right; auto |].
  left. split; [reflexivity | exists a; auto].
Qed.

Lemma isSome_filterOf (o : option string) : isSome (filterOf o) = supplied o.
Proof.
  unfold filterOf. destruct (supplied o) eqn:E; [| reflexivity].
  destruct o; [reflexivity | discriminate].
Qed.

(** The address parameters of a mempool request, as the handler's [map]
    leaves them: the first invalid one is reported, otherwise the three
    filters. *)
Lemma mempool_addrParams (req : Request) :
  let q := query req in
  mapResult (addrParam req) ["sender_address"; "recipient_address"; "address"] =
  if invalidAddress (q_sender_address q) then
    match q_sender_address q with
    | Some a => Err (Error (invalidParameterMessage "sender_address" a))
    | None => Ok []
    end
  else if invalidAddress (q_recipient_address q) then
    match q_recipient_address q with
    | Some a => Err (Error (invalidParameterMessage "recipient_address" a))
    | None => Ok []
    end
  else if invalidAddress (q_address q) then
    match q_address q with
    | Some a => Err (Error (invalidParameterMessage "address" a))
    | None => Ok []
    end
  else Ok [filterOf (q_sender_address q); filterOf (q_recipient_address q);
           filterOf (q_address q)].
Proof.
  intros q. subst q.
  pose proof (addrParam_cases req "sender_address") as C1.
  pose proof (addrParam_cases req "recipient_address") as C2.
  pose proof (addrParam_cases req "address") as C3.
  change (addr_param (query req) "sender_address")
    with (q_sender_address (query req)) in C1.
  change (addr_param (query req) "recipient_address")
    with (q_recipient_address (query req)) in C2.
  change (addr_param (query req) "address") with (q_address (query req)) in C3.
  cbn [mapResult].
  destruct C1 as [[H1 [a1 [E1 R1]]] | [H1 R1]]; rewrite H1, R1; [rewrite E1; reflexivity |].
  destruct C2 as [[H2 [a2 [E2 R2]]] | [H2 R2]]; rewrite H2, R2; [rewrite E2; reflexivity |].
  destruct C3 as [[H3 [a3 [E3 R3]]] | [H3 R3]]; rewrite H3, R3; [rewrite E3; reflexivity |].
  reflexivity.
Qed.

(** The two paging parsers in front of a handler body. *)
Lemma paged_prefix {R : Type} (pl po : result Z) (k : Z -> Z -> prog R) :
  (limit <- lift pl ;; offset <- lift po ;; k limit offset) =
  match pl, po with
  | Ok limit, Ok offset => k limit offset
  | Ok _, Err e => Throw e
  | Err e, _ => Throw e
  end.
Proof. destruct pl, po; reflexivity. Qed.

Lemma mempool_route_unfold (req : Request) (limit offset : Z) :
  txPaging req limit offset ->
  getMempoolTxListRoute req =
  match mapResult (addrParam req) ["sender_address"; "recipient_address"; "address"] with
  | Err error => Ret (Json 400 (errorBody (errorToString error)))
  | Ok addrParams =>
      let senderAddress := nth 0 addrParams None in
      let recipientAddress := nth 1 addrParams None in
      let address := nth 2 addrParams None in
      if isSome address && (isSome recipientAddress || isSome senderAddress) then
        Ret (Json 400 (errorBody exclusiveFilterMessage))
      else
        page <- call (GetMempoolTxList offset limit senderAddress recipientAddress address) ;;
        Ret (Json 200 (listResponse limit offset (total page)
                         (map parseDbMempoolTx (results page))))
  end.
Proof.
  intros [Hl Ho]. unfold getMempoolTxListRoute. rewrite paged_prefix, Hl, Ho. reflexivity.
Qed.

(** An invalid [sender_address] is reported first, an invalid
    [recipient_address] next, an invalid [address] last. *)
Lemma mempool_route_invalid_sender (req : Request) (limit offset : Z) (a : string) :
  txPaging req limit offset ->
  q_sender_address (query req) = Some a ->
  invalidAddress (Some a) = true ->
  getMempoolTxListRoute req =
  Ret (Json 400 (errorBody ("Error: " +++ invalidParameterMessage "sender_address" a))).
Proof.
  intros Hp Ha Hi. rewrite (mempool_route_unfold _ _ _ Hp), mempool_addrParams.
  cbv zeta. rewrite Ha, Hi. reflexivity.
Qed.

Lemma mempool_route_invalid_recipient (req : Request) (limit offset : Z) (a : string) :
  txPaging req limit offset ->
  invalidAddress (q_sender_address (query req)) = false ->
  q_recipient_address (query req) = Some a ->
  invalidAddress (Some a) = true ->
  getMempoolTxListRoute req =
  Ret (Json 400 (errorBody ("Error: " +++ invalidParameterMessage "recipient_address" a))).
Proof.
  intros Hp Hs Ha Hi. rewrite (mempool_route_unfold _ _ _ Hp), mempool_addrParams.
  cbv zeta. rewrite Hs, Ha, Hi. reflexivity.
Qed.

Lemma mempool_route_invalid_address (req : Request) (limit offset : Z) (a : string) :
  txPaging req limit offset ->
  invalidAddress (q_sender_address (query req)) = false ->
  invalidAddress (q_recipient_address (query req)) = false ->
  q_address (query req) = Some a ->
  invalidAddress (Some a) = true ->
  getMempoolTxListRoute req =
  Ret (Json 400 (errorBody ("Error: " +++ invalidParameterMessage "address" a))).
Proof.
  intros Hp Hs Hr Ha Hi. rewrite (mempool_route_unfold _ _ _ Hp), mempool_addrParams.
  cbv zeta. rewrite Hs, Hr, Ha, Hi. reflexivity.
Qed.

(** With valid parameters the handler tests the combination and queries. *)
Lemma mempool_route_valid (req : Request) (limit offset : Z) :
  txPaging req limit offset ->
  invalidAddress (q_sender_address (query req)) = false ->
  invalidAddress (q_recipient_address (query req)) = false ->
  invalidAddress (q_address (query req)) = false ->
  getMempoolTxListRoute req =
  if supplied (q_address (query req))
     && (supplied (q_recipient_address (query req))
         || supplied (q_sender_address (query req)))
  then Ret (Json 400 (errorBody exclusiveFilterMessage))
  else
    page <- call (GetMempoolTxList offset limit
                    (filterOf (q_sender_address (query req)))
                    (filterOf (q_recipient_address (query req)))
                    (filterOf (q_address (query req)))) ;;
    Ret (Json 200 (listResponse limit offset (total page)
                     (map parseDbMempoolTx (results page)))).
Proof.
  intros Hp Hs Hr Ha. rewrite (mempool_route_unfold _ _ _ Hp), mempool_addrParams.
  cbv zeta. rewrite Hs, Hr, Ha. cbn [nth]. rewrite !isSome_filterOf. reflexivity.
Qed.

(** Whatever is wrong with the address parameters of a paged request, the
    answer is a 400 and a message. *)
Lemma mempool_route_rejects (req : Request) (limit offset : Z) :
  txPaging req limit offset ->
  invalidAddress (q_sender_address (query req)) = true
  \/ invalidAddress (q_recipient_address (query req)) = true
  \/ invalidAddress (q_address (query req)) = true
  \/ supplied (q_address (query req))
     && (supplied (q_recipient_address (query req))
         || supplied (q_sender_address (query req))) = true ->
  exists msg, getMempoolTxListRoute req = Ret (Json 400 (errorBody msg)).
Proof.
  intros Hp H.
  destruct (invalidAddress (q_sender_address (query req))) eqn:Hs.
  { destruct (q_sender_address (query req)) as [a |] eqn:Ea; [| discriminate].
    eexists. eapply mempool_route_invalid_sender; eassumption. }
  destruct (invalidAddress (q_recipient_address (query req))) eqn:Hr.
  { destruct (q_recipient_address (query req)) as [a |] eqn:Ea; [| discriminate].
    eexists. eapply mempool_route_invalid_recipient; eassumption. }
  destruct (invalidAddress (q_address (query req))) eqn:Ha.
  { destruct (q_address (query req)) as [a |] eqn:Ea; [| discriminate].
    eexists. eapply mempool_route_invalid_address; eassumption. }
  destruct H as [H | [H | [H | H]]]; try discriminate.
  eexists. rewrite (mempool_route_valid _ _ _ Hp Hs Hr Ha), H. reflexivity.
Qed.

(** C10. A transaction id without the [0x] prefix: the handler answers with a
    redirect to the same path with [0x] put before the id; it makes no
    operation on the data store and neither throws nor reports an error. *)
Theorem tx_without_0x_prefix_redirects
  (req : Request) {S : Type} (h : handler S) (s : S) :
  has0xPrefix (p_tx_id (params req)) = false ->
  getTxRoute req = Ret (Redirect ("/extended/v1/tx/0x" +++ p_tx_id (params req)))
  /\ output (exec h (getTxRoute req) s)
     = Returned (Redirect ("/extended/v1/tx/0x" +++ p_tx_id (params req)))
  /\ trace (exec h (getTxRoute req) s) = []
  /\ final (exec h (getTxRoute req) s) = s.
Proof.
  intros H. unfold getTxRoute. cbv zeta. rewrite H. simpl. auto.
Qed.

(** C1. A mempool list request that supplies [address] together with
    [sender_address] or [recipient_address] fails with a client input error
    and no result list: nothing is asked of the data store, and once the
    paging parameters parse the answer is a 400, with the message of the
    exclusive filter when the supplied addresses are valid. A request with at
    most one kind of address filter, valid, goes on to the query. *)
Theorem mempool_address_filter_exclusive
  (req : Request) {S : Type} (h : handler S) (s : S) :
  let q := query req in
  let r := exec h (getMempoolTxListRoute req) s in
  (supplied (q_address q) = true ->
   supplied (q_sender_address q) = true \/ supplied (q_recipient_address q) = true ->
   clientError (output r) /\ trace r = [] /\ final r = s
   /\ (forall limit offset, txPaging req limit offset ->
       (exists msg, output r = Returned (Json 400 (errorBody msg)))
       /\ (invalidAddress (q_sender_address q) = false ->
           invalidAddress (q_recipient_address q) = false ->
           invalidAddress (q_address q) = false ->
           output r = Returned (Json 400 (errorBody exclusiveFilterMessage)))))
  /\
  (supplied (q_address q) = false
   \/ (supplied (q_sender_address q) = false /\ supplied (q_recipient_address q) = false) ->
   forall limit offset, txPaging req limit offset ->
   invalidAddress (q_sender_address q) = false ->
   invalidAddress (q_recipient_address q) = false ->
   invalidAddress (q_address q) = false ->
   let op := GetMempoolTxList offset limit (filterOf (q_sender_address q))
               (filterOf (q_recipient_address q)) (filterOf (q_address q)) in
   trace r = [existT _ _ op]
   /\ forall page, fst (h _ op s) = Ok page ->
        output r = Returned (Json 200 (listResponse limit offset (total page)
                                         (map parseDbMempoolTx (results page))))).
Proof.
  cbv zeta. split.
  - intros Ha Hor.
    assert (Hc : supplied (q_address (query req))
                 && (supplied (q_recipient_address (query req))
                     || supplied (q_sender_address (query req))) = true).
    { rewrite Ha. destruct Hor as [-> | ->]; simpl; auto using orb_true_r. }
    destruct (parseTxQueryLimit (orDefault (q_limit (query req)) 96)) as [l | e] eqn:Hl.
    + destruct (parsePagingQueryInput (orDefault (q_offset (query req)) 0))
        as [o | e] eqn:Ho.
      * assert (Hp : txPaging req l o) by (split; assumption).
        destruct (mempool_route_rejects req l o Hp) as [msg Hm]; [auto |].
        rewrite Hm. simpl. repeat split; auto.
        -- eauto.
        -- intros Hs Hr Hv. pose proof (mempool_route_valid _ _ _ Hp Hs Hr Hv) as E.
           rewrite Hc, Hm in E. inversion E. reflexivity.
      * unfold getMempoolTxListRoute. rewrite paged_prefix, Hl, Ho. simpl.
        repeat split; auto.
        -- eapply parsePagingQueryInput_Err; eassumption.
        -- destruct H as [_ H]. rewrite Ho in H. discriminate.
        -- destruct H as [_ H]. rewrite Ho in H. discriminate.
    + unfold getMempoolTxListRoute. rewrite paged_prefix, Hl. simpl.
      repeat split; auto.
      * eapply parseLimitQuery_Err; eassumption.
      * destruct H as [H _]. rewrite Hl in H. discriminate.
      * destruct H as [H _]. rewrite Hl in H. discriminate.
  - intros Hone l o Hp Hs Hr Hv.
    rewrite (mempool_route_valid _ _ _ Hp Hs Hr Hv).
    assert (Hc : supplied (q_address (query req))
                 && (supplied (q_recipient_address (query req))
                     || supplied (q_sender_address (query req))) = false).
    { destruct Hone as [-> | [-> ->]]; [reflexivity | apply andb_false_r]. }
    rewrite Hc. rewrite exec_bind, exec_call. simpl.
    destruct (h _ _ s) as [[page | e] s']; simpl.
    + split; [reflexivity |]. intros page' E. inversion E; subst. reflexivity.
    + split; [reflexivity |]. intros page' E. discriminate.
Qed.

(** C8. The address parameters of a mempool list request are validated in the
    order [sender_address], [recipient_address], [address], and only when
    they are supplied: present and not empty. A request with a supplied
    parameter that is not a valid STX address fails with a client error and
    nothing is asked of the data store; once the paging parameters parse
    (they are parsed first), the answer is a 400 whose message names the
    first such parameter and its value. When all supplied parameters are
    valid (and compatible) the query receives a filter for each of them, and
    none for a parameter that is absent or empty: an empty value is not
    validated. *)
Theorem mempool_address_parameters_validated
  (req : Request) {S : Type} (h : handler S) (s : S) :
  let q := query req in
  let r := exec h (getMempoolTxListRoute req) s in
  let rejected p a :=
    output r = Returned (Json 400 (errorBody ("Error: " +++ invalidParameterMessage p a)))
    /\ trace r = [] /\ final r = s in
  let unfiltered o := o = None \/ o = Some "" -> filterOf o = None in
  (invalidAddress (q_sender_address q) = true
   \/ invalidAddress (q_recipient_address q) = true
   \/ invalidAddress (q_address q) = true ->
   clientError (output r) /\ trace r = [] /\ final r = s)
  /\
  (forall limit offset, txPaging req limit offset ->
     (forall a, q_sender_address q = Some a -> invalidAddress (Some a) = true ->
                rejected "sender_address" a)
     /\ (forall a, invalidAddress (q_sender_address q) = false ->
                   q_recipient_address q = Some a -> invalidAddress (Some a) = true ->
                   rejected "recipient_address" a)
     /\ (forall a, invalidAddress (q_sender_address q) = false ->
                   invalidAddress (q_recipient_address q) = false ->
                   q_address q = Some a -> invalidAddress (Some a) = true ->
                   rejected "address" a)
     /\ (invalidAddress (q_sender_address q) = false ->
         invalidAddress (q_recipient_address q) = false ->
         invalidAddress (q_address q) = false ->
         supplied (q_address q)
         && (supplied (q_recipient_address q) || supplied (q_sender_address q)) = false ->
         trace r = [existT _ _ (GetMempoolTxList offset limit
                                  (filterOf (q_sender_address q))
                                  (filterOf (q_recipient_address q))
                                  (filterOf (q_address q)))]
         /\ unfiltered (q_sender_address q)
         /\ unfiltered (q_recipient_address q)
         /\ unfiltered (q_address q))).
Proof.
  cbv zeta. split.
  - intros Hinv.
    destruct (parseTxQueryLimit (orDefault (q_limit (query req)) 96)) as [l | e] eqn:Hl.
    + destruct (parsePagingQueryInput (orDefault (q_offset (query req)) 0))
        as [o | e] eqn:Ho.
      * destruct (mempool_route_rejects req l o (conj Hl Ho)) as [msg Hm].
        { destruct Hinv as [H | [H | H]]; auto. }
        rewrite Hm. simpl. auto.
      * unfold getMempoolTxListRoute. rewrite paged_prefix, Hl, Ho. simpl.
        split; [eapply parsePagingQueryInput_Err; eassumption | auto].
    + unfold getMempoolTxListRoute. rewrite paged_prefix, Hl. simpl.
      split; [eapply parseLimitQuery_Err; eassumption | auto].
  - intros limit offset Hp. split; [| split; [| split]].
    + intros a Ha Hi. rewrite (mempool_route_invalid_sender _ _ _ _ Hp Ha Hi).
      simpl. auto.
    + intros a Hs Ha Hi. rewrite (mempool_route_invalid_recipient _ _ _ _ Hp Hs Ha Hi).
      simpl. auto.
    + intros a Hs Hr Ha Hi.
      rewrite (mempool_route_invalid_address _ _ _ _ Hp Hs Hr Ha Hi). simpl. auto.
    + intros Hs Hr Ha Hc. rewrite (mempool_route_valid _ _ _ Hp Hs Hr Ha), Hc.
      split; [apply trace_call_then |].
      split; [| split]; intros [-> | ->]; reflexivity.
Qed.

End TxRouterProperties.

(** [GET /t1] on the sample store is redirected to [/extended/v1/tx/0xt1]. *)
Lemma tx_without_0x_prefix_redirects_witness :
  Sample.has0xPrefix "t1" = false
  /\ output (exec Sample.handle (getTxRoute (env := Sample.env) Sample.unprefixed) Sample.store)
     = Returned (Redirect "/extended/v1/tx/0xt1")
  /\ trace (exec Sample.handle (getTxRoute (env := Sample.env) Sample.unprefixed) Sample.store)
     = [].
Proof.
  split; [reflexivity |].
  destruct (tx_without_0x_prefix_redirects (env := Sample.env)
              Sample.unprefixed Sample.handle Sample.store) as [_ [H1 [H2 _]]].
  - reflexivity.
  - split; [exact H1 | exact H2].
Defined.

(** [address] with [sender_address] is refused; [sender_address] with
    [recipient_address] is queried. *)
Lemma mempool_address_filter_exclusive_witness :
  output (exec Sample.handle
            (getMempoolTxListRoute (env := Sample.env) Sample.conflicting) Sample.store)
  = Returned (Json 400 (errorBody exclusiveFilterMessage))
  /\ trace (exec Sample.handle
              (getMempoolTxListRoute (env := Sample.env) Sample.conflicting) Sample.store)
     = []
  /\ trace (exec Sample.handle
              (getMempoolTxListRoute (env := Sample.env) Sample.senderAndRecipient)
              Sample.store)
     = [existT _ _ (GetMempoolTxList (env := Sample.env) 0 96
                      (Some Sample.bob) (Some Sample.alice) None)].
Proof.
  destruct (mempool_address_filter_exclusive (env := Sample.env)
              Sample.conflicting Sample.handle Sample.store) as [Hreject _].
  destruct (mempool_address_filter_exclusive (env := Sample.env)
              Sample.senderAndRecipient Sample.handle Sample.store) as [_ Hpass].
  cbv zeta in Hreject, Hpass.
  destruct Hreject as [_ [Ht [_ Hm]]]; [reflexivity | left; reflexivity |].
  destruct (Hm 96 0) as [_ Hmsg]; [split; reflexivity |].
  destruct (Hpass (or_introl eq_refl) 96 0) as [Hq _];
    [split; reflexivity | reflexivity | reflexivity | reflexivity |].
  split; [apply Hmsg; reflexivity | split; [exact Ht | exact Hq]].
Defined.

(** C8 as it is stated does not hold for a parameter that is present and
    empty. [GET /mempool?sender_address=] carries a [sender_address] that is
    not a valid STX address, and it is not refused: the handler takes the
    empty value for an absent one and answers with the unfiltered list. *)
Lemma mempool_empty_address_is_not_refused :
  ~ (forall (env : Env) (req : Request) (S : Type) (h : handler S) (s : S)
            (limit offset : Z) (a : string),
       txPaging req limit offset ->
       q_sender_address (query req) = Some a ->
       isValidC32Address a = false ->
       clientError (output (exec h (getMempoolTxListRoute req) s))).
Proof.
  intros H.
  specialize (H Sample.env MoreSamples.emptySender _ Sample.handle Sample.store 96 0 ""
                (conj eq_refl eq_refl) eq_refl eq_refl).
  vm_compute in H. discriminate H.
Qed.

(** An invalid [recipient_address] after a valid [sender_address] is the one
    that is named; an empty [sender_address] is no filter. *)
Lemma mempool_address_parameters_validated_witness :
  output (exec Sample.handle
            (getMempoolTxListRoute (env := Sample.env) Sample.badRecipient) Sample.store)
  = Returned (Json 400 (errorBody
      ("Error: " +++ invalidParameterMessage "recipient_address" "nobody")))
  /\ trace (exec Sample.handle
              (getMempoolTxListRoute (env := Sample.env) Sample.badRecipient) Sample.store)
     = []
  /\ trace (exec Sample.handle
              (getMempoolTxListRoute (env := Sample.env) MoreSamples.emptySender)
              Sample.store)
     = [existT _ _ (GetMempoolTxList (env := Sample.env) 0 96 None None None)].
Proof.
  destruct (mempool_address_parameters_validated (env := Sample.env)
              Sample.badRecipient Sample.handle Sample.store) as [Hany Hpaged].
  destruct (mempool_address_parameters_validated (env := Sample.env)
              MoreSamples.emptySender Sample.handle Sample.store) as [_ Hempty].
  cbv zeta in Hany, Hpaged, Hempty.
  destruct Hany as [_ [Ht _]]; [right; left; reflexivity |].
  destruct (Hpaged 96 0) as [_ [Hr _]]; [split; reflexivity |].
  destruct (Hr "nobody") as [Ho _]; [reflexivity | reflexivity | reflexivity |].
  destruct (Hempty 96 0) as [_ [_ [_ He]]]; [split; reflexivity |].
  destruct He as [Hq _]; [reflexivity | reflexivity | reflexivity | reflexivity |].
  split; [exact Ho | split; [exact Ht | exact Hq]].
Defined.

(** ** The single-transaction route *)

Section TxLookupProperties.

Context {env : Env}.


End TxLookupProperties.


(** ** The burnchain routes *)

Lemma toString_decimal (n : Z) :
  option_map Z.of_int (NilZero.int_of_string (Js.toString n)) = Some n.
Proof.
  unfold Js.toString. rewrite NilZero.isi.
  - simpl. rewrite DecimalZ.of_to. reflexivity.
  - destruct n; simpl; try discriminate.
    intros E. inversion E as [E']. exact (Unsigned.to_uint_nonnil _ E').
  - destruct n; simpl; try discriminate.
    intros E. inversion E as [E']. exact (Unsigned.to_uint_nonnil _ E').
Qed.

Section BurnchainRouterProperties.

Context {env : Env}.

Lemma truthy_nonempty (a : string) : a <> "" -> Js.truthy a = true.
Proof.
  intros H. unfold Js.truthy. destruct (String.eqb_spec a ""); [contradiction | reflexivity].
Qed.

(** What the resolution of the two address routes comes to. *)
Lemma burnchainAddressOf_bitcoin (queryAddr : string) :
  isValidBitcoinAddress queryAddr = true -> burnchainAddressOf queryAddr = Some queryAddr.
Proof. intros H. unfold burnchainAddressOf. rewrite H. reflexivity. Qed.

Lemma burnchainAddressOf_converted (queryAddr b : string) :
  isValidBitcoinAddress queryAddr = false ->
  tryConvertC32ToBtc queryAddr = Some b -> b <> "" ->
  burnchainAddressOf queryAddr = Some b.
Proof.
  intros H1 H2 H3. unfold burnchainAddressOf. rewrite H1, H2, (truthy_nonempty _ H3).
  reflexivity.
Qed.

Lemma burnchainAddressOf_neither (queryAddr : string) :
  isValidBitcoinAddress queryAddr = false ->
  tryConvertC32ToBtc queryAddr = None \/ tryConvertC32ToBtc queryAddr = Some "" ->
  burnchainAddressOf queryAddr = None.
Proof.
  intros H1 [H2 | H2]; unfold burnchainAddressOf; rewrite H1, H2; reflexivity.
Qed.

Lemma rewardsTotal_resolved (req : Request) (b : string) :
  burnchainAddressOf (Js.trim (p_address (params req))) = Some b -> b <> "" ->
  getRewardsTotalRoute req =
  (queryResults <- call (GetBurnchainRewardsTotal b) ;;
   Ret (Json 200
          (JObject [("reward_recipient", JString (total_reward_recipient queryResults));
                    ("reward_amount",
                     JString (Js.toString (total_reward_amount queryResults)))]))).
Proof.
  intros H Hb. unfold getRewardsTotalRoute. cbv zeta. rewrite H, (truthy_nonempty _ Hb).
  reflexivity.
Qed.

Lemma rewardsForAddress_resolved (req : Request) (b : string) (limit offset : Z) :
  blockPaging req limit offset ->
  burnchainAddressOf (Js.trim (p_address (params req))) = Some b -> b <> "" ->
  getRewardsForAddressRoute req =
  (queryResults <- call (GetBurnchainRewards (Some b) offset limit) ;;
   Ret (Json 200 (rewardListResponse limit offset (map burnchainReward queryResults)))).
Proof.
  intros [Hl Ho] H Hb. unfold getRewardsForAddressRoute.
  rewrite paged_prefix, Hl, Ho. cbv zeta. rewrite H, (truthy_nonempty _ Hb).
  reflexivity.
Qed.

(** C9. Both address routes trim the [address] parameter and resolve it: a
    valid Bitcoin address is the recipient that is queried, an address that
    converts from the STX format is replaced by its Bitcoin form, and any
    other address is answered with a 400 without a query to the data store. *)
Theorem burnchain_address_resolution
  (req : Request) {S : Type} (h : handler S) (s : S) :
  let queryAddr := Js.trim (p_address (params req)) in
  let forTotal := exec h (getRewardsTotalRoute req) s in
  let forList := exec h (getRewardsForAddressRoute req) s in
  let queried b :=
    trace forTotal = [existT _ _ (GetBurnchainRewardsTotal b)]
    /\ forall limit offset, blockPaging req limit offset ->
         trace forList = [existT _ _ (GetBurnchainRewards (Some b) offset limit)] in
  (isValidBitcoinAddress queryAddr = true -> queryAddr <> "" -> queried queryAddr)
  /\ (forall b, isValidBitcoinAddress queryAddr = false ->
                tryConvertC32ToBtc queryAddr = Some b -> b <> "" -> queried b)
  /\ (isValidBitcoinAddress queryAddr = false ->
      tryConvertC32ToBtc queryAddr = None \/ tryConvertC32ToBtc queryAddr = Some "" ->
      output forTotal = Returned (Json 400 (invalidAddressBody queryAddr))
      /\ trace forTotal = []
      /\ trace forList = []
      /\ forall limit offset, blockPaging req limit offset ->
           output forList = Returned (Json 400 (invalidAddressBody queryAddr))).
Proof.
  cbv zeta.
  assert (Hq : forall b,
    burnchainAddressOf (Js.trim (p_address (params req))) = Some b -> b <> "" ->
    trace (exec h (getRewardsTotalRoute req) s) = [existT _ _ (GetBurnchainRewardsTotal b)]
    /\ forall limit offset, blockPaging req limit offset ->
         trace (exec h (getRewardsForAddressRoute req) s)
         = [existT _ _ (GetBurnchainRewards (Some b) offset limit)]).
  { intros b Hb Hne. split.
    - rewrite (rewardsTotal_resolved _ _ Hb Hne). apply trace_call_then.
    - intros l o Hp. rewrite (rewardsForAddress_resolved _ _ _ _ Hp Hb Hne).
      apply trace_call_then. }
  split; [| split].
  - intros Hv Hne. apply Hq; [apply burnchainAddressOf_bitcoin; exact Hv | exact Hne].
  - intros b Hv Hc Hne. apply Hq; [eapply burnchainAddressOf_converted; eassumption | exact Hne].
  - intros Hv Hc. pose proof (burnchainAddressOf_neither _ Hv Hc) as Hn.
    unfold getRewardsTotalRoute, getRewardsForAddressRoute. cbv zeta. rewrite Hn.
    repeat split.
    + rewrite paged_prefix.
      destruct (parseBlockQueryLimit _); [| reflexivity].
      destruct (parsePagingQueryInput _); reflexivity.
    + intros l o [Hl Ho]. rewrite paged_prefix, Hl, Ho. reflexivity.
Qed.

(** C7. For an address that the total route accepts, the query goes to
    [getBurnchainRewardsTotal] for the resolved recipient, and the response is
    [{reward_recipient, reward_amount}]: the recipient of the store's answer,
    which is the queried recipient when the store answers for the recipient
    it was asked, as the chain-state store does; and its amount in decimal
    digits. *)
Theorem rewards_total_response
  (req : Request) {S : Type} (h : handler S) (s : S) (b : string) (t : DbRewardsTotal) :
  burnchainAddressOf (Js.trim (p_address (params req))) = Some b -> b <> "" ->
  fst (h _ (GetBurnchainRewardsTotal b) s) = Ok t ->
  let r := exec h (getRewardsTotalRoute req) s in
  output r = Returned (Json 200
    (JObject [("reward_recipient", JString (total_reward_recipient t));
              ("reward_amount", JString (Js.toString (total_reward_amount t)))]))
  /\ trace r = [existT _ _ (GetBurnchainRewardsTotal b)]
  /\ (total_reward_recipient t = b ->
      output r = Returned (Json 200
        (JObject [("reward_recipient", JString b);
                  ("reward_amount", JString (Js.toString (total_reward_amount t)))])))
  /\ option_map Z.of_int (NilZero.int_of_string (Js.toString (total_reward_amount t)))
     = Some (total_reward_amount t)
  /\ (forall st,
        total_reward_recipient (ChainStore.getBurnchainRewardsTotal st b) = b).
Proof.
  intros Hb Hne Ht. cbv zeta. rewrite (rewardsTotal_resolved _ _ Hb Hne).
  assert (Ho := output_call_then h (GetBurnchainRewardsTotal b)
                  (fun q => Json 200
                     (JObject [("reward_recipient", JString (total_reward_recipient q));
                               ("reward_amount",
                                JString (Js.toString (total_reward_amount q)))])) s t Ht).
  repeat split.
  - exact Ho.
  - apply trace_call_then.
  - intros E. rewrite <- E at 2. exact Ho.
  - apply toString_decimal.
Qed.

End BurnchainRouterProperties.

(** A Bitcoin address, an STX address and neither, each with blanks around. *)
Lemma burnchain_address_resolution_witness :
  trace (exec Sample.handle (getRewardsTotalRoute (env := Sample.env) Sample.forBitcoin)
           Sample.store)
  = [existT _ _ (GetBurnchainRewardsTotal (env := Sample.env) Sample.btcAddr)]
  /\ trace (exec Sample.handle
              (getRewardsForAddressRoute (env := Sample.env) Sample.forStx) Sample.store)
     = [existT _ _ (GetBurnchainRewards (env := Sample.env)
                      (Some ("1BTC" +++ Sample.alice +++ Sample.alice)) 0 20)]
  /\ output (exec Sample.handle
               (getRewardsTotalRoute (env := Sample.env) Sample.forNeither) Sample.store)
     = Returned (Json 400 (invalidAddressBody "nonsense")).
Proof.
  destruct (burnchain_address_resolution (env := Sample.env)
              Sample.forBitcoin Sample.handle Sample.store) as [Hbtc _].
  destruct (burnchain_address_resolution (env := Sample.env)
              Sample.forStx Sample.handle Sample.store) as [_ [Hstx _]].
  destruct (burnchain_address_resolution (env := Sample.env)
              Sample.forNeither Sample.handle Sample.store) as [_ [_ Hnone]].
  cbv zeta in Hbtc, Hstx, Hnone.
  destruct Hbtc as [Hb _]; [reflexivity | discriminate |].
  destruct (Hstx ("1BTC" +++ Sample.alice +++ Sample.alice)) as [_ Hs];
    [reflexivity | reflexivity | discriminate |].
  destruct Hnone as [Hn _]; [reflexivity | left; reflexivity |].
  split; [exact Hb | split; [apply (Hs 20 0); split; reflexivity | exact Hn]].
Defined.

(** The two rewards of the sample recipient add up to 5000. *)
Lemma rewards_total_response_witness :
  output (exec Sample.handle (getRewardsTotalRoute (env := Sample.env) Sample.forBitcoin)
            Sample.store)
  = Returned (Json 200 (JObject [("reward_recipient", JString Sample.btcAddr);
                                 ("reward_amount", JString "5000")])).
Proof.
  destruct (rewards_total_response (env := Sample.env)
              Sample.forBitcoin Sample.handle Sample.store Sample.btcAddr
              (ChainStore.getBurnchainRewardsTotal Sample.store Sample.btcAddr))
    as [H _]; [reflexivity | discriminate | reflexivity |].
  exact H.
Defined.

(** ** Limits *)

Section LimitProperties.

Context {env : Env}.

Lemma hd_trace_call {X R S : Type} (h : handler S) (op : Op X) (k : X -> prog R) (s : S) :
  hd_error (trace (exec h (x <- call op ;; k x) s)) = Some (existT _ X op).
Proof.
  rewrite exec_bind, exec_call. simpl.
  destruct (fst (h X op s)); reflexivity.
Qed.

Lemma exec_Throw {R S : Type} (h : handler S) (e : JsError) (s : S) :
  exec h (Throw e : prog R) s = {| output := Thrown e; final := s; trace := [] |}.
Proof. reflexivity. Qed.

(** The route of an endpoint, once its limit parameter is rejected. *)
Lemma endpoint_limit_rejected (ep : Endpoint) (req : Request) (v : qvalue) (n : Z) :
  (ep = TxEvents -> has0xPrefix (p_tx_id (params req)) = true) ->
  limitParam ep (query req) = Some v ->
  parsePagingQueryInput (AQuery v) = Ok n ->
  declaredMaximum ep < n ->
  endpointRoute ep req = Throw {| kind := ClientInput; message := limitMessage ep |}.
Proof.
  intros Hx Hv Hn Hmax.
  destruct ep; simpl in Hv, Hmax |- *.
  - unfold getTxListRoute. rewrite Hv. simpl orDefault.
    unfold parseTxQueryLimit. rewrite (parseLimitQuery_above _ _ _ n Hn Hmax). reflexivity.
  - unfold getMempoolTxListRoute. rewrite Hv. simpl orDefault.
    unfold parseTxQueryLimit. rewrite (parseLimitQuery_above _ _ _ n Hn Hmax). reflexivity.
  - unfold getDroppedTxsRoute. rewrite Hv. simpl orDefault.
    unfold parseTxQueryLimit. rewrite (parseLimitQuery_above _ _ _ n Hn Hmax). reflexivity.
  - unfold getTxRoute. cbv zeta. rewrite (Hx eq_refl), Hv. simpl orDefault.
    unfold parseTxQueryEventsLimit. rewrite (parseLimitQuery_above _ _ _ n Hn Hmax).
    reflexivity.
  - unfold getRewardsRoute. rewrite Hv. simpl orDefault.
    unfold parseBlockQueryLimit. rewrite (parseLimitQuery_above _ _ _ n Hn Hmax). reflexivity.
  - unfold getRewardsForAddressRoute. rewrite Hv. simpl orDefault.
    unfold parseBlockQueryLimit. rewrite (parseLimitQuery_above _ _ _ n Hn Hmax). reflexivity.
Qed.

(** The first operation of an endpoint whose limit parameter is left out. *)
Lemma endpoint_default_limit (ep : Endpoint) (req : Request)
      {S : Type} (h : handler S) (s : S) (i : invoked) :
  limitParam ep (query req) = None ->
  hd_error (trace (exec h (endpointRoute ep req) s)) = Some i ->
  limitOf (projT2 i) = Some (defaultLimit ep).
Proof.
  intros Hv. destruct ep; simpl in Hv |- *.
  - unfold getTxListRoute. rewrite Hv. simpl orDefault.
    change (parseTxQueryLimit (ANumber 96)) with (Ok 96 : result Z). cbn [lift bind].
    destruct (parsePagingQueryInput _) as [o | e]; cbn [lift bind];
      [| rewrite exec_Throw; discriminate].
    destruct (txTypeFilterOf _) as [f | e]; cbn [lift bind];
      [| rewrite exec_Throw; discriminate].
    rewrite hd_trace_call. intros E. inversion E. reflexivity.
  - assert (Hl : parseTxQueryLimit (orDefault (q_limit (query req)) 96) = Ok 96)
      by (rewrite Hv; reflexivity).
    destruct (parsePagingQueryInput (orDefault (q_offset (query req)) 0)) as [o | e] eqn:Ho.
    + rewrite (mempool_route_unfold req 96 o (conj Hl Ho)).
      destruct (mapResult _ _) as [addrParams | e]; [| discriminate].
      cbv zeta. destruct (isSome _ && _); [discriminate |].
      rewrite hd_trace_call. intros E. inversion E. reflexivity.
    + unfold getMempoolTxListRoute. rewrite paged_prefix, Hl, Ho, exec_Throw. discriminate.
  - unfold getDroppedTxsRoute. rewrite Hv. simpl orDefault.
    change (parseTxQueryLimit (ANumber 96)) with (Ok 96 : result Z). cbn [lift bind].
    destruct (parsePagingQueryInput _) as [o | e]; cbn [lift bind];
      [| rewrite exec_Throw; discriminate].
    rewrite hd_trace_call. intros E. inversion E. reflexivity.
  - unfold getTxRoute. cbv zeta. destruct (has0xPrefix _); simpl negb; cbv iota;
      [| discriminate].
    rewrite Hv. simpl orDefault.
    change (parseTxQueryEventsLimit (ANumber 96)) with (Ok 96 : result Z). cbn [lift bind].
    destruct (parsePagingQueryInput _) as [o | e]; cbn [lift bind];
      [| rewrite exec_Throw; discriminate].
    rewrite hd_trace_call. intros E. inversion E. reflexivity.
  - unfold getRewardsRoute. rewrite Hv. simpl orDefault.
    change (parseBlockQueryLimit (ANumber 20)) with (Ok 20 : result Z). cbn [lift bind].
    destruct (parsePagingQueryInput _) as [o | e]; cbn [lift bind];
      [| rewrite exec_Throw; discriminate].
    rewrite hd_trace_call. intros E. inversion E. reflexivity.
  - unfold getRewardsForAddressRoute. rewrite Hv. simpl orDefault.
    change (parseBlockQueryLimit (ANumber 20)) with (Ok 20 : result Z). cbn [lift bind].
    destruct (parsePagingQueryInput _) as [o | e]; cbn [lift bind];
      [| rewrite exec_Throw; discriminate].
    cbv zeta. destruct (burnchainAddressOf _) as [b |]; [| discriminate].
    destruct (Js.truthy b); simpl negb; cbv iota; [| discriminate].
    rewrite hd_trace_call. intros E. inversion E. reflexivity.
Qed.

(** The query of an endpoint whose limit parameter is left out, for a
    request that is acceptable otherwise. *)
Lemma endpoint_default_query (ep : Endpoint) (req : Request)
      {S : Type} (h : handler S) (s : S) :
  limitParam ep (query req) = None ->
  otherwiseAcceptable ep req ->
  exists i, hd_error (trace (exec h (endpointRoute ep req) s)) = Some i
            /\ limitOf (projT2 i) = Some (defaultLimit ep).
Proof.
  intros Hv Hok. destruct ep; simpl in Hv, Hok |- *.
  - destruct Hok as [[o Ho] [f Hf]].
    unfold getTxListRoute. rewrite Hv, Ho, Hf. simpl orDefault.
    change (parseTxQueryLimit (ANumber 96)) with (Ok 96 : result Z). cbn [lift bind].
    rewrite hd_trace_call. eexists. split; reflexivity.
  - destruct Hok as [[o Ho] [Hs [Hr [Ha Hc]]]].
    assert (Hl : parseTxQueryLimit (orDefault (q_limit (query req)) 96) = Ok 96)
      by (rewrite Hv; reflexivity).
    rewrite (mempool_route_valid req 96 o (conj Hl Ho) Hs Hr Ha), Hc.
    rewrite hd_trace_call. eexists. split; reflexivity.
  - destruct Hok as [o Ho].
    unfold getDroppedTxsRoute. rewrite Hv, Ho. simpl orDefault.
    change (parseTxQueryLimit (ANumber 96)) with (Ok 96 : result Z). cbn [lift bind].
    rewrite hd_trace_call. eexists. split; reflexivity.
  - destruct Hok as [Hx [o Ho]].
    unfold getTxRoute. cbv zeta. rewrite Hx, Hv, Ho. simpl negb. cbv iota.
    simpl orDefault.
    change (parseTxQueryEventsLimit (ANumber 96)) with (Ok 96 : result Z). cbn [lift bind].
    rewrite hd_trace_call. eexists. split; reflexivity.
  - destruct Hok as [o Ho].
    unfold getRewardsRoute. rewrite Hv, Ho. simpl orDefault.
    change (parseBlockQueryLimit (ANumber 20)) with (Ok 20 : result Z). cbn [lift bind].
    rewrite hd_trace_call. eexists. split; reflexivity.
  - destruct Hok as [[o Ho] [b [Hb Hne]]].
    assert (Hl : parseBlockQueryLimit (orDefault (q_limit (query req)) 20) = Ok 20)
      by (rewrite Hv; reflexivity).
    rewrite (rewardsForAddress_resolved req b 20 o (conj Hl Ho) Hb Hne).
    rewrite hd_trace_call. eexists. split; reflexivity.
Qed.

(** C3. A limit above the declared maximum of an endpoint (200 for the
    transaction, mempool, dropped-transaction and per-transaction event
    lists, 30 for the burnchain reward lists) is a client error: the handler
    throws it, with the endpoint's message, before anything is asked of the
    data store. The one exception is [GET /:tx_id] with an id that lacks the
    [0x] prefix: it is redirected before [event_limit] is read, whatever the
    limit. When the limit is left out and the request is acceptable
    otherwise, the handler makes its query, and the query carries the
    endpoint's default limit (96, and 20 for the reward lists); in no case
    does the first operation of such a request carry another limit. *)
Theorem limit_above_maximum_rejected
  (ep : Endpoint) (req : Request) {S : Type} (h : handler S) (s : S) :
  let r := exec h (endpointRoute ep req) s in
  ((ep = TxEvents -> has0xPrefix (p_tx_id (params req)) = true) ->
   forall v n,
     limitParam ep (query req) = Some v ->
     parsePagingQueryInput (AQuery v) = Ok n ->
     declaredMaximum ep < n ->
     output r = Thrown {| kind := ClientInput; message := limitMessage ep |}
     /\ clientError (output r) /\ trace r = [] /\ final r = s)
  /\ (ep = TxEvents -> has0xPrefix (p_tx_id (params req)) = false ->
      output r = Returned (Redirect ("/extended/v1/tx/0x" +++ p_tx_id (params req)))
      /\ trace r = [] /\ final r = s)
  /\ (limitParam ep (query req) = None ->
      (otherwiseAcceptable ep req ->
       exists i, hd_error (trace r) = Some i
                 /\ limitOf (projT2 i) = Some (defaultLimit ep))
      /\ (forall i, hd_error (trace r) = Some i ->
                    limitOf (projT2 i) = Some (defaultLimit ep))).
Proof.
  cbv zeta. split; [| split].
  - intros Hx v n Hv Hn Hmax. rewrite (endpoint_limit_rejected ep req v n Hx Hv Hn Hmax).
    simpl. auto.
  - intros -> Hx. cbn [endpointRoute]. unfold getTxRoute. cbv zeta. rewrite Hx.
    simpl. auto.
  - intros Hv. split.
    + intros Hok. apply endpoint_default_query; assumption.
    + intros i Hi. eapply endpoint_default_limit; eassumption.
Qed.

End LimitProperties.

(** C3 as it is stated does not hold on every endpoint. [GET /t1?event_limit=201]
    asks for more events than the maximum of 200 and is not refused: the id
    has no [0x] prefix, and the handler redirects before it reads the
    limit. *)
Lemma unprefixed_tx_id_skips_event_limit :
  ~ (forall (env : Env) (ep : Endpoint) (req : Request)
            (S : Type) (h : handler S) (s : S) (v : qvalue) (n : Z),
       limitParam ep (query req) = Some v ->
       parsePagingQueryInput (AQuery v) = Ok n ->
       declaredMaximum ep < n ->
       clientError (output (exec h (endpointRoute ep req) s))).
Proof.
  intros H.
  exact (H Sample.env TxEvents MoreSamples.unprefixedTooManyEvents
           _ Sample.handle Sample.store (QString "201") 201 eq_refl eq_refl eq_refl).
Qed.

(** 31 rewards and 201 transactions are too many; the dropped transactions
    are queried with a limit of 96 when none is given; [GET /t1?event_limit=201]
    is redirected. *)
Lemma limit_above_maximum_rejected_witness :
  output (exec Sample.handle (getRewardsRoute (env := Sample.env) Sample.tooManyRewards)
            Sample.store)
  = Thrown {| kind := ClientInput; message := "`limit` must be equal to or less than 30" |}
  /\ output (exec Sample.handle (getDroppedTxsRoute (env := Sample.env) Sample.tooManyTxs)
               Sample.store)
     = Thrown {| kind := ClientInput; message := "`limit` must be equal to or less than 200" |}
  /\ (exists i,
        hd_error (trace (exec Sample.handle
                           (getDroppedTxsRoute (env := Sample.env) Sample.plain)
                           Sample.store)) = Some i
        /\ limitOf (projT2 i) = Some 96)
  /\ output (exec Sample.handle
               (getTxRoute (env := Sample.env) MoreSamples.unprefixedTooManyEvents)
               Sample.store)
     = Returned (Redirect "/extended/v1/tx/0xt1").
Proof.
  destruct (limit_above_maximum_rejected (env := Sample.env) Rewards
              Sample.tooManyRewards Sample.handle Sample.store) as [Hrewards _].
  destruct (limit_above_maximum_rejected (env := Sample.env) DroppedTxs
              Sample.tooManyTxs Sample.handle Sample.store) as [Hdropped _].
  destruct (limit_above_maximum_rejected (env := Sample.env) DroppedTxs
              Sample.plain Sample.handle Sample.store) as [_ [_ Hdefault]].
  destruct (limit_above_maximum_rejected (env := Sample.env) TxEvents
              MoreSamples.unprefixedTooManyEvents Sample.handle Sample.store)
    as [_ [Hredirect _]].
  cbv zeta in Hrewards, Hdropped, Hdefault, Hredirect.
  destruct (Hrewards ltac:(discriminate) (QString "31") 31) as [H1 _];
    [reflexivity | reflexivity | reflexivity |].
  destruct (Hdropped ltac:(discriminate) (QString "201") 201) as [H2 _];
    [reflexivity | reflexivity | reflexivity |].
  destruct (Hdefault eq_refl) as [H3 _].
  destruct (Hredirect eq_refl eq_refl) as [H4 _].
  split; [exact H1 | split; [exact H2 | split; [| exact H4]]].
  apply H3. exists 0. reflexivity.
Defined.

(** ** The shape of the list responses *)

Section ListResponseProperties.

Context {env : Env}.

Lemma output_exec_bind {A B S : Type} (h : handler S) (p : prog A) (f : A -> prog B) (s : S) :
  output (exec h (bind p f) s) =
  match output (exec h p s) with
  | Returned a => output (exec h (f a) (final (exec h p s)))
  | Thrown e => Thrown e
  end.
Proof. rewrite exec_bind. destruct (output (exec h p s)); reflexivity. Qed.

Lemma output_exec_call {X B S : Type} (h : handler S) (op : Op X) (f : X -> prog B) (s : S) :
  output (exec h (x <- call op ;; f x) s) =
  match fst (h X op s) with
  | Ok x => output (exec h (f x) (snd (h X op s)))
  | Err e => Thrown e
  end.
Proof. rewrite output_exec_bind, exec_call. simpl. destruct (fst (h X op s)); reflexivity. Qed.

(** A 200 of the transaction list carries the paging parameters and the
    total of the store's answer. *)
Lemma txList_response (req : Request) {S : Type} (h : handler S) (s : S) (body : json) :
  output (exec h (getTxListRoute req) s) = Returned (Json 200 body) ->
  exists limit offset txTypeFilter page results,
    txPaging req limit offset
    /\ txTypeFilterOf (q_type (query req)) = Ok txTypeFilter
    /\ fst (h _ (GetTxList offset limit txTypeFilter) s) = Ok page
    /\ body = listResponse limit offset (total page) results.
Proof.
  unfold getTxListRoute. rewrite paged_prefix.
  destruct (parseTxQueryLimit _) as [l | e] eqn:Hl; [| discriminate].
  destruct (parsePagingQueryInput _) as [o | e] eqn:Ho; [| discriminate].
  destruct (txTypeFilterOf _) as [f | e] eqn:Hf; cbn [bind lift]; [| discriminate].
  rewrite output_exec_call.
  destruct (fst (h _ (GetTxList o l f) s)) as [page | e] eqn:Hpage; [| discriminate].
  rewrite output_exec_bind.
  destruct (output (exec h (mapSeries _ _) _)) as [rs | e]; [| discriminate].
  rewrite output_exec_bind.
  destruct (output (exec h (if negb isProdEnv then _ else _) _)) as [u | e];
    [| discriminate].
  simpl. intros E. inversion E.
  exists l, o, f, page, rs. repeat split; assumption.
Qed.

Lemma mempoolList_response (req : Request) {S : Type} (h : handler S) (s : S) (body : json) :
  output (exec h (getMempoolTxListRoute req) s) = Returned (Json 200 body) ->
  exists limit offset senderAddress recipientAddress address page,
    txPaging req limit offset
    /\ fst (h _ (GetMempoolTxList offset limit senderAddress recipientAddress address) s)
       = Ok page
    /\ body = listResponse limit offset (total page) (map parseDbMempoolTx (results page)).
Proof.
  destruct (parseTxQueryLimit (orDefault (q_limit (query req)) 96)) as [l | e] eqn:Hl.
  - destruct (parsePagingQueryInput (orDefault (q_offset (query req)) 0)) as [o | e] eqn:Ho.
    + rewrite (mempool_route_unfold req l o (conj Hl Ho)).
      destruct (mapResult _ _) as [addrParams | e]; [| discriminate].
      cbv zeta. destruct (isSome _ && _); [discriminate |].
      rewrite output_exec_call.
      destruct (fst (h _ _ s)) as [page | e] eqn:Hpage; [| discriminate].
      simpl. intros E. inversion E.
      do 6 eexists. split; [split; eassumption | split; [exact Hpage | reflexivity]].
    + unfold getMempoolTxListRoute. rewrite paged_prefix, Hl, Ho. discriminate.
  - unfold getMempoolTxListRoute. rewrite paged_prefix, Hl. discriminate.
Qed.

Lemma droppedList_response (req : Request) {S : Type} (h : handler S) (s : S) (body : json) :
  output (exec h (getDroppedTxsRoute req) s) = Returned (Json 200 body) ->
  exists limit offset page,
    txPaging req limit offset
    /\ fst (h _ (GetDroppedTxs offset limit) s) = Ok page
    /\ body = listResponse limit offset (total page) (map parseDbMempoolTx (results page)).
Proof.
  unfold getDroppedTxsRoute. rewrite paged_prefix.
  destruct (parseTxQueryLimit _) as [l | e] eqn:Hl; [| discriminate].
  destruct (parsePagingQueryInput _) as [o | e] eqn:Ho; [| discriminate].
  rewrite output_exec_call.
  destruct (fst (h _ _ s)) as [page | e] eqn:Hpage; [| discriminate].
  simpl. intros E. inversion E.
  exists l, o, page. split; [split; assumption | split; [exact Hpage | reflexivity]].
Qed.

Lemma rewards_response (req : Request) {S : Type} (h : handler S) (s : S) (body : json) :
  output (exec h (getRewardsRoute req) s) = Returned (Json 200 body) ->
  exists limit offset rows,
    blockPaging req limit offset
    /\ fst (h _ (GetBurnchainRewards None offset limit) s) = Ok rows
    /\ body = rewardListResponse limit offset (map burnchainReward rows).
Proof.
  unfold getRewardsRoute. rewrite paged_prefix.
  destruct (parseBlockQueryLimit _) as [l | e] eqn:Hl; [| discriminate].
  destruct (parsePagingQueryInput _) as [o | e] eqn:Ho; [| discriminate].
  rewrite output_exec_call.
  destruct (fst (h _ _ s)) as [rows | e] eqn:Hrows; [| discriminate].
  simpl. intros E. inversion E.
  exists l, o, rows. split; [split; assumption | split; [exact Hrows | reflexivity]].
Qed.

Lemma rewardsForAddress_response
      (req : Request) {S : Type} (h : handler S) (s : S) (body : json) :
  output (exec h (getRewardsForAddressRoute req) s) = Returned (Json 200 body) ->
  exists limit offset b rows,
    blockPaging req limit offset
    /\ burnchainAddressOf (Js.trim (p_address (params req))) = Some b
    /\ fst (h _ (GetBurnchainRewards (Some b) offset limit) s) = Ok rows
    /\ body = rewardListResponse limit offset (map burnchainReward rows).
Proof.
  unfold getRewardsForAddressRoute. rewrite paged_prefix.
  destruct (parseBlockQueryLimit _) as [l | e] eqn:Hl; [| discriminate].
  destruct (parsePagingQueryInput _) as [o | e] eqn:Ho; [| discriminate].
  cbv zeta. destruct (burnchainAddressOf _) as [b |] eqn:Hb; [| discriminate].
  destruct (Js.truthy b); simpl negb; cbv iota; [| discriminate].
  rewrite output_exec_call.
  destruct (fst (h _ _ s)) as [rows | e] eqn:Hrows; [| discriminate].
  simpl. intros E. inversion E.
  exists l, o, b, rows.
  split; [split; assumption | split; [reflexivity | split; [exact Hrows | reflexivity]]].
Qed.

(** The list route finds the full transaction of every row that the store
    lists, when the store answers so and stays as it is. *)
Lemma mapSeries_fullTx_found {S : Type} (h : handler S) (s : S)
      (rows : list DbTx) (found : DbTx -> json) :
  (forall tx, In tx rows ->
     answers h s (GetTxFromDataStore (tx_id tx) None None) (Found (found tx))) ->
  output (exec h (mapSeries rows fullTx) s) = Returned (map found rows)
  /\ final (exec h (mapSeries rows fullTx) s) = s.
Proof.
  induction rows as [| tx rows IH]; intros Hfound.
  - split; reflexivity.
  - destruct IH as [IHo IHf]; [intros tx' Hin; apply Hfound; right; exact Hin |].
    assert (Htx : exec h (fullTx tx) s
                  = {| output := Returned (found tx); final := s;
                       trace := [existT _ _ (GetTxFromDataStore (tx_id tx) None None)] |}).
    { unfold fullTx. rewrite exec_bind, exec_call.
      pose proof (Hfound tx (or_introl eq_refl)) as Hanswer. unfold answers in Hanswer.
      rewrite Hanswer. cbn. rewrite ?Hanswer. reflexivity. }
    cbn [mapSeries]. rewrite !exec_bind, Htx. cbn [output final].
    rewrite !exec_bind, IHo, IHf. split; reflexivity.
Qed.

(** C2, as amended. The transaction, mempool and dropped-transaction lists
    answer [{limit, offset, total, results}], with the paging parameters of
    the request and the total of the data store's answer, which in the
    chain-state store is the count of all rows that match the filter,
    whatever the page window. The two burnchain reward lists answer
    [{limit, offset, results}]: their response has no [total]. The statement
    says first what any 200 of a list is, then that the lists do answer so
    when the store answers, then what the totals of the store are. *)
Theorem list_response_shape
  (req : Request) {S : Type} (h : handler S) (s : S) :
  (forall ep body,
     output (exec h (endpointRoute ep req) s) = Returned (Json 200 body) ->
     match ep with
     | TxList =>
         keys body = ["limit"; "offset"; "total"; "results"]
         /\ exists limit offset txTypeFilter page results,
              txPaging req limit offset
              /\ txTypeFilterOf (q_type (query req)) = Ok txTypeFilter
              /\ fst (h _ (GetTxList offset limit txTypeFilter) s) = Ok page
              /\ body = listResponse limit offset (total page) results
     | MempoolTxList =>
         keys body = ["limit"; "offset"; "total"; "results"]
         /\ exists limit offset senderAddress recipientAddress address page,
              txPaging req limit offset
              /\ fst (h _ (GetMempoolTxList offset limit senderAddress recipientAddress
                             address) s) = Ok page
              /\ body = listResponse limit offset (total page)
                          (map parseDbMempoolTx (results page))
     | DroppedTxs =>
         keys body = ["limit"; "offset"; "total"; "results"]
         /\ exists limit offset page,
              txPaging req limit offset
              /\ fst (h _ (GetDroppedTxs offset limit) s) = Ok page
              /\ body = listResponse limit offset (total page)
                          (map parseDbMempoolTx (results page))
     | Rewards =>
         keys body = ["limit"; "offset"; "results"] /\ prop "total" body = None
         /\ exists limit offset rows,
              blockPaging req limit offset
              /\ fst (h _ (GetBurnchainRewards None offset limit) s) = Ok rows
              /\ body = rewardListResponse limit offset (map burnchainReward rows)
     | RewardsForAddress =>
         keys body = ["limit"; "offset"; "results"] /\ prop "total" body = None
         /\ exists limit offset b rows,
              blockPaging req limit offset
              /\ burnchainAddressOf (Js.trim (p_address (params req))) = Some b
              /\ fst (h _ (GetBurnchainRewards (Some b) offset limit) s) = Ok rows
              /\ body = rewardListResponse limit offset (map burnchainReward rows)
     | TxEvents => True
     end)
  /\
  (forall limit offset, txPaging req limit offset ->
     (forall txTypeFilter page found,
        txTypeFilterOf (q_type (query req)) = Ok txTypeFilter ->
        answers h s (GetTxList offset limit txTypeFilter) page ->
        (forall tx, In tx (results page) ->
           answers h s (GetTxFromDataStore (tx_id tx) None None) (Found (found tx))) ->
        isProdEnv = true
        \/ validate getTransactionsSchema
             (listResponse limit offset (total page) (map found (results page))) = Ok tt ->
        output (exec h (getTxListRoute req) s)
        = Returned (Json 200 (listResponse limit offset (total page)
                                (map found (results page)))))
     /\ (forall page,
           invalidAddress (q_sender_address (query req)) = false ->
           invalidAddress (q_recipient_address (query req)) = false ->
           invalidAddress (q_address (query req)) = false ->
           supplied (q_address (query req))
           && (supplied (q_recipient_address (query req))
               || supplied (q_sender_address (query req))) = false ->
           fst (h _ (GetMempoolTxList offset limit
                       (filterOf (q_sender_address (query req)))
                       (filterOf (q_recipient_address (query req)))
                       (filterOf (q_address (query req)))) s) = Ok page ->
           output (exec h (getMempoolTxListRoute req) s)
           = Returned (Json 200 (listResponse limit offset (total page)
                                   (map parseDbMempoolTx (results page)))))
     /\ (forall page,
           fst (h _ (GetDroppedTxs offset limit) s) = Ok page ->
           output (exec h (getDroppedTxsRoute req) s)
           = Returned (Json 200 (listResponse limit offset (total page)
                                   (map parseDbMempoolTx (results page))))))
  /\
  (forall limit offset, blockPaging req limit offset ->
     (forall rows,
        fst (h _ (GetBurnchainRewards None offset limit) s) = Ok rows ->
        output (exec h (getRewardsRoute req) s)
        = Returned (Json 200 (rewardListResponse limit offset (map burnchainReward rows))))
     /\ (forall b rows,
           burnchainAddressOf (Js.trim (p_address (params req))) = Some b -> b <> "" ->
           fst (h _ (GetBurnchainRewards (Some b) offset limit) s) = Ok rows ->
           output (exec h (getRewardsForAddressRoute req) s)
           = Returned (Json 200 (rewardListResponse limit offset
                                   (map burnchainReward rows)))))
  /\
  ((forall st offset limit typeFilter,
      total (ChainStore.getTxList st offset limit typeFilter)
      = Z.of_nat (List.length
          (filter (fun t => ChainStore.t_canonical t
                            && ChainStore.matchesType typeFilter t) (ChainStore.txs st))))
   /\ (forall st offset limit senderAddress recipientAddress address page,
         ChainStore.getMempoolTxList st offset limit senderAddress recipientAddress address
         = Ok page ->
         total page
         = Z.of_nat (List.length
             (filter (fun m => ChainStore.pending m
                               && ChainStore.matchesAddresses senderAddress
                                    recipientAddress address m) (ChainStore.mempool st))))
   /\ (forall st offset limit,
         total (ChainStore.getDroppedTxs st offset limit)
         = Z.of_nat (List.length
             (filter (fun m => isSome (ChainStore.m_drop_reason m))
                     (ChainStore.mempool st))))).
Proof.
  split; [| split; [| split]].
  - intros ep body H. destruct ep; simpl in H.
    + destruct (txList_response _ _ _ _ H) as (l & o & f & page & rs & Hp & Hf & Ha & ->).
      split; [reflexivity |]. exists l, o, f, page, rs. auto.
    + destruct (mempoolList_response _ _ _ _ H) as (l & o & sa & ra & a & page & Hp & Ha & ->).
      split; [reflexivity |]. exists l, o, sa, ra, a, page. auto.
    + destruct (droppedList_response _ _ _ _ H) as (l & o & page & Hp & Ha & ->).
      split; [reflexivity |]. exists l, o, page. auto.
    + exact I.
    + destruct (rewards_response _ _ _ _ H) as (l & o & rows & Hp & Ha & ->).
      split; [reflexivity | split; [reflexivity |]]. exists l, o, rows. auto.
    + destruct (rewardsForAddress_response _ _ _ _ H) as (l & o & b & rows & Hp & Hb & Ha & ->).
      split; [reflexivity | split; [reflexivity |]]. exists l, o, b, rows. auto.
  - intros l o Hp. split; [| split].
    + intros f page found Hf Hpage Hfound Hvalid.
      destruct Hp as [Hl Ho]. unfold getTxListRoute.
      rewrite paged_prefix, Hl, Ho, Hf. cbn [lift bind].
      unfold answers in Hpage. rewrite output_exec_call, !Hpage. cbn [fst snd].
      destruct (mapSeries_fullTx_found h s (results page) found Hfound) as [Hout Hfin].
      rewrite output_exec_bind, Hout, Hfin. rewrite output_exec_bind.
      destruct Hvalid as [Hprod | Hok].
      * rewrite Hprod. reflexivity.
      * destruct isProdEnv; [reflexivity |]. simpl negb. cbv iota. rewrite Hok. reflexivity.
    + intros page Hs Hr Ha Hc Hpage.
      rewrite (mempool_route_valid _ _ _ Hp Hs Hr Ha), Hc.
      apply (output_call_then h _
               (fun pg => Json 200 (listResponse l o (total pg)
                                      (map parseDbMempoolTx (results pg)))) s page Hpage).
    + intros page Hpage. destruct Hp as [Hl Ho]. unfold getDroppedTxsRoute.
      rewrite paged_prefix, Hl, Ho.
      apply (output_call_then h _
               (fun pg => Json 200 (listResponse l o (total pg)
                                      (map parseDbMempoolTx (results pg)))) s page Hpage).
  - intros l o Hp. split.
    + intros rows Hrows. destruct Hp as [Hl Ho]. unfold getRewardsRoute.
      rewrite paged_prefix, Hl, Ho.
      apply (output_call_then h _
               (fun rs => Json 200 (rewardListResponse l o (map burnchainReward rs)))
               s rows Hrows).
    + intros b rows Hb Hne Hrows.
      rewrite (rewardsForAddress_resolved _ _ _ _ Hp Hb Hne).
      apply (output_call_then h _
               (fun rs => Json 200 (rewardListResponse l o (map burnchainReward rs)))
               s rows Hrows).
  - split; [| split].
    + reflexivity.
    + intros st o l sa ra a page. unfold ChainStore.getMempoolTxList.
      destruct (isSome a && _); [discriminate |]. intros E. inversion E. reflexivity.
    + reflexivity.
Qed.

End ListResponseProperties.

(** C2 as it is stated does not hold: not every list answers with the four
    properties. The reward list of the sample store answers with a 200 that
    has no [total]. *)
Lemma reward_list_response_has_no_total :
  ~ (forall (env : Env) (ep : Endpoint) (req : Request)
            (S : Type) (h : handler S) (s : S) (body : json),
       ep <> TxEvents ->
       output (exec h (endpointRoute ep req) s) = Returned (Json 200 body) ->
       keys body = ["limit"; "offset"; "total"; "results"]).
Proof.
  intros H.
  specialize (H Sample.env Rewards Sample.plain _ Sample.handle Sample.store
                (rewardListResponse 20 0
                   (map burnchainReward [Sample.reward 101 0 2000; Sample.reward 101 1 3000]))).
  discriminate H; [discriminate | reflexivity].
Qed.

(** The reward list and the transaction list of the sample store. *)
Lemma list_response_shape_witness :
  output (exec Sample.handle (getRewardsRoute (env := Sample.env) Sample.plain) Sample.store)
  = Returned (Json 200 (rewardListResponse 20 0
      (map burnchainReward [Sample.reward 101 0 2000; Sample.reward 101 1 3000])))
  /\ keys (rewardListResponse 20 0
             (map burnchainReward [Sample.reward 101 0 2000; Sample.reward 101 1 3000]))
     = ["limit"; "offset"; "results"]
  /\ output (exec Sample.handle (getTxListRoute (env := Sample.env) Sample.plain)
               Sample.store)
     = Returned (Json 200 (listResponse 96 0 1
         [ChainStore.txJson Sample.tx1
            [Sample.ev 0 (ChainStore.StxTransfer Sample.alice Sample.bob 50);
             Sample.ev 1 (ChainStore.StxTransfer Sample.alice Sample.bob 25);
             Sample.ev 2 (ChainStore.ContractLog "c")]])).
Proof.
  destruct (list_response_shape (env := Sample.env) Sample.plain Sample.handle Sample.store)
    as [Hshape [Htx [Hrewards _]]].
  destruct (Hrewards 20 0) as [Hr _]; [split; reflexivity |].
  specialize (Hr (ChainStore.getBurnchainRewards Sample.store None 0 20) eq_refl).
  destruct (Hshape Rewards _ Hr) as [Hkeys _].
  destruct (Htx 96 0) as [Hlist _]; [split; reflexivity |].
  specialize (Hlist [] (ChainStore.getTxList Sample.store 0 96 [])
                (fun tx : ChainStore.Tx =>
                   ChainStore.txJson tx (ChainStore.eventsOf Sample.store tx))
                eq_refl eq_refl).
  split; [exact Hr | split; [exact Hkeys |]].
  apply Hlist.
  - intros tx [<- | []]. reflexivity.
  - right. reflexivity.
Defined.

(** ** The routes only read *)

Section ReadOnlyProperties.

Context {env : Env}.

Ltac uses_step :=
  first
    [ apply uses_Ret
    | apply uses_Throw
    | apply uses_lift
    | apply uses_call; reflexivity
    | apply uses_mapSeries; intros ?
    | apply uses_catch; [| intros ?]
    | apply uses_bind; [| intros ?]
    | match goal with
      | |- uses _ (match ?x with _ => _ end) => destruct x
      end ].

Lemma reading_notWriting X (op : Op X) : reading X op -> notWriting X op.
Proof. unfold reading, notWriting. destruct op; simpl; congruence. Qed.

Lemma uses_weaken (P Q : forall X, Op X -> Prop) {R : Type} (p : prog R) :
  (forall X op, P X op -> Q X op) -> uses P p -> uses Q p.
Proof.
  intros HPQ Hp. induction Hp; constructor; auto.
Qed.

(** Each query route makes read operations only, whatever the request and
    whatever the answers. *)
Lemma queryRoute_reads (qr : QueryRoute) (req : Request) :
  uses reading (queryRoute qr req).
Proof.
  destruct qr as [[| | | | |] |]; simpl;
    unfold getTxListRoute, getMempoolTxListRoute, getDroppedTxsRoute, getTxRoute,
      getRewardsRoute, getRewardsForAddressRoute, getRewardsTotalRoute;
    cbv zeta; repeat uses_step.
Qed.

(** The subscription route and its listener write no chain state either:
    besides [getTxFromDataStore] they touch the event emitter, the response
    stream and the log. *)
Lemma streamRoute_notWriting (req : Request) : uses notWriting (streamRoute req).
Proof. unfold streamRoute. cbv zeta. repeat uses_step. Qed.

Lemma dbTxUpdate_notWriting (useEventSource : bool) (txId : string) :
  uses notWriting (dbTxUpdate useEventSource txId).
Proof. unfold dbTxUpdate. repeat uses_step. Qed.

(** The handlers that answer with a response are the query routes. *)
Lemma responding_queryRoute (path : string) (route : Request -> prog Response) :
  In (path, Responding route) (createTxRouter ++ createBurnchainRouter) ->
  exists qr, route = queryRoute qr.
Proof.
  simpl. intros H.
  repeat (destruct H as [H | H]; [inversion H; subst; clear H |]);
    try contradiction.
  - exists (Listing TxList). reflexivity.
  - exists (Listing MempoolTxList). reflexivity.
  - exists (Listing DroppedTxs). reflexivity.
  - exists (Listing TxEvents). reflexivity.
  - exists (Listing Rewards). reflexivity.
  - exists (Listing RewardsForAddress). reflexivity.
  - exists RewardsTotal. reflexivity.
Qed.

Lemma streaming_streamRoute (path : string) (route : Request -> prog unit) :
  In (path, Streaming route) (createTxRouter ++ createBurnchainRouter) ->
  route = streamRoute.
Proof.
  simpl. intros H.
  repeat (destruct H as [H | H]; [inversion H; subst; clear H |]);
    try contradiction.
  reflexivity.
Qed.

(** C6. No query route writes chain state. Every operation made by a handler
    of the two routers that answers a query, for any request (also one that is
    rejected) and any answers of the store, is one of the six read operations;
    hence against any store whose read operations leave its chain state as it
    is, the state after the request is the state before. The one other
    handler, the [/stream] subscription, adds the event emitter and the
    response stream to [getTxFromDataStore]; it and its listener leave the
    chain state alone as well. *)
Theorem query_routes_read_only
  (req : Request) {S C : Type} (chain : S -> C) (h : handler S) (s : S) :
  (forall X (op : Op X) s', isRead op = true -> chain (snd (h X op s')) = chain s') ->
  (forall path route,
     In (path, Responding route) (createTxRouter ++ createBurnchainRouter) ->
     let r := exec h (route req) s in
     Forall (fun i => isRead (projT2 i) = true) (trace r)
     /\ Forall (fun i => isMutation (projT2 i) = false) (trace r)
     /\ chain (final r) = chain s)
  /\
  ((forall X (op : Op X) s', isMutation op = false -> chain (snd (h X op s')) = chain s') ->
   forall path route,
     In (path, Streaming route) (createTxRouter ++ createBurnchainRouter) ->
     forall useEventSource txId,
       let stream := exec h (route req) s in
       let update := exec h (dbTxUpdate useEventSource txId) s in
       Forall (fun i => isMutation (projT2 i) = false) (trace stream)
       /\ chain (final stream) = chain s
       /\ Forall (fun i => isMutation (projT2 i) = false) (trace update)
       /\ chain (final update) = chain s).
Proof.
  intros Hread. cbv zeta. split.
  - intros path route Hin.
    destruct (responding_queryRoute path route Hin) as [qr ->].
    pose proof (queryRoute_reads qr req) as Hq.
    split; [| split].
    + exact (uses_trace reading h _ s Hq).
    + apply (uses_trace notWriting h _ s).
      eapply uses_weaken; [apply reading_notWriting | exact Hq].
    + exact (uses_frame reading chain h _ Hread Hq s).
  - intros Hframe path route Hin b txId.
    rewrite (streaming_streamRoute path route Hin).
    pose proof (streamRoute_notWriting req) as Hs.
    pose proof (dbTxUpdate_notWriting b txId) as Hu.
    split; [exact (uses_trace notWriting h _ s Hs) |].
    split; [exact (uses_frame notWriting chain h _ Hframe Hs s) |].
    split; [exact (uses_trace notWriting h _ s Hu) |].
    exact (uses_frame notWriting chain h _ Hframe Hu s).
Qed.

End ReadOnlyProperties.

(** A refused and an answered request leave the sample store as it was. *)
Lemma query_routes_read_only_witness :
  final (exec Sample.handle (getMempoolTxListRoute (env := Sample.env) Sample.conflicting)
           Sample.store) = Sample.store
  /\ final (exec Sample.handle (getTxListRoute (env := Sample.env) Sample.plain)
              Sample.store) = Sample.store
  /\ Forall (fun i => isRead (projT2 i) = true)
       (trace (exec Sample.handle (getTxListRoute (env := Sample.env) Sample.plain)
                 Sample.store)).
Proof.
  destruct (query_routes_read_only (env := Sample.env)
              Sample.conflicting (fun st => st) Sample.handle Sample.store)
    as [Hrejected _];
    [intros X op s' H; destruct op; try discriminate H; reflexivity |].
  destruct (query_routes_read_only (env := Sample.env)
              Sample.plain (fun st => st) Sample.handle Sample.store)
    as [Hlist _];
    [intros X op s' H; destruct op; try discriminate H; reflexivity |].
  destruct (Hrejected "/mempool" getMempoolTxListRoute) as [_ [_ H1]];
    [right; left; reflexivity |].
  destruct (Hlist "/" getTxListRoute) as [H2 [_ H3]]; [left; reflexivity |].
  split; [exact H1 | split; [exact H3 | exact H2]].
Defined.

(** ** The chain-state store *)

Section ChainStoreProperties.

Import ChainStore.

Lemma isStored_In (s : Store) (block : Block) :
  isStored s block = true <-> In (b_index_hash block) (map b_index_hash (blocks s)).
Proof.
  unfold isStored. rewrite existsb_exists, in_map_iff. split.
  - intros [b [Hin Heq]]. exists b. split; [| exact Hin].
    apply String.eqb_eq. exact Heq.
  - intros [b [Heq Hin]]. exists b. split; [exact Hin |].
    apply String.eqb_eq. exact Heq.
Qed.

(** Appending a stored block changes nothing. *)
Lemma appendBlock_stored (s : Store) (block : Block) (newTxs : list Tx) (newEvents : list Event) :
  isStored s block = true -> appendBlock s block newTxs newEvents = Ok s.
Proof.
  unfold appendBlock. intros ->. reflexivity.
Qed.

(** A commit stores the block, whatever the flags: a flip keeps the
    index-hashes. *)
Lemma commitBlock_stored (s : Store) (flip : Block -> Block)
      (block : Block) (newTxs : list Tx) (newEvents : list Event) :
  (forall b, b_index_hash (flip b) = b_index_hash b) ->
  isStored (commitBlock s flip block newTxs newEvents) block = true.
Proof.
  intros Hflip. apply isStored_In. simpl.
  rewrite map_map. rewrite (map_ext _ b_index_hash Hflip).
  rewrite map_app. apply in_or_app. right. left. reflexivity.
Qed.

Lemma only_index_hash (own : string) (c : bool) (b : Block) :
  b_index_hash (if (b_index_hash b =? own)%string then setBlockCanonical c b else b)
  = b_index_hash b.
Proof. destruct (b_index_hash b =? own)%string; reflexivity. Qed.

Lemma flipBlock_index_hash (ancestor : Block) (branch : list string) (b : Block) :
  b_index_hash (flipBlock ancestor branch b) = b_index_hash b.
Proof.
  unfold flipBlock. destruct (memStr _ _); [reflexivity |].
  destruct (b_canonical b && _); reflexivity.
Qed.

(** After a successful append the block is stored. *)
Lemma appendBlock_stores (s s' : Store) (block : Block)
      (newTxs : list Tx) (newEvents : list Event) :
  appendBlock s block newTxs newEvents = Ok s' -> isStored s' block = true.
Proof.
  unfold appendBlock.
  destruct (isStored s block) eqn:Hs.
  - intros E. inversion E; subst. exact Hs.
  - destruct (chainTip (blocks s)) as [tip |].
    + destruct (b_parent_index_hash block =? b_index_hash tip)%string.
      * intros E. inversion E. apply commitBlock_stored. intros b. apply only_index_hash.
      * destruct (b_height block <? b_height tip).
        -- intros E. inversion E. apply commitBlock_stored. intros b. apply only_index_hash.
        -- destruct (commonAncestor _ _ _ _) as [[ancestor branch] |]; [| discriminate].
           intros E. inversion E. apply commitBlock_stored. intros b.
           apply flipBlock_index_hash.
    + intros E. inversion E. apply commitBlock_stored. intros b. apply only_index_hash.
Qed.

(** The resolver on the sample store: [block3] extends the tip and mines the
    pending transaction; the competing [fork3] arrives later at the same
    height, takes the tip, and the transaction is pending again. *)
Example extension_sample :
  Sample.summary Sample.extended
  = Some (([("0xi1", true); ("0xi2", true); ("0xi3", true)],
           [("0xt1", true); ("0xm1", true)]),
          [], -255 + 40, 75 - 40 - 200).
Proof. reflexivity. Qed.

Example reorganization_sample :
  Sample.summary Sample.reorganized
  = Some (([("0xi1", true); ("0xi2", true); ("0xi3", false); ("0xj3", true)],
           [("0xt1", true); ("0xm1", false)]),
          ["0xm1"], -255, 75).
Proof. reflexivity. Qed.

(** C5. Appending a block whose index-hash is already stored is a no-op: the
    call succeeds and the store it leaves has the canonical flags, the
    balances and the mempool of the store before; and a block that has just
    been appended is such a block, so that delivering it again changes
    nothing. *)
Theorem appendBlock_replay_idempotent
  (s : Store) (block : Block) (newTxs : list Tx) (newEvents : list Event) :
  (In (b_index_hash block) (map b_index_hash (blocks s)) ->
   exists s',
     appendBlock s block newTxs newEvents = Ok s'
     /\ canonicalFlags s' = canonicalFlags s
     /\ (forall addr, balance s' addr = balance s addr)
     /\ mempool s' = mempool s
     /\ s' = s)
  /\ (forall s1 txs1 events1,
        appendBlock s block newTxs newEvents = Ok s1 ->
        appendBlock s1 block txs1 events1 = Ok s1).
Proof.
  split.
  - intros Hin. apply isStored_In in Hin. exists s.
    pose proof (appendBlock_stored s block newTxs newEvents Hin) as E.
    repeat split; auto.
  - intros s1 txs1 events1 E. apply appendBlock_stored.
    eapply appendBlock_stores. exact E.
Qed.

(** The stored second block again, and a new third block twice. *)
Lemma appendBlock_replay_idempotent_witness :
  appendBlock Sample.store Sample.block2 [Sample.tx1] [] = Ok Sample.store
  /\ (exists s1,
        appendBlock Sample.store Sample.block3 [Sample.tx3] [Sample.event3] = Ok s1
        /\ s1 <> Sample.store
        /\ appendBlock s1 Sample.block3 [Sample.tx3] [Sample.event3] = Ok s1).
Proof.
  split.
  - destruct (appendBlock_replay_idempotent Sample.store Sample.block2 [Sample.tx1] [])
      as [Hstored _].
    destruct Hstored as [s' [E [_ [_ [_ Hs]]]]]; [right; left; reflexivity |].
    rewrite <- Hs at 2. exact E.
  - destruct (appendBlock_replay_idempotent Sample.store Sample.block3
                [Sample.tx3] [Sample.event3]) as [_ Hreplay].
    eexists. split; [vm_compute; reflexivity |].
    split; [discriminate |].
    apply Hreplay. vm_compute. reflexivity.
Defined.

End ChainStoreProperties.

(** * Further properties of the routes *)

(** ** Refusals and answers *)

Section AnsweringProperties.

Context {env : Env}.

Lemma leaves_bind {A B : Type} (P : B -> Prop) (p : prog A) (f : A -> prog B) :
  (forall a, leaves P (f a)) -> leaves P (bind p f).
Proof.
  intros Hf. induction p as [a | e | X op k IH]; simpl.
  - apply Hf.
  - constructor.
  - constructor. intros x. apply IH.
Qed.

Lemma decides_bind_lift {A R : Type} (early late : R -> Prop) (r : result A) (f : A -> prog R) :
  (forall a, decides early late (f a)) -> decides early late (bind (lift r) f).
Proof. intros Hf. destruct r; simpl; [apply Hf | constructor]. Qed.

Lemma decides_bind_call {X R : Type} (early late : R -> Prop) (op : Op X) (f : X -> prog R) :
  (forall x, leaves late (f x)) -> decides early late (bind (call op) f).
Proof.
  intros Hf. unfold call. simpl. constructor. intros [x | e]; simpl; [apply Hf | constructor].
Qed.

Lemma leaves_exec {R S : Type} (P : R -> Prop) (h : handler S) (p : prog R) (s : S) (r : R) :
  leaves P p -> output (exec h p s) = Returned r -> P r.
Proof.
  intros Hp. revert s. induction Hp as [r' Hr | e | X op k Hk IH]; intros s; simpl.
  - intros E. inversion E; subst. exact Hr.
  - discriminate.
  - destruct (h X op s) as [x s']. simpl. apply IH.
Qed.

Lemma decides_exec {R S : Type} (early late : R -> Prop)
      (h : handler S) (p : prog R) (s : S) (r : R) :
  decides early late p ->
  output (exec h p s) = Returned r ->
  (early r /\ trace (exec h p s) = [] /\ final (exec h p s) = s)
  \/ (late r /\ trace (exec h p s) <> []).
Proof.
  intros Hp. destruct Hp as [r' Hr | e | X op k Hk]; simpl.
  - intros E. inversion E; subst. left. auto.
  - discriminate.
  - destruct (h X op s) as [x s'] eqn:Hx. simpl. intros E. right. split.
    + eapply leaves_exec; [apply Hk | exact E].
    + discriminate.
Qed.

Ltac refusal_or_answer :=
  first
    [ left; eexists; reflexivity
    | right; eexists; reflexivity ].

Ltac leaves_step :=
  first
    [ apply leaves_Ret; unfold answer; refusal_or_answer
    | apply leaves_Throw
    | match goal with
      | |- leaves _ (match ?x with _ => _ end) => destruct x
      end
    | apply leaves_bind; intros ? ].

Ltac decides_step :=
  first
    [ apply decides_Ret; unfold refusal; refusal_or_answer
    | apply decides_Throw
    | apply decides_bind_lift; intros ?
    | apply decides_bind_call; intros ?; repeat leaves_step
    | match goal with
      | |- decides _ _ (match ?x with _ => _ end) => destruct x
      end ].

(** Each query route refuses before it asks the store and answers after. *)
Lemma queryRoute_decides (qr : QueryRoute) (req : Request) :
  decides refusal answer (queryRoute qr req).
Proof.
  destruct qr as [[| | | | |] |]; simpl;
    unfold getTxListRoute, getMempoolTxListRoute, getDroppedTxsRoute, getTxRoute,
      getRewardsRoute, getRewardsForAddressRoute, getRewardsTotalRoute;
    cbv zeta; repeat decides_step.
Qed.

(** X1. The responses of the query handlers. A handler of the two routers
    that answers with a response sends a 200, a 400, a 404 or a redirect and
    nothing else, and the body of a 400 or a 404 is an object with the one
    property [error], a string. *)
Theorem query_responses_are_200_400_404_or_redirect
  (path : string) (route : Request -> prog Response) (req : Request)
  {S : Type} (h : handler S) (s : S) (r : Response) :
  In (path, Responding route) (createTxRouter ++ createBurnchainRouter) ->
  output (exec h (route req) s) = Returned r ->
  (exists body, r = Json 200 body)
  \/ (exists msg, r = Json 400 (JObject [("error", JString msg)]))
  \/ (exists msg, r = Json 404 (JObject [("error", JString msg)]))
  \/ (exists location, r = Redirect location).
Proof.
  intros Hin Hout.
  destruct (responding_queryRoute path route Hin) as [qr ->].
  destruct (decides_exec refusal answer h _ s r (queryRoute_decides qr req) Hout)
    as [[[Hr | Hr] _] | [[Ha | Ha] _]]; auto.
Qed.

(** X2. Refusals come before the store, answers after. When a query handler
    sends a 400 or a redirect it has asked nothing of the data store (and the
    store is as it was); when it sends a 200 or a 404 it has asked the store
    at least once. *)
Theorem refusals_precede_the_store
  (path : string) (route : Request -> prog Response) (req : Request)
  {S : Type} (h : handler S) (s : S) (r : Response) :
  In (path, Responding route) (createTxRouter ++ createBurnchainRouter) ->
  output (exec h (route req) s) = Returned r ->
  ((exists body, r = Json 400 body) \/ (exists location, r = Redirect location) ->
   trace (exec h (route req) s) = [] /\ final (exec h (route req) s) = s)
  /\ ((exists body, r = Json 200 body) \/ (exists body, r = Json 404 body) ->
      trace (exec h (route req) s) <> []).
Proof.
  intros Hin Hout.
  destruct (responding_queryRoute path route Hin) as [qr ->].
  destruct (decides_exec refusal answer h _ s r (queryRoute_decides qr req) Hout)
    as [[Hr [Ht Hf]] | [Ha Ht]].
  - split; [auto |]. intros [[body ->] | [body ->]];
      destruct Hr as [[msg E] | [loc E]]; discriminate.
  - split; [| auto]. intros [[body ->] | [loc ->]];
      destruct Ha as [[b E] | [msg E]]; discriminate.
Qed.

End AnsweringProperties.

(** The refused and the answered sample requests. *)
Lemma query_responses_are_200_400_404_or_redirect_witness :
  exists msg,
    output (exec Sample.handle (getTxRoute (env := Sample.env) Sample.unknownTx) Sample.store)
    = Returned (Json 404 (JObject [("error", JString msg)])).
Proof.
  destruct (query_responses_are_200_400_404_or_redirect (env := Sample.env)
              "/:tx_id" getTxRoute Sample.unknownTx Sample.handle Sample.store
              (Json 404 (errorBody "could not find transaction by ID 0xffff")))
    as [[body E] | [[msg E] | [[msg E] | [loc E]]]];
    [do 4 right; left; reflexivity | reflexivity | | | |]; try discriminate E.
  exists msg. rewrite <- E. reflexivity.
Defined.

Lemma refusals_precede_the_store_witness :
  trace (exec Sample.handle
           (getMempoolTxListRoute (env := Sample.env) Sample.conflicting) Sample.store) = []
  /\ trace (exec Sample.handle (getTxRoute (env := Sample.env) Sample.unknownTx)
              Sample.store) <> [].
Proof.
  destruct (refusals_precede_the_store (env := Sample.env)
              "/mempool" getMempoolTxListRoute Sample.conflicting
              Sample.handle Sample.store (Json 400 (errorBody exclusiveFilterMessage)))
    as [Hrefused _]; [right; left; reflexivity | reflexivity |].
  destruct (refusals_precede_the_store (env := Sample.env)
              "/:tx_id" getTxRoute Sample.unknownTx Sample.handle Sample.store
              (Json 404 (errorBody "could not find transaction by ID 0xffff")))
    as [_ Hanswered]; [do 4 right; left; reflexivity | reflexivity |].
  split.
  - apply Hrefused. left. eexists. reflexivity.
  - apply Hanswered. right. eexists. reflexivity.
Defined.

(** ** The lookups of the transaction list *)

Section TxListProperties.

Context {env : Env}.

Lemma exec_fullTx {S : Type} (h : handler S) (s : S) (tx : DbTx) (q : TxQuery) :
  answers h s (GetTxFromDataStore (tx_id tx) None None) q ->
  exec h (fullTx tx) s
  = {| output := match q with Found result => Returned result | NotFound => Thrown notFoundError end;
       final := s;
       trace := [lookupOf tx] |}.
Proof.
  intros Hq. unfold answers in Hq. unfold fullTx. rewrite exec_bind, exec_call.
  rewrite Hq. cbn. rewrite ?Hq. destruct q; reflexivity.
Qed.

(** The lookups of rows that are all found. *)
Lemma exec_mapSeries_found {S : Type} (h : handler S) (s : S)
      (rows : list DbTx) (found : DbTx -> json) :
  (forall tx, In tx rows ->
     answers h s (GetTxFromDataStore (tx_id tx) None None) (Found (found tx))) ->
  exec h (mapSeries rows fullTx) s
  = {| output := Returned (map found rows); final := s; trace := map lookupOf rows |}.
Proof.
  induction rows as [| tx rows IH]; intros Hfound.
  - reflexivity.
  - cbn [mapSeries]. rewrite exec_bind.
    rewrite (exec_fullTx h s tx _ (Hfound tx (or_introl eq_refl))). cbn [output final trace].
    rewrite exec_bind, IH. 2:{ intros tx' Hin. apply Hfound. right. exact Hin. }
    cbn. rewrite app_nil_r. reflexivity.
Qed.

(** The lookups up to the first row that is not found. *)
Lemma exec_mapSeries_missing {S : Type} (h : handler S) (s : S)
      (before rest : list DbTx) (tx : DbTx) (found : DbTx -> json) :
  (forall tx', In tx' before ->
     answers h s (GetTxFromDataStore (tx_id tx') None None) (Found (found tx'))) ->
  answers h s (GetTxFromDataStore (tx_id tx) None None) NotFound ->
  exec h (mapSeries (before ++ tx :: rest) fullTx) s
  = {| output := Thrown notFoundError; final := s;
       trace := map lookupOf (before ++ [tx]) |}.
Proof.
  induction before as [| tx0 before IH]; intros Hfound Hmissing.
  - cbn [app mapSeries]. rewrite exec_bind, (exec_fullTx h s tx _ Hmissing). reflexivity.
  - cbn [app mapSeries]. rewrite exec_bind.
    rewrite (exec_fullTx h s tx0 _ (Hfound tx0 (or_introl eq_refl))). cbn [output final trace].
    rewrite exec_bind, IH; [reflexivity | | exact Hmissing].
    intros tx' Hin. apply Hfound. right. exact Hin.
Qed.

(** The list route once its parameters parse and the store has listed. *)
Lemma exec_txList {S : Type} (h : handler S) (s : S) (req : Request)
      (limit offset : Z) (txTypeFilter : list TransactionType) (page : Paged DbTx) :
  txPaging req limit offset ->
  txTypeFilterOf (q_type (query req)) = Ok txTypeFilter ->
  answers h s (GetTxList offset limit txTypeFilter) page ->
  exec h (getTxListRoute req) s
  = let lookups := exec h (mapSeries (results page) fullTx) s in
    {| output :=
         match output lookups with
         | Returned results =>
             let response := listResponse limit offset (total page) results in
             match (if negb isProdEnv then validate getTransactionsSchema response
                    else Ok tt) with
             | Ok _ => Returned (Json 200 response)
             | Err e => Thrown e
             end
         | Thrown e => Thrown e
         end;
       final := final lookups;
       trace := existT _ _ (GetTxList offset limit txTypeFilter) :: trace lookups |}.
Proof.
  intros [Hl Ho] Hf Hpage. unfold answers in Hpage. unfold getTxListRoute.
  rewrite paged_prefix, Hl, Ho, Hf. cbn [lift bind].
  rewrite exec_bind, exec_call, !Hpage. cbn [fst snd output final trace].
  rewrite exec_bind. cbv zeta.
  destruct (exec h (mapSeries (results page) fullTx) s) as [[rs | e] s' t];
    cbn [output final trace]; [| reflexivity].
  rewrite exec_bind.
  destruct (negb isProdEnv); cbn [lift].
  - destruct (validate _ _) as [[] | e]; cbn; rewrite ?app_nil_r; reflexivity.
  - cbn. rewrite ?app_nil_r. reflexivity.
Qed.

(** X3. One lookup per listed row. When the store lists a page and finds
    every row of it, the list route has asked [getTxList] once and then
    [getTxFromDataStore] once for each row, in the order of the page, and
    nothing else; this is so whether or not the response then passes the
    schema validation. *)
Theorem txList_one_lookup_per_row
  (req : Request) {S : Type} (h : handler S) (s : S)
  (limit offset : Z) (txTypeFilter : list TransactionType) (page : Paged DbTx)
  (found : DbTx -> json) :
  txPaging req limit offset ->
  txTypeFilterOf (q_type (query req)) = Ok txTypeFilter ->
  answers h s (GetTxList offset limit txTypeFilter) page ->
  (forall tx, In tx (results page) ->
     answers h s (GetTxFromDataStore (tx_id tx) None None) (Found (found tx))) ->
  trace (exec h (getTxListRoute req) s)
  = existT _ _ (GetTxList offset limit txTypeFilter) :: map lookupOf (results page)
  /\ List.length (trace (exec h (getTxListRoute req) s))
     = (1 + List.length (results page))%nat
  /\ final (exec h (getTxListRoute req) s) = s.
Proof.
  intros Hp Hf Hpage Hfound.
  rewrite (exec_txList h s req _ _ _ _ Hp Hf Hpage). cbv zeta.
  rewrite (exec_mapSeries_found h s _ found Hfound). cbn [output final trace].
  repeat split. cbn [List.length]. rewrite length_map. reflexivity.
Qed.

(** X4. A listed row that is not found. When the store lists a page and
    does not find one of its rows, the list route throws the error
    "unexpected tx not found" and sends no response; the rows before the
    missing one have been looked up, the rows after it have not. *)
Theorem txList_missing_row_throws
  (req : Request) {S : Type} (h : handler S) (s : S)
  (limit offset : Z) (txTypeFilter : list TransactionType) (page : Paged DbTx)
  (before rest : list DbTx) (tx : DbTx) (found : DbTx -> json) :
  txPaging req limit offset ->
  txTypeFilterOf (q_type (query req)) = Ok txTypeFilter ->
  answers h s (GetTxList offset limit txTypeFilter) page ->
  results page = before ++ tx :: rest ->
  (forall tx', In tx' before ->
     answers h s (GetTxFromDataStore (tx_id tx') None None) (Found (found tx'))) ->
  answers h s (GetTxFromDataStore (tx_id tx) None None) NotFound ->
  output (exec h (getTxListRoute req) s)
  = Thrown (Error "unexpected tx not found -- fix tx enumeration query")
  /\ trace (exec h (getTxListRoute req) s)
     = existT _ _ (GetTxList offset limit txTypeFilter) :: map lookupOf (before ++ [tx]).
Proof.
  intros Hp Hf Hpage Hrows Hfound Hmissing.
  rewrite (exec_txList h s req _ _ _ _ Hp Hf Hpage). cbv zeta. rewrite Hrows.
  rewrite (exec_mapSeries_missing h s before rest tx found Hfound Hmissing).
  split; reflexivity.
Qed.

(** X5. A response that fails the schema. Outside production the list
    route validates its response against the schema of the transaction list
    after all the lookups; when the validation fails, the route throws the
    validation's error and the response is not sent. In production the
    validation is not run. *)
Theorem txList_invalid_response_throws
  (req : Request) {S : Type} (h : handler S) (s : S)
  (limit offset : Z) (txTypeFilter : list TransactionType) (page : Paged DbTx)
  (found : DbTx -> json) (e : JsError) :
  txPaging req limit offset ->
  txTypeFilterOf (q_type (query req)) = Ok txTypeFilter ->
  answers h s (GetTxList offset limit txTypeFilter) page ->
  (forall tx, In tx (results page) ->
     answers h s (GetTxFromDataStore (tx_id tx) None None) (Found (found tx))) ->
  validate getTransactionsSchema
    (listResponse limit offset (total page) (map found (results page))) = Err e ->
  output (exec h (getTxListRoute req) s)
  = if isProdEnv
    then Returned (Json 200 (listResponse limit offset (total page)
                               (map found (results page))))
    else Thrown e.
Proof.
  intros Hp Hf Hpage Hfound Hinvalid.
  rewrite (exec_txList h s req _ _ _ _ Hp Hf Hpage). cbv zeta.
  rewrite (exec_mapSeries_found h s _ found Hfound). cbn [output final trace].
  destruct isProdEnv; cbn [negb]; [reflexivity |]. rewrite Hinvalid. reflexivity.
Qed.

End TxListProperties.

(** The one row of the sample store, found. *)
Lemma txList_one_lookup_per_row_witness :
  trace (exec Sample.handle (getTxListRoute (env := Sample.env) Sample.plain) Sample.store)
  = [existT _ _ (GetTxList (env := Sample.env) 0 96 []);
     existT _ _ (GetTxFromDataStore (env := Sample.env) "0xt1" None None)].
Proof.
  destruct (txList_one_lookup_per_row (env := Sample.env) Sample.plain
              Sample.handle Sample.store 96 0 []
              (ChainStore.getTxList Sample.store 0 96 [])
              (fun tx : ChainStore.Tx =>
                 ChainStore.txJson tx (ChainStore.eventsOf Sample.store tx)))
    as [H _]; [split; reflexivity | reflexivity | reflexivity | | exact H].
  intros tx [<- | []]. reflexivity.
Defined.

(** The one row of the sample store, not found by a store that finds none. *)
Lemma txList_missing_row_throws_witness :
  output (exec MoreSamples.forgetful (getTxListRoute (env := Sample.env) Sample.plain)
            Sample.store)
  = Thrown (Error "unexpected tx not found -- fix tx enumeration query").
Proof.
  destruct (txList_missing_row_throws (env := Sample.env) Sample.plain
              MoreSamples.forgetful Sample.store 96 0 []
              (ChainStore.getTxList Sample.store 0 96 [])
              [] [] Sample.tx1 (fun _ => JNull))
    as [H _];
    [split; reflexivity | reflexivity | reflexivity | reflexivity
    | intros tx' [] | reflexivity | exact H].
Defined.

(** Outside production, with a schema that the response fails. *)
Lemma txList_invalid_response_throws_witness :
  output (exec MoreSamples.fixed (getTxListRoute (env := MoreSamples.strictEnv) Sample.plain)
            tt)
  = Thrown MoreSamples.schemaError.
Proof.
  exact (txList_invalid_response_throws (env := MoreSamples.strictEnv) Sample.plain
           MoreSamples.fixed tt 96 0 [] {| results := [Sample.tx1]; total := 1 |}
           (fun tx : ChainStore.Tx => JString (ChainStore.t_tx_id tx))
           MoreSamples.schemaError
           (conj eq_refl eq_refl) eq_refl eq_refl
           (fun tx _ => eq_refl) eq_refl).
Defined.

(** ** The subscription route and its listener *)

Section StreamProperties.

Context {env : Env}.

(** X6. Only [eventsource] streams. For any [protocol] other than the string
    [eventsource] the stream handler throws before it writes a header or
    registers a listener: "WebSocket stream not yet implemented" for
    [websocket], "Unsupported stream protocol" with the value for anything
    else, a missing value included. *)
Theorem stream_only_for_eventsource
  (req : Request) {S : Type} (h : handler S) (s : S) :
  isProtocol (q_protocol (query req)) "eventsource" = false ->
  output (exec h (streamRoute req) s)
  = Thrown (Error
      (if isProtocol (q_protocol (query req)) "websocket"
       then "WebSocket stream not yet implemented"
       else "Unsupported stream protocol " +++ Js.dquote
            +++ protocolToString (q_protocol (query req)) +++ Js.dquote))
  /\ trace (exec h (streamRoute req) s) = []
  /\ final (exec h (streamRoute req) s) = s.
Proof.
  intros H. unfold streamRoute. cbv zeta. rewrite H.
  destruct (isProtocol (q_protocol (query req)) "websocket"); simpl; auto.
Qed.

(** X7. A subscription removes its listener. With [protocol=eventsource] the
    handler writes the event-stream header, registers the [txUpdate]
    listener, waits for the response to close and removes the listener, in
    that order: every run makes a non-empty initial part of these four
    operations, and a run that returns has made all four, so that no listener
    of a finished subscription stays registered. *)
Theorem stream_session
  (req : Request) {S : Type} (h : handler S) (s : S) :
  isProtocol (q_protocol (query req)) "eventsource" = true ->
  (exists n, (1 <= n <= 4)%nat /\ trace (exec h (streamRoute req) s) = firstn n streamSession)
  /\ (output (exec h (streamRoute req) s) = Returned tt ->
      trace (exec h (streamRoute req) s) = streamSession).
Proof.
  intros H. unfold streamRoute. cbv zeta. rewrite H. cbn [negb andb].
  unfold call. cbn [bind lift]. cbn [exec].
  destruct (h unit (ResWriteHead _ _) s) as [[[] | e1] s1]; cbn.
  2:{ split; [exists 1%nat; split; [lia | reflexivity] | discriminate]. }
  destruct (h unit (AddListener _) s1) as [[[] | e2] s2]; cbn.
  2:{ split; [exists 2%nat; split; [lia | reflexivity] | discriminate]. }
  destruct (h unit AwaitClose s2) as [[[] | e3] s3]; cbn.
  2:{ split; [exists 3%nat; split; [lia | reflexivity] | discriminate]. }
  destruct (h unit (RemoveListener _) s3) as [[[] | e4] s4]; cbn.
  - split; [exists 4%nat; split; [lia | reflexivity] | reflexivity].
  - split; [exists 4%nat; split; [lia | reflexivity] | discriminate].
Qed.

(** X8. The listener never throws. Whatever the data store and the response
    stream do (a rejected lookup, a transaction that is not found, a write
    that fails), the listener of the subscription returns: every error is
    caught and handed to the log. The one assumption is that logging itself
    does not fail. *)
Theorem dbTxUpdate_never_throws
  (useEventSource : bool) (txId : string) {S : Type} (h : handler S) (s : S) :
  (forall msg e s', fst (h unit (LogError msg e) s') = Ok tt) ->
  output (exec h (dbTxUpdate useEventSource txId) s) = Returned tt.
Proof.
  intros Hlog.
  assert (Hl : forall msg e s',
    output (exec h (call (LogError msg e)) s') = Returned tt).
  { intros msg e s'. rewrite exec_call. cbn. rewrite Hlog. reflexivity. }
  unfold dbTxUpdate. unfold call at 1. cbn [bind catch lift]. cbn [exec].
  destruct (h TxQuery _ s) as [[[result |] | e] s1]; cbn [lift bind catch].
  - destruct useEventSource.
    + unfold call at 1. cbn [bind catch lift]. cbn [exec].
      destruct (h unit (ResWrite _) s1) as [[[] | e1] s2]; cbn [lift bind catch].
      * unfold call at 1. cbn [bind catch lift]. cbn [exec].
        destruct (h unit ResFlush s2) as [[[] | e2] s3]; cbn [lift bind catch output].
        -- reflexivity.
        -- apply Hl.
      * cbn [output]. apply Hl.
    + reflexivity.
  - cbn [output]. apply Hl.
  - cbn [output]. apply Hl.
Qed.

(** X9. What the listener writes and logs. The listener writes to the
    response only for a transaction that the lookup found, and then exactly
    one server-sent event, [event: tx] with the transaction as its data; for
    a transaction that is not found it writes nothing and logs "error
    streaming tx updates" with the error "error in tx stream, tx not
    found". *)
Theorem dbTxUpdate_writes_found_transactions
  (useEventSource : bool) (txId : string) {S : Type} (h : handler S) (s : S) :
  let r := exec h (dbTxUpdate useEventSource txId) s in
  let lookup := GetTxFromDataStore txId None None in
  (written (trace r) = []
   \/ (useEventSource = true
       /\ exists result,
            fst (h _ lookup s) = Ok (Found result)
            /\ written (trace r) = [txEvent result]))
  /\ (fst (h _ lookup s) = Ok NotFound ->
      written (trace r) = []
      /\ logged (trace r)
         = [("error streaming tx updates", Error "error in tx stream, tx not found")]).
Proof.
  cbv zeta. unfold dbTxUpdate, call. cbn [bind catch lift exec].
  destruct (h TxQuery _ s) as [[[result |] | e] s1];
    cbn [lift bind catch fst exec output final trace].
  - split; [| discriminate].
    destruct useEventSource; [| left; reflexivity].
    right. split; [reflexivity |]. exists result. split; [reflexivity |].
    cbn [lift bind catch fst exec output final trace].
    destruct (h unit (ResWrite _) s1) as [[[] | e1] s2];
      cbn [lift bind catch fst exec output final trace].
    + destruct (h unit ResFlush s2) as [[[] | e2] s3];
        cbn [lift bind catch fst exec output final trace].
      * reflexivity.
      * destruct (h unit (LogError _ _) s3) as [[[] | e3] s4]; reflexivity.
    + destruct (h unit (LogError _ _) s2) as [[[] | e3] s4]; reflexivity.
  - split; [left | intros _; split];
      destruct (h unit (LogError _ _) s1) as [[[] | e3] s4]; reflexivity.
  - split; [left | discriminate].
    destruct (h unit (LogError _ _) s1) as [[[] | e3] s4]; reflexivity.
Qed.

End StreamProperties.

(** [protocol=websocket] and [protocol=sse] on the sample store. *)
Lemma stream_only_for_eventsource_witness :
  output (exec Sample.handle
            (streamRoute (env := Sample.env) (MoreSamples.subscribe (Some "websocket")))
            Sample.store)
  = Thrown (Error "WebSocket stream not yet implemented")
  /\ trace (exec Sample.handle
              (streamRoute (env := Sample.env) (MoreSamples.subscribe (Some "sse")))
              Sample.store) = [].
Proof.
  destruct (stream_only_for_eventsource (env := Sample.env)
              (MoreSamples.subscribe (Some "websocket")) Sample.handle Sample.store)
    as [H1 _]; [reflexivity |].
  destruct (stream_only_for_eventsource (env := Sample.env)
              (MoreSamples.subscribe (Some "sse")) Sample.handle Sample.store)
    as [_ [H2 _]]; [reflexivity |].
  split; [exact H1 | exact H2].
Defined.

(** A subscription on the sample store that runs to its end. *)
Lemma stream_session_witness :
  trace (exec Sample.handle
           (streamRoute (env := Sample.env) (MoreSamples.subscribe (Some "eventsource")))
           Sample.store)
  = streamSession.
Proof.
  destruct (stream_session (env := Sample.env)
              (MoreSamples.subscribe (Some "eventsource")) Sample.handle Sample.store)
    as [_ H]; [reflexivity |].
  apply H. reflexivity.
Defined.

(** The listener on a store that finds nothing. *)
Lemma dbTxUpdate_never_throws_witness :
  output (exec MoreSamples.forgetful (dbTxUpdate (env := Sample.env) true "0xt1")
            Sample.store)
  = Returned tt.
Proof.
  apply (dbTxUpdate_never_throws (env := Sample.env) true "0xt1"
           MoreSamples.forgetful Sample.store).
  intros msg e s'. reflexivity.
Defined.

(** The listener for a stored transaction, and on a store that finds
    nothing. *)
Lemma dbTxUpdate_writes_found_transactions_witness :
  List.length (written (trace (exec Sample.handle
                                 (dbTxUpdate (env := Sample.env) true "0xt1")
                                 Sample.store))) = 1%nat
  /\ logged (trace (exec MoreSamples.forgetful (dbTxUpdate (env := Sample.env) true "0xt1")
                      Sample.store))
     = [("error streaming tx updates", Error "error in tx stream, tx not found")].
Proof.
  destruct (dbTxUpdate_writes_found_transactions (env := Sample.env) true "0xt1"
              Sample.handle Sample.store) as [[Hnone | [_ [result [_ Hone]]]] _].
  - vm_compute in Hnone. discriminate Hnone.
  - destruct (dbTxUpdate_writes_found_transactions (env := Sample.env) true "0xt1"
                MoreSamples.forgetful Sample.store) as [_ Hmissing].
    destruct (Hmissing eq_refl) as [_ Hlog].
    split; [rewrite Hone; reflexivity | exact Hlog].
Defined.

(** ** Address parameters *)

Lemma trimStart_head (s : string) :
  match Js.trimStart s with
  | EmptyString => True
  | String c _ => Js.isWhiteSpace c = false
  end.
Proof.
  induction s as [| c s IH]; simpl; [exact I |].
  destruct (Js.isWhiteSpace c) eqn:E; [exact IH | exact E].
Qed.

Lemma trimStart_fixed (s : string) :
  match s with
  | EmptyString => True
  | String c _ => Js.isWhiteSpace c = false
  end ->
  Js.trimStart s = s.
Proof. destruct s as [| c s]; simpl; [reflexivity | intros ->; reflexivity]. Qed.

Lemma trimEnd_head (c : ascii) (s : string) :
  Js.isWhiteSpace c = false -> exists t, Js.trimEnd (String c s) = String c t.
Proof.
  intros H. simpl. destruct (Js.trimEnd s) as [| d t].
  - rewrite H. eexists. reflexivity.
  - eexists. reflexivity.
Qed.

Lemma trimEnd_idempotent (s : string) : Js.trimEnd (Js.trimEnd s) = Js.trimEnd s.
Proof.
  induction s as [| c s IH]; [reflexivity |].
  simpl. destruct (Js.trimEnd s) as [| d t] eqn:E.
  - destruct (Js.isWhiteSpace c) eqn:Hc; simpl; [reflexivity | rewrite Hc; reflexivity].
  - change (Js.trimEnd (String c (String d t))) with
      (match Js.trimEnd (String d t) with
       | EmptyString => if Js.isWhiteSpace c then EmptyString else String c EmptyString
       | t' => String c t'
       end).
    rewrite IH. reflexivity.
Qed.

(** Trimming what is trimmed changes nothing. *)
Lemma trim_idempotent (s : string) : Js.trim (Js.trim s) = Js.trim s.
Proof.
  unfold Js.trim.
  assert (H : Js.trimStart (Js.trimEnd (Js.trimStart s)) = Js.trimEnd (Js.trimStart s)).
  { apply trimStart_fixed. pose proof (trimStart_head s) as Hh.
    destruct (Js.trimStart s) as [| c u]; [exact I |].
    destruct (trimEnd_head c u Hh) as [t ->]. exact Hh. }
  rewrite H. apply trimEnd_idempotent.
Qed.

Section AddressProperties.

Context {env : Env}.

Lemma addrParam_withoutEmptyFilters (req : Request) (p : string) :
  addrParam (withoutEmptyFilters req) p = addrParam req p.
Proof.
  unfold addrParam, addr_param. cbn [withoutEmptyFilters query q_sender_address
    q_recipient_address q_address].
  destruct (p =? "sender_address")%string.
  { destruct (q_sender_address (query req)) as [a |]; [| reflexivity].
    cbn [dropEmpty]. destruct (Js.truthy a) eqn:E; [rewrite E |]; reflexivity. }
  destruct (p =? "recipient_address")%string.
  { destruct (q_recipient_address (query req)) as [a |]; [| reflexivity].
    cbn [dropEmpty]. destruct (Js.truthy a) eqn:E; [rewrite E |]; reflexivity. }
  destruct (p =? "address")%string; [| reflexivity].
  destruct (q_address (query req)) as [a |]; [| reflexivity].
  cbn [dropEmpty]. destruct (Js.truthy a) eqn:E; [rewrite E |]; reflexivity.
Qed.

(** X10. An empty address filter is no filter. The mempool handler does for
    a request with [sender_address=], [recipient_address=] or [address=]
    (the parameter present, its value empty) exactly what it does for the
    request without that parameter: it neither validates the empty value nor
    counts it as a filter in the test of the combination. *)
Theorem mempool_empty_filter_is_absent (req : Request) :
  getMempoolTxListRoute (withoutEmptyFilters req) = getMempoolTxListRoute req.
Proof.
  unfold getMempoolTxListRoute.
  cbn [mapResult]. rewrite !addrParam_withoutEmptyFilters. reflexivity.
Qed.

(** X11. The address routes answer for the trimmed address. Both reward
    routes for an address give, for an address with blanks around it, the
    answer they give for the address without them, the address in the
    message of a 400 included. *)
Theorem reward_routes_ignore_surrounding_blanks (req : Request) :
  getRewardsForAddressRoute (withAddress req (Js.trim (p_address (params req))))
  = getRewardsForAddressRoute req
  /\ getRewardsTotalRoute (withAddress req (Js.trim (p_address (params req))))
     = getRewardsTotalRoute req.
Proof.
  unfold getRewardsForAddressRoute, getRewardsTotalRoute.
  cbn [withAddress params query p_address]. rewrite trim_idempotent. split; reflexivity.
Qed.

(** X12. The two address routes accept the same addresses. Once the paging
    parameters of the list parse, the reward list for an address answers 400
    exactly when the reward total for that address does, and with the same
    body. *)
Theorem reward_routes_refuse_alike
  (req : Request) {S : Type} (h : handler S) (s : S) (limit offset : Z) (body : json) :
  blockPaging req limit offset ->
  output (exec h (getRewardsForAddressRoute req) s) = Returned (Json 400 body)
  <-> output (exec h (getRewardsTotalRoute req) s) = Returned (Json 400 body).
Proof.
  intros [Hl Ho]. unfold getRewardsForAddressRoute, getRewardsTotalRoute.
  rewrite paged_prefix, Hl, Ho. cbv zeta.
  destruct (burnchainAddressOf _) as [b |]; [| split; intros E; exact E].
  destruct (Js.truthy b); cbn [negb]; [| split; intros E; exact E].
  rewrite !output_exec_call.
  destruct (fst (h _ (GetBurnchainRewards (Some b) offset limit) s));
    destruct (fst (h _ (GetBurnchainRewardsTotal b) s)); cbn; split; discriminate.
Qed.

(** X13. The JSON of a reward loses nothing. Two rows with the same
    [BurnchainReward] are the same row: the two amounts, written as decimal
    strings, and the five other properties determine the row. *)
Theorem burnchainReward_injective (r1 r2 : DbBurnchainReward) :
  burnchainReward r1 = burnchainReward r2 -> r1 = r2.
Proof.
  destruct r1 as [c1 h1 n1 b1 p1 a1 i1], r2 as [c2 h2 n2 b2 p2 a2 i2].
  unfold burnchainReward. cbn [canonical burn_block_hash burn_block_height burn_amount
    reward_recipient reward_amount reward_index].
  intros E. inversion E as [[Hc Hh Hn Hb Hp Ha Hi]].
  assert (Hb' : Some b1 = Some b2)
    by (rewrite <- (toString_decimal b1), <- (toString_decimal b2), Hb; reflexivity).
  assert (Ha' : Some a1 = Some a2)
    by (rewrite <- (toString_decimal a1), <- (toString_decimal a2), Ha; reflexivity).
  inversion Hb'. inversion Ha'. reflexivity.
Qed.

End AddressProperties.

(** [address=] beside a sender is the sender alone. *)
Lemma mempool_empty_filter_is_absent_witness :
  getMempoolTxListRoute (env := Sample.env)
    (Sample.request (Sample.filtered (Some Sample.bob) None (Some "")) "" "")
  = getMempoolTxListRoute (env := Sample.env)
      (Sample.request (Sample.filtered (Some Sample.bob) None None) "" "").
Proof.
  exact (mempool_empty_filter_is_absent (env := Sample.env)
           (Sample.request (Sample.filtered (Some Sample.bob) None (Some "")) "" "")).
Defined.

(** The sample address with and without its blanks. *)
Lemma reward_routes_ignore_surrounding_blanks_witness :
  getRewardsTotalRoute (env := Sample.env) (Sample.request Sample.noQuery "" Sample.btcAddr)
  = getRewardsTotalRoute (env := Sample.env) Sample.forBitcoin.
Proof.
  exact (proj2 (reward_routes_ignore_surrounding_blanks (env := Sample.env)
                  Sample.forBitcoin)).
Defined.

(** Neither route takes [nonsense]. *)
Lemma reward_routes_refuse_alike_witness :
  output (exec Sample.handle (getRewardsForAddressRoute (env := Sample.env) Sample.forNeither)
            Sample.store)
  = Returned (Json 400 (invalidAddressBody "nonsense")).
Proof.
  apply (reward_routes_refuse_alike (env := Sample.env) Sample.forNeither
           Sample.handle Sample.store 20 0 (invalidAddressBody "nonsense")).
  - split; reflexivity.
  - reflexivity.
Defined.

(** A row is found again from its JSON. *)
Lemma burnchainReward_injective_witness :
  Sample.reward 3 0 5000 = Sample.reward (1 + 2) 0 (2 * 2500).
Proof.
  apply (burnchainReward_injective (Sample.reward 3 0 5000)
           (Sample.reward (1 + 2) 0 (2 * 2500))).
  reflexivity.
Defined.

(** ** Rosetta request validation *)

Lemma endsWith_append (s t : string) : JsString.endsWith (s +++ t) t = true.
Proof.
  induction s as [| c s IH].
  - change (EmptyString +++ t) with t.
    destruct t; cbn [JsString.endsWith]; rewrite String.eqb_refl; reflexivity.
  - change (JsString.endsWith (String c s +++ t) t)
      with ((String c (s +++ t) =? t)%string || JsString.endsWith (s +++ t) t).
    rewrite IH. apply orb_true_r.
Qed.

Lemma length_append_one (s : string) (c : ascii) :
  (String.length (s +++ String c EmptyString) - 1)%nat = String.length s.
Proof.
  induction s as [| a s IH]; [reflexivity |].
  simpl. simpl in IH. destruct (String.length (s +++ String c EmptyString)) eqn:E.
  - destruct s; discriminate.
  - simpl in IH. rewrite Nat.sub_0_r in *. congruence.
Qed.

Lemma substring_append_prefix (s t : string) :
  String.substring 0 (String.length s) (s +++ t) = s.
Proof.
  induction s as [| a s IH]; simpl.
  - destruct t; reflexivity.
  - rewrite IH. reflexivity.
Qed.

Lemma dropLast_append (s : string) (c : ascii) :
  JsString.dropLast (s +++ String c EmptyString) = s.
Proof.
  unfold JsString.dropLast. rewrite length_append_one. apply substring_append_prefix.
Qed.

Section RosettaProperties.

Import Rosetta.

Context {env : Env} {renv : RosettaEnv}.

Lemma endpointOf_slash (url : string) : endpointOf (url +++ "/") = url.
Proof. unfold endpointOf. rewrite endsWith_append. apply dropLast_append. Qed.

Lemma rosettaValidateRequest_endpoint (url : string) (body : RosettaRequest) (chainId : ChainID) :
  rosettaValidateRequest url body chainId
  = match RosettaSchemas (endpointOf url) with
    | None =>
        ([LogWarnLine ("Schema validation:" +++ newline +++ newline
                       +++ " unknown endpoint: " +++ endpointOf url)],
         Ok accepted)
    | Some schemas =>
        match require_resolve (sf_request schemas) with
        | Err e => ([], Err e)
        | Ok path =>
            match validate path body with
            | (log, Err e) => (log, Err e)
            | (log, Ok valid) =>
                if negb (vs_valid valid) then (log, Ok valid)
                else (log, otherChecks body chainId)
            end
        end
    end.
Proof. reflexivity. Qed.

(** X14. One trailing slash of the url is not part of the endpoint. For a url
    that does not end in a slash, the validation of the request at the url
    with a slash appended is the validation at the url itself: the same
    result and the same lines in the log. *)
Theorem rosetta_trailing_slash_ignored
  (url : string) (body : RosettaRequest) (chainId : ChainID) :
  JsString.endsWith url "/" = false ->
  rosettaValidateRequest (url +++ "/") body chainId
  = rosettaValidateRequest url body chainId.
Proof.
  intros H. rewrite !rosettaValidateRequest_endpoint, endpointOf_slash.
  unfold endpointOf. rewrite H. reflexivity.
Qed.

Lemma validate_accepts (path : string) (body : RosettaRequest) (v : ValidSchema) :
  snd (validate path body) = Ok v -> vs_valid v = true ->
  v = accepted
  /\ exists schemaDef ajvErrors,
       dereferenceSchema path = Ok schemaDef
       /\ ajvValidate schemaDef body = Ok (true, ajvErrors).
Proof.
  unfold validate.
  destruct (dereferenceSchema path) as [schemaDef | e] eqn:E1; [| discriminate].
  destruct (ajvValidate schemaDef body) as [[valid errs] | e] eqn:E2; [| discriminate].
  destruct valid; cbn [negb].
  - intros [= <-] _. split; [reflexivity |]. exists schemaDef, errs. split; [reflexivity | exact E2].
  - destruct (firstMessage _); cbn [snd]; [| discriminate].
    intros [= <-]. discriminate.
Qed.

Lemma validate_rejects (path : string) (body : RosettaRequest) (v : ValidSchema) :
  snd (validate path body) = Ok v -> vs_errorType v = None.
Proof.
  unfold validate. destruct (dereferenceSchema path) as [schemaDef | e]; [| discriminate].
  destruct (ajvValidate schemaDef body) as [[valid errs] | e]; [| discriminate].
  destruct valid; cbn [negb].
  - intros [= <-]. reflexivity.
  - destruct (firstMessage _); cbn [snd]; [| discriminate].
    intros [= <-]. reflexivity.
Qed.

Lemma validate_accepted (path : string) (body : RosettaRequest)
  (schemaDef : Schema) (ajvErrors : option (list json)) :
  dereferenceSchema path = Ok schemaDef ->
  ajvValidate schemaDef body = Ok (true, ajvErrors) ->
  validate path body = ([], Ok accepted).
Proof. intros H1 H2. unfold validate. rewrite H1, H2. reflexivity. Qed.

Lemma otherChecks_accepted (body : RosettaRequest) (chainId : ChainID) :
  otherChecks body chainId = Ok accepted <-> passes body chainId.
Proof.
  unfold otherChecks, passes, networkChecks. split.
  - intros H.
    assert (Hn : forall ni, network_identifier body = Some ni ->
              RosettaConstants_blockchain = ni_blockchain ni
              /\ getRosettaNetworkName chainId = Ok (ni_network ni)).
    { intros ni E. rewrite E in H.
      destruct (RosettaConstants_blockchain =? ni_blockchain ni)%string eqn:Eb;
        cbn [negb] in H; [| discriminate].
      apply String.eqb_eq in Eb. split; [exact Eb |].
      destruct (getRosettaNetworkName chainId) as [name | e]; [| discriminate].
      destruct (name =? ni_network ni)%string eqn:En; cbn [negb] in H; [| discriminate].
      apply String.eqb_eq in En. rewrite En. reflexivity. }
    split; [exact Hn |].
    assert (H' :
      (if isSome (block_identifier body) && negb (validHexId (block_identifier body))
       then Ok (rejectedAs invalidBlockHash)
       else if isSome (transaction_identifier body)
               && negb (validHexId (transaction_identifier body))
       then Ok (rejectedAs invalidTransactionHash)
       else match account_identifier body with
            | Some ai => if negb (isValidC32Address (ai_address ai))
                         then Ok (rejectedAs invalidAccount) else Ok accepted
            | None => Ok accepted
            end) = Ok accepted).
    { destruct (network_identifier body) as [ni |]; [| exact H].
      destruct (Hn ni eq_refl) as [Eb En]. rewrite Eb, En, !String.eqb_refl in H.
      exact H. }
    clear H Hn.
    destruct (block_identifier body) as [b |]; cbn [isSome andb] in H'.
    + destruct (validHexId (Some b)); cbn [negb] in H'; [| discriminate].
      split; [reflexivity |].
      destruct (transaction_identifier body) as [t |]; cbn [isSome andb] in H'.
      * destruct (validHexId (Some t)); cbn [negb] in H'; [| discriminate].
        split; [reflexivity |]. intros ai E. rewrite E in H'.
        destruct (isValidC32Address (ai_address ai)); [reflexivity | discriminate].
      * split; [reflexivity |]. intros ai E. rewrite E in H'.
        destruct (isValidC32Address (ai_address ai)); [reflexivity | discriminate].
    + split; [reflexivity |].
      destruct (transaction_identifier body) as [t |]; cbn [isSome andb] in H'.
      * destruct (validHexId (Some t)); cbn [negb] in H'; [| discriminate].
        split; [reflexivity |]. intros ai E. rewrite E in H'.
        destruct (isValidC32Address (ai_address ai)); [reflexivity | discriminate].
      * split; [reflexivity |]. intros ai E. rewrite E in H'.
        destruct (isValidC32Address (ai_address ai)); [reflexivity | discriminate].
  - intros (Hn & Hb & Ht & Ha).
    rewrite Hb, Ht, !andb_false_r.
    assert (E : match network_identifier body with
                | Some ni =>
                    if negb (RosettaConstants_blockchain =? ni_blockchain ni)%string
                    then Ok (Some (rejectedAs invalidBlockchain))
                    else match getRosettaNetworkName chainId with
                         | Err e => Err e
                         | Ok name =>
                             if negb (name =? ni_network ni)%string
                             then Ok (Some (rejectedAs invalidNetwork))
                             else Ok None
                         end
                | None => Ok None
                end = Ok None).
    { destruct (network_identifier body) as [ni |]; [| reflexivity].
      destruct (Hn ni eq_refl) as [Eb En]. rewrite Eb, En, !String.eqb_refl. reflexivity. }
    rewrite E.
    destruct (account_identifier body) as [ai |]; [| reflexivity].
    rewrite (Ha ai eq_refl). reflexivity.
Qed.

(** X15. What the validation accepts. A request is answered [{valid: true}]
    in exactly two cases: its url, less one trailing slash, is not in the
    schema table; or the request schema of the endpoint resolves, loads and
    accepts the body, and the body passes the other checks: the blockchain
    and the network of a [network_identifier] are those of the node, the
    hashes of a [block_identifier] and of a [transaction_identifier] are
    valid, and the address of an [account_identifier] is a valid c32
    address. *)
Theorem rosetta_request_accepted_iff
  (url : string) (body : RosettaRequest) (chainId : ChainID) :
  snd (rosettaValidateRequest url body chainId) = Ok accepted
  <-> RosettaSchemas (endpointOf url) = None
      \/ (schemaAccepts url body /\ passes body chainId).
Proof.
  rewrite rosettaValidateRequest_endpoint. unfold schemaAccepts. split.
  - destruct (RosettaSchemas (endpointOf url)) as [schemas |]; [| left; reflexivity].
    intros H. right.
    destruct (require_resolve (sf_request schemas)) as [path | e] eqn:Er; [| discriminate].
    destruct (validate path body) as [log [v | e]] eqn:Ev; [| discriminate].
    assert (Ev' : snd (validate path body) = Ok v) by (rewrite Ev; reflexivity).
    destruct (vs_valid v) eqn:Evalid; cbn [negb snd] in H.
    + destruct (validate_accepts path body v Ev' Evalid) as [_ (schemaDef & errs & E1 & E2)].
      split; [| apply otherChecks_accepted; exact H].
      exists schemas, path, schemaDef, errs. repeat split; first [reflexivity | assumption].
    + injection H as ->. discriminate.
  - intros [E | [(schemas & path & schemaDef & errs & E1 & E2 & E3 & E4) Hp]].
    + rewrite E. reflexivity.
    + rewrite E1, E2, (validate_accepted path body schemaDef errs E3 E4).
      cbn [negb vs_valid accepted snd]. apply otherChecks_accepted. exact Hp.
Qed.

(** X16. The digits of a prefixed hash are not looked at. When the hash of
    the [block_identifier] starts with [0x], the validation does not answer
    [invalidBlockHash], whatever follows the prefix: [hexToBuffer] is called
    on a hash without the prefix only. *)
Theorem rosetta_prefixed_block_hash_not_rejected
  (url : string) (body : RosettaRequest) (chainId : ChainID)
  (identifier : Identifier) (hash : string) :
  block_identifier body = Some identifier ->
  id_hash identifier = Some hash ->
  has0xPrefix hash = true ->
  snd (rosettaValidateRequest url body chainId) <> Ok (rejectedAs invalidBlockHash).
Proof.
  intros Hb Hh Hp. rewrite rosettaValidateRequest_endpoint.
  destruct (RosettaSchemas (endpointOf url)) as [schemas |]; [| discriminate].
  destruct (require_resolve (sf_request schemas)) as [path | e]; [| discriminate].
  destruct (validate path body) as [log [v | e]] eqn:Ev; [| discriminate].
  assert (Ev' : snd (validate path body) = Ok v) by (rewrite Ev; reflexivity).
  destruct (vs_valid v) eqn:Evalid; cbn [negb snd].
  - unfold otherChecks. rewrite Hb. unfold validHexId at 1. rewrite Hh, Hp.
    cbn [negb isSome andb].
    destruct (match network_identifier body with
              | Some ni => networkChecks ni chainId
              | None => Ok None
              end) as [[r |] | e] eqn:En; [| | discriminate].
    + destruct (network_identifier body) as [ni |]; [| discriminate].
      unfold networkChecks in En.
      destruct (negb _) in En; [injection En as <-; discriminate |].
      destruct (getRosettaNetworkName chainId); [| discriminate].
      destruct (negb _) in En; [injection En as <-; discriminate | discriminate].
    + destruct (isSome (transaction_identifier body) && _); [discriminate |].
      destruct (account_identifier body) as [ai |]; [| discriminate].
      destruct (negb _); discriminate.
  - intros [= E]. apply validate_rejects in Ev'. rewrite E in Ev'. discriminate.
Qed.

End RosettaProperties.

(** ** The error table *)

Section ErrorTableProperties.

Import Rosetta.

Context {env : Env} {renv : RosettaEnv}.

Lemma eqType_eq (a b : RosettaErrorsTypes) : eqType a b = true <-> a = b.
Proof. destruct a, b; cbn; split; intros H; first [reflexivity | discriminate]. Qed.

Lemma eqType_refl (a : RosettaErrorsTypes) : eqType a a = true.
Proof. apply eqType_eq. reflexivity. Qed.

(** The [if] chain of [makeRosettaError] selects the first pattern. *)
Lemma makeRosettaError_firstPattern (notValid : ValidSchema) (RosettaErrors : Table) :
  makeRosettaError notValid RosettaErrors
  = match firstPattern patterns (messageOf notValid) with
    | Some t =>
        let table :=
          setDetails t (JObject [("message", JString (messageOf notValid))]) RosettaErrors in
        (table t, table)
    | None =>
        (RosettaErrors match vs_errorType notValid with
                       | Some t => t
                       | None => unknownError
                       end,
         RosettaErrors)
    end.
Proof.
  unfold makeRosettaError, patterns, firstPattern. fold (messageOf notValid).
  repeat (destruct (JsString.includes _ (messageOf notValid)); [reflexivity |]).
  reflexivity.
Qed.

Lemma firstPattern_In (ps : list (string * RosettaErrorsTypes)) (error : string)
  (t : RosettaErrorsTypes) :
  firstPattern ps error = Some t -> In t (map snd ps).
Proof.
  induction ps as [| [p t'] ps IH]; cbn; [discriminate |].
  destruct (JsString.includes p error).
  - intros [= ->]. left. reflexivity.
  - intros H. right. apply IH. exact H.
Qed.

(** The table after [makeRosettaError], entry by entry. *)
Lemma makeRosettaError_table
  (notValid : ValidSchema) (RosettaErrors : Table) (t : RosettaErrorsTypes) :
  err_code (snd (makeRosettaError notValid RosettaErrors) t) = err_code (RosettaErrors t)
  /\ err_message (snd (makeRosettaError notValid RosettaErrors) t)
     = err_message (RosettaErrors t)
  /\ err_retriable (snd (makeRosettaError notValid RosettaErrors) t)
     = err_retriable (RosettaErrors t)
  /\ (snd (makeRosettaError notValid RosettaErrors) t = RosettaErrors t
      \/ (firstPattern patterns (messageOf notValid) = Some t
          /\ err_details (snd (makeRosettaError notValid RosettaErrors) t)
             = Some (JObject [("message", JString (messageOf notValid))]))).
Proof.
  rewrite makeRosettaError_firstPattern.
  destruct (firstPattern patterns (messageOf notValid)) as [t' |]; cbn [snd].
  - unfold setDetails. destruct (eqType t t') eqn:E; cbn.
    + apply eqType_eq in E. subst t'. repeat split. right. split; reflexivity.
    + repeat split. left. reflexivity.
  - repeat split. left. reflexivity.
Qed.

(** X17. What [makeRosettaError] does to the table. It changes no code, no
    message and no [retriable] flag. The [details] of an error are changed
    only for the error of the first pattern that occurs in the message of the
    schema validation, and become that message. *)
Theorem makeRosettaError_writes_details_only
  (notValid : ValidSchema) (RosettaErrors : Table) (t : RosettaErrorsTypes) :
  let table := snd (makeRosettaError notValid RosettaErrors) in
  err_code (table t) = err_code (RosettaErrors t)
  /\ err_message (table t) = err_message (RosettaErrors t)
  /\ err_retriable (table t) = err_retriable (RosettaErrors t)
  /\ (table t = RosettaErrors t
      \/ (firstPattern patterns (messageOf notValid) = Some t
          /\ err_details (table t)
             = Some (JObject [("message", JString (messageOf notValid))]))).
Proof. exact (makeRosettaError_table notValid RosettaErrors t). Qed.

(** X18. The details stay in the table. After the error of a schema failure
    has been made, an error of the type that its message selected carries the
    details of that failure when it is made for a validation result that has
    no message of its own: the assignment to [resp.details] is an assignment
    to the object of the table. *)
Theorem makeRosettaError_details_persist
  (notValid : ValidSchema) (RosettaErrors : Table) (t : RosettaErrorsTypes) :
  firstPattern patterns (messageOf notValid) = Some t ->
  err_details (fst (makeRosettaError (rejectedAs t)
                      (snd (makeRosettaError notValid RosettaErrors))))
  = Some (JObject [("message", JString (messageOf notValid))]).
Proof.
  intros H. rewrite (makeRosettaError_firstPattern notValid), H. cbn [snd].
  rewrite makeRosettaError_firstPattern.
  change (firstPattern patterns (messageOf (rejectedAs t))) with (@None RosettaErrorsTypes).
  cbn [fst vs_errorType rejectedAs]. unfold setDetails. rewrite eqType_refl. reflexivity.
Qed.

Lemma after_cons (notValid : ValidSchema) (history : list ValidSchema) (RosettaErrors : Table) :
  after (notValid :: history) RosettaErrors
  = after history (snd (makeRosettaError notValid RosettaErrors)).
Proof. reflexivity. Qed.

Lemma after_frame (history : list ValidSchema) (RosettaErrors : Table) (t : RosettaErrorsTypes) :
  err_code (after history RosettaErrors t) = err_code (RosettaErrors t)
  /\ err_message (after history RosettaErrors t) = err_message (RosettaErrors t)
  /\ err_retriable (after history RosettaErrors t) = err_retriable (RosettaErrors t)
  /\ (~ In t (map snd patterns) -> after history RosettaErrors t = RosettaErrors t).
Proof.
  revert RosettaErrors. induction history as [| v history IH]; intros T.
  - repeat split.
  - rewrite after_cons. destruct (IH (snd (makeRosettaError v T))) as (Ec & Em & Er & Ed).
    destruct (makeRosettaError_table v T t) as (Fc & Fm & Fr & Fd).
    rewrite Ec, Em, Er, Fc, Fm, Fr. repeat split.
    intros Hn. rewrite (Ed Hn). destruct Fd as [Fd | [Fd _]]; [exact Fd |].
    exfalso. apply Hn. eapply firstPattern_In. exact Fd.
Qed.

(** The results of the validation: a rejection by the schema has no error
    type; a rejection by one of the other checks has no message, and its
    type is not one that a pattern selects. *)
Lemma rosettaValidateRequest_results
  (url : string) (body : RosettaRequest) (chainId : ChainID) (v : ValidSchema) :
  snd (rosettaValidateRequest url body chainId) = Ok v ->
  vs_errorType v = None
  \/ (vs_error v = None
      /\ exists t, vs_errorType v = Some t /\ ~ In t (map snd patterns)).
Proof.
  assert (own : forall t, In t [invalidBlockchain; invalidNetwork; invalidBlockHash;
                               invalidTransactionHash; invalidAccount] ->
                vs_error (rejectedAs t) = None
                /\ exists t', vs_errorType (rejectedAs t) = Some t'
                              /\ ~ In t' (map snd patterns)).
  { intros t Ht. split; [reflexivity |]. exists t. split; [reflexivity |].
    cbn in Ht |- *. intuition (subst; discriminate). }
  rewrite rosettaValidateRequest_endpoint.
  destruct (RosettaSchemas (endpointOf url)) as [schemas |];
    [| intros [= <-]; left; reflexivity].
  destruct (require_resolve (sf_request schemas)) as [path | e]; [| discriminate].
  destruct (validate path body) as [log [v' | e]] eqn:Ev; [| discriminate].
  assert (Ev' : snd (validate path body) = Ok v') by (rewrite Ev; reflexivity).
  destruct (vs_valid v'); cbn [negb snd].
  - unfold otherChecks.
    destruct (network_identifier body) as [ni |].
    + unfold networkChecks. destruct (negb _).
      { intros [= <-]. right. apply own. cbn. tauto. }
      destruct (getRosettaNetworkName chainId); [| discriminate].
      destruct (negb _).
      { intros [= <-]. right. apply own. cbn. tauto. }
      destruct (isSome (block_identifier body) && _).
      { intros [= <-]. right. apply own. cbn. tauto. }
      destruct (isSome (transaction_identifier body) && _).
      { intros [= <-]. right. apply own. cbn. tauto. }
      destruct (account_identifier body) as [ai |]; [| intros [= <-]; left; reflexivity].
      destruct (negb _); intros [= <-]; [right; apply own; cbn; tauto | left; reflexivity].
    + destruct (isSome (block_identifier body) && _).
      { intros [= <-]. right. apply own. cbn. tauto. }
      destruct (isSome (transaction_identifier body) && _).
      { intros [= <-]. right. apply own. cbn. tauto. }
      destruct (account_identifier body) as [ai |]; [| intros [= <-]; left; reflexivity].
      destruct (negb _); intros [= <-]; [right; apply own; cbn; tauto | left; reflexivity].
  - intros [= <-]. left. eapply validate_rejects. exact Ev'.
Qed.

(** X19. The errors of validation results do not depend on the errors made
    before. For a result of [rosettaValidateRequest], [makeRosettaError]
    returns the same error whatever series of errors has been made from the
    table before: the details it writes are written anew for each schema
    failure, and the errors of the other checks are of types whose details it
    never writes. *)
Theorem rosetta_error_independent_of_history
  (url : string) (body : RosettaRequest) (chainId : ChainID) (v : ValidSchema)
  (history : list ValidSchema) (RosettaErrors : Table) :
  snd (rosettaValidateRequest url body chainId) = Ok v ->
  fst (makeRosettaError v (after history RosettaErrors))
  = fst (makeRosettaError v RosettaErrors).
Proof.
  intros H. apply rosettaValidateRequest_results in H.
  rewrite !makeRosettaError_firstPattern.
  assert (Hu : ~ In unknownError (map snd patterns))
    by (cbn; intuition discriminate).
  destruct H as [H | (He & t & Ht & Hn)].
  - rewrite H. destruct (firstPattern patterns (messageOf v)) as [t |]; cbn [fst].
    + unfold setDetails. rewrite eqType_refl.
      destruct (after_frame history RosettaErrors t) as (Ec & Em & Er & _).
      rewrite Ec, Em, Er. reflexivity.
    + apply after_frame. exact Hu.
  - unfold messageOf. rewrite He, Ht.
    change (firstPattern patterns "") with (@None RosettaErrorsTypes). cbn [fst].
    apply after_frame. exact Hn.
Qed.

End ErrorTableProperties.

(** [/block/] is validated as [/block]. *)
Lemma rosetta_trailing_slash_ignored_witness :
  Rosetta.rosettaValidateRequest (env := Sample.env) (renv := RosettaSample.renv) "/block/"
    (RosettaSample.blockRequest (Some (RosettaSample.stacks "mainnet")) (Some "zz")) true
  = Rosetta.rosettaValidateRequest (env := Sample.env) (renv := RosettaSample.renv) "/block"
      (RosettaSample.blockRequest (Some (RosettaSample.stacks "mainnet")) (Some "zz")) true.
Proof.
  apply (rosetta_trailing_slash_ignored (env := Sample.env) (renv := RosettaSample.renv)
           "/block"). reflexivity.
Defined.

(** [0xzz] is no hexadecimal number, and is not rejected. *)
Lemma rosetta_prefixed_block_hash_not_rejected_witness :
  snd (Rosetta.rosettaValidateRequest (env := Sample.env) (renv := RosettaSample.renv) "/block"
         (RosettaSample.blockRequest (Some (RosettaSample.stacks "mainnet")) (Some "0xzz"))
         true)
  <> Ok (Rosetta.rejectedAs Rosetta.invalidBlockHash).
Proof.
  apply (rosetta_prefixed_block_hash_not_rejected
           (env := Sample.env) (renv := RosettaSample.renv) "/block"
           (RosettaSample.blockRequest (Some (RosettaSample.stacks "mainnet")) (Some "0xzz"))
           true
           {| Rosetta.id_index := None; Rosetta.id_hash := Some "0xzz" |} "0xzz").
  - reflexivity.
  - reflexivity.
  - reflexivity.
Defined.

(** An [emptyNetworkIdentifier] made after a schema failure that named the
    [network_identifier]. *)
Lemma makeRosettaError_details_persist_witness :
  Rosetta.err_details
    (fst (Rosetta.makeRosettaError (Rosetta.rejectedAs Rosetta.emptyNetworkIdentifier)
            (snd (Rosetta.makeRosettaError RosettaSample.schemaFailure RosettaSample.table))))
  = Some (JObject [("message",
                    JString "should have required property 'network_identifier'")]).
Proof.
  apply (makeRosettaError_details_persist RosettaSample.schemaFailure RosettaSample.table
           Rosetta.emptyNetworkIdentifier).
  reflexivity.
Defined.

(** The error of a schema failure, made a second time. *)
Lemma rosetta_error_independent_of_history_witness :
  fst (Rosetta.makeRosettaError RosettaSample.schemaFailure
         (Rosetta.after [RosettaSample.schemaFailure] RosettaSample.table))
  = fst (Rosetta.makeRosettaError RosettaSample.schemaFailure RosettaSample.table).
Proof.
  apply (rosetta_error_independent_of_history
           (env := Sample.env) (renv := RosettaSample.renv) "/block"
           (RosettaSample.blockRequest None None) true RosettaSample.schemaFailure
           [RosettaSample.schemaFailure] RosettaSample.table).
  reflexivity.
Defined.
